(** * bettervoice-webhooks: the webhook receiver of [main.py]

    A shallow embedding of the request handler [receive_webhook] and of the
    pieces of the Python runtime it calls: [json.loads] on the raw body
    (through Starlette's [Request.json]), [bytes.decode("utf-8")],
    [json.dumps(..., ensure_ascii=False, default=str)], [str], the
    [logging.Logger] the module configures from [LOG_LEVEL], and Starlette's
    [JSONResponse]. The logging setup of the module is embedded too: the
    level read from the environment, the stream handler added to a logger
    that has none, and the line its formatter writes for a record.

    Conventions.
    - A Python [str] is the list of its code points ([pystr]); a [bytes]
      object is a [list byte].
    - A position [(s, idx)] of the scanners is represented by the suffix
      [s[idx:]] that is still to be read.
    - Raising is a [Raise e] result; [try ... except Exception] is
      [try_except].
    - The JSON scanner follows the accelerated CPython implementation
      (ASCII digits, strict four-digit hexadecimal escapes).
    - Binary64 arithmetic and the Unicode "printable" table are kept
      abstract in the class [PyRuntime].
    - Two limits of the interpreter are part of the model, as [json.loads]
      meets them on a body that is valid JSON: [int] refuses a text of more
      than 4300 digits (the default of the interpreter, which the program
      does not change), and the scanner enters the arrays and objects of a
      document only as deep as the recursion limit leaves room
      ([recursion_room], a number of the runtime). The encoder of
      [json.dumps] runs no deeper in the stack than the scanner and enters
      the lists and dictionaries of a value as the scanner entered them, so
      that it has the room it needs on what the scanner returned; it is
      given no limit of its own. Memory is not bounded. A request is one
      whose body the server has received in full. *)

From Stdlib Require Import ZArith List String Ascii Bool Lia.
From Stdlib Require Import Strings.Byte.
From Stdlib Require DecimalFacts DecimalPos DecimalZ.
Import ListNotations.
Open Scope Z_scope.

Set Implicit Arguments.

(** ** Strings, bytes and exceptions *)

Definition pystr := list Z.
Definition pybytes := list byte.

(** A Python string literal made of ASCII characters. *)
Definition lit (s : string) : pystr :=
  map (fun a => Z.of_N (N_of_ascii a)) (list_ascii_of_string s).

Definition QUOTE : Z := 34.
Definition APOSTROPHE : Z := 39.
Definition BACKSLASH_CHAR : Z := 92.

Fixpoint pystr_eqb (a b : pystr) : bool :=
  match a, b with
  | [], [] => true
  | x :: a', y :: b' => (x =? y) && pystr_eqb a' b'
  | _, _ => false
  end.

(** [s.startswith(p)], returning what follows the prefix. *)
Fixpoint strip_prefix (p s : pystr) : option pystr :=
  match p with
  | [] => Some s
  | x :: p' =>
      match s with
      | [] => None
      | y :: s' => if x =? y then strip_prefix p' s' else None
      end
  end.

(** [sep.join(parts)] *)
Fixpoint join (sep : pystr) (parts : list pystr) : pystr :=
  match parts with
  | [] => []
  | [p] => p
  | p :: rest => p ++ sep ++ join sep rest
  end.

(** The exceptions of Python the handler can meet. [OutOfFuel] is not one
    of them: it is what a loop of this model answers when the fuel that
    bounds its rounds is used up, which does not happen (Section [Fuel]). *)
Inductive exn :=
| JSONDecodeError
| StopIteration
| UnicodeDecodeError
| UnicodeEncodeError
| TypeError
| ValueError
| RecursionError
| OutOfFuel.

Inductive result (A : Type) :=
| Ok (a : A)
| Raise (e : exn).
Arguments Ok {A} a.
Arguments Raise {A} e.

Definition bind {A B} (m : result A) (k : A -> result B) : result B :=
  match m with
  | Ok a => k a
  | Raise e => Raise e
  end.

Notation "x <- m ;; k" := (bind m (fun x => k))
  (at level 61, m at next level, right associativity).
Notation "' p <- m ;; k" := (bind m (fun x => let p := x in k))
  (at level 61, p pattern, m at next level, right associativity).

(** [try: m  except Exception: handler] *)
Definition try_except {A} (m : result A) (handler : exn -> result A) : result A :=
  match m with
  | Ok a => Ok a
  | Raise e => handler e
  end.

(** ** Decimal integers: [int.__repr__] and [int(text)] *)

Fixpoint chars_of_uint (d : Decimal.uint) : pystr :=
  match d with
  | Decimal.Nil => []
  | Decimal.D0 d => 48 :: chars_of_uint d
  | Decimal.D1 d => 49 :: chars_of_uint d
  | Decimal.D2 d => 50 :: chars_of_uint d
  | Decimal.D3 d => 51 :: chars_of_uint d
  | Decimal.D4 d => 52 :: chars_of_uint d
  | Decimal.D5 d => 53 :: chars_of_uint d
  | Decimal.D6 d => 54 :: chars_of_uint d
  | Decimal.D7 d => 55 :: chars_of_uint d
  | Decimal.D8 d => 56 :: chars_of_uint d
  | Decimal.D9 d => 57 :: chars_of_uint d
  end.

Definition is_digit (c : Z) : bool := (48 <=? c) && (c <=? 57).

Definition digit_cons (c : Z) (d : Decimal.uint) : Decimal.uint :=
  if c =? 48 then Decimal.D0 d
  else if c =? 49 then Decimal.D1 d
  else if c =? 50 then Decimal.D2 d
  else if c =? 51 then Decimal.D3 d
  else if c =? 52 then Decimal.D4 d
  else if c =? 53 then Decimal.D5 d
  else if c =? 54 then Decimal.D6 d
  else if c =? 55 then Decimal.D7 d
  else if c =? 56 then Decimal.D8 d
  else Decimal.D9 d.

Fixpoint uint_of_chars (s : pystr) : Decimal.uint :=
  match s with
  | [] => Decimal.Nil
  | c :: s' => digit_cons c (uint_of_chars s')
  end.

(** [int.__repr__(z)] *)
Definition int_repr (z : Z) : pystr :=
  match Z.to_int z with
  | Decimal.Pos d => chars_of_uint d
  | Decimal.Neg d => 45 :: chars_of_uint d
  end.

(** The integer a text matched by the integer group of [NUMBER_RE]
    writes. *)
Definition int_value (text : pystr) : Z :=
  match text with
  | 45 :: digits => Z.of_int (Decimal.Neg (uint_of_chars digits))
  | _ => Z.of_int (Decimal.Pos (uint_of_chars text))
  end.

(** The number of digits of such a text; the sign is not one. *)
Definition int_digits (text : pystr) : nat :=
  match text with
  | 45 :: digits => List.length digits
  | _ => List.length text
  end.

(** [sys.int_info.default_max_str_digits] *)
Definition MAX_STR_DIGITS : nat := 4300.

(** [int(text)] on a text matched by the integer group of [NUMBER_RE]: the
    conversion of more than [MAX_STR_DIGITS] digits is refused with a
    [ValueError]. *)
Definition py_int (text : pystr) : result Z :=
  if (MAX_STR_DIGITS <? int_digits text)%nat then Raise ValueError
  else Ok (int_value text).

(** ** Hexadecimal digits *)

Definition hexdigit (n : Z) : Z :=
  if n <? 10 then 48 + n else 97 + (n - 10).

(** The value of a hexadecimal digit (either case), if it is one. *)
Definition hexval (c : Z) : option Z :=
  if (48 <=? c) && (c <=? 57) then Some (c - 48)
  else if (97 <=? c) && (c <=? 102) then Some (c - 97 + 10)
  else if (65 <=? c) && (c <=? 70) then Some (c - 65 + 10)
  else None.

(** [width] lower-case hexadecimal digits of [n], most significant first. *)
Fixpoint hex_fixed (width : nat) (n : Z) : pystr :=
  match width with
  | O => []
  | S w => hex_fixed w (Z.shiftr n 4) ++ [hexdigit (Z.land n 15)]
  end.

(** ** Codecs: [bytes.decode] and [str.encode]

    [surrogatepass] selects the error handler of that name, the one
    [json.loads] decodes with; [false] is the default handler [strict], the
    one [raw.decode("utf-8")] of the handler uses. *)

Definition b2z (b : byte) : Z := Z.of_N (Byte.to_N b).

Definition in_range (lo hi c : Z) : bool := (lo <=? c) && (c <=? hi).

Definition is_continuation (b : Z) : bool := in_range 128 191 b.

Definition is_surrogate (c : Z) : bool := in_range 55296 57343 c.
Definition is_high_surrogate (c : Z) : bool := in_range 55296 56319 c.
Definition is_low_surrogate (c : Z) : bool := in_range 56320 57343 c.

(** Second byte allowed after the lead byte [b0] of a three-byte sequence. *)
Definition utf8_second_of_3 (surrogatepass : bool) (b0 b1 : Z) : bool :=
  if b0 =? 224 then in_range 160 191 b1
  else if b0 =? 237 then
    if surrogatepass then in_range 128 191 b1 else in_range 128 159 b1
  else in_range 128 191 b1.

(** Second byte allowed after the lead byte [b0] of a four-byte sequence. *)
Definition utf8_second_of_4 (b0 b1 : Z) : bool :=
  if b0 =? 240 then in_range 144 191 b1
  else if b0 =? 244 then in_range 128 143 b1
  else in_range 128 191 b1.

Fixpoint utf8_decode_codes (surrogatepass : bool) (bs : list Z) : result pystr :=
  match bs with
  | [] => Ok []
  | b0 :: t0 =>
      if in_range 0 127 b0 then
        rest <- utf8_decode_codes surrogatepass t0 ;; Ok (b0 :: rest)
      else if in_range 194 223 b0 then
        match t0 with
        | b1 :: t1 =>
            if is_continuation b1 then
              rest <- utf8_decode_codes surrogatepass t1 ;;
              Ok (Z.lor (Z.shiftl (Z.land b0 31) 6) (Z.land b1 63) :: rest)
            else Raise UnicodeDecodeError
        | _ => Raise UnicodeDecodeError
        end
      else if in_range 224 239 b0 then
        match t0 with
        | b1 :: b2 :: t2 =>
            if utf8_second_of_3 surrogatepass b0 b1 && is_continuation b2 then
              rest <- utf8_decode_codes surrogatepass t2 ;;
              Ok (Z.lor (Z.shiftl (Z.land b0 15) 12)
                    (Z.lor (Z.shiftl (Z.land b1 63) 6) (Z.land b2 63)) :: rest)
            else Raise UnicodeDecodeError
        | _ => Raise UnicodeDecodeError
        end
      else if in_range 240 244 b0 then
        match t0 with
        | b1 :: b2 :: b3 :: t3 =>
            if utf8_second_of_4 b0 b1 && is_continuation b2 && is_continuation b3 then
              rest <- utf8_decode_codes surrogatepass t3 ;;
              Ok (Z.lor (Z.shiftl (Z.land b0 7) 18)
                    (Z.lor (Z.shiftl (Z.land b1 63) 12)
                       (Z.lor (Z.shiftl (Z.land b2 63) 6) (Z.land b3 63))) :: rest)
            else Raise UnicodeDecodeError
        | _ => Raise UnicodeDecodeError
        end
      else Raise UnicodeDecodeError
  end.

(** [raw.decode("utf-8", errors)] *)
Definition utf8_decode (surrogatepass : bool) (raw : pybytes) : result pystr :=
  utf8_decode_codes surrogatepass (map b2z raw).

(** The sixteen-bit code units of a byte string; a trailing odd byte is
    "truncated data". *)
Fixpoint utf16_units (little_endian : bool) (bs : list Z) : result (list Z) :=
  match bs with
  | [] => Ok []
  | b0 :: b1 :: t =>
      rest <- utf16_units little_endian t ;;
      Ok ((if little_endian then Z.lor (Z.shiftl b1 8) b0
           else Z.lor (Z.shiftl b0 8) b1) :: rest)
  | _ => Raise UnicodeDecodeError
  end.

(** Surrogate pairs are joined; under [surrogatepass] a lone surrogate is
    kept as a code point. *)
Fixpoint utf16_join (units : list Z) : pystr :=
  match units with
  | [] => []
  | u :: t =>
      match t with
      | u2 :: t2 =>
          if is_high_surrogate u && is_low_surrogate u2 then
            (65536 + Z.lor (Z.shiftl (u - 55296) 10) (u2 - 56320)) :: utf16_join t2
          else u :: utf16_join t
      | [] => [u]
      end
  end.

Definition utf16_decode (little_endian : bool) (bs : list Z) : result pystr :=
  units <- utf16_units little_endian bs ;; Ok (utf16_join units).

(** Thirty-two-bit units; a value beyond U+10FFFF is an error that
    [surrogatepass] does not recover. *)
Fixpoint utf32_decode (little_endian : bool) (bs : list Z) : result pystr :=
  match bs with
  | [] => Ok []
  | b0 :: b1 :: b2 :: b3 :: t =>
      let c := if little_endian
               then Z.lor (Z.shiftl b3 24) (Z.lor (Z.shiftl b2 16) (Z.lor (Z.shiftl b1 8) b0))
               else Z.lor (Z.shiftl b0 24) (Z.lor (Z.shiftl b1 16) (Z.lor (Z.shiftl b2 8) b3)) in
      if c <=? 1114111 then
        rest <- utf32_decode little_endian t ;; Ok (c :: rest)
      else Raise UnicodeDecodeError
  | _ => Raise UnicodeDecodeError
  end.

Inductive encoding :=
| UTF_8 | UTF_8_SIG | UTF_16 | UTF_16_BE | UTF_16_LE | UTF_32 | UTF_32_BE | UTF_32_LE.

(** [b.startswith(prefix)] *)
Definition startswith (prefix b : list Z) : bool :=
  match strip_prefix prefix b with
  | Some _ => true
  | None => false
  end.

Definition BOM_UTF8 : list Z := [239; 187; 191].
Definition BOM_UTF16_BE : list Z := [254; 255].
Definition BOM_UTF16_LE : list Z := [255; 254].
Definition BOM_UTF32_BE : list Z := [0; 0; 254; 255].
Definition BOM_UTF32_LE : list Z := [255; 254; 0; 0].

(** [json.detect_encoding(b)]; [byte_at i] is [b[i]]. *)
Definition detect_encoding (b : list Z) : encoding :=
  let byte_at i := nth i b 0 in
  if startswith BOM_UTF32_BE b || startswith BOM_UTF32_LE b then UTF_32
  else if startswith BOM_UTF16_BE b || startswith BOM_UTF16_LE b then UTF_16
  else if startswith BOM_UTF8 b then UTF_8_SIG
  else if (4 <=? List.length b)%nat then
    if byte_at 0%nat =? 0 then
      (if byte_at 1%nat =? 0 then UTF_32_BE else UTF_16_BE)
    else if byte_at 1%nat =? 0 then
      (if (byte_at 2%nat =? 0) && (byte_at 3%nat =? 0) then UTF_32_LE else UTF_16_LE)
    else UTF_8
  else if (List.length b =? 2)%nat then
    if byte_at 0%nat =? 0 then UTF_16_BE
    else if byte_at 1%nat =? 0 then UTF_16_LE
    else UTF_8
  else UTF_8.

(** [b.decode(enc, 'surrogatepass')]; the codecs [utf-8-sig], [utf-16] and
    [utf-32] consume the byte order mark that selected them, and the last
    two take their byte order from it. *)
Definition decode_surrogatepass (enc : encoding) (b : list Z) : result pystr :=
  match enc with
  | UTF_8 => utf8_decode_codes true b
  | UTF_8_SIG => utf8_decode_codes true (skipn 3 b)
  | UTF_16 => utf16_decode (startswith BOM_UTF16_LE b) (skipn 2 b)
  | UTF_16_BE => utf16_decode false b
  | UTF_16_LE => utf16_decode true b
  | UTF_32 => utf32_decode (startswith BOM_UTF32_LE b) (skipn 4 b)
  | UTF_32_BE => utf32_decode false b
  | UTF_32_LE => utf32_decode true b
  end.

(** [s.encode("utf-8")] with the default handler [strict]. *)
Fixpoint utf8_encode_codes (s : pystr) : result (list Z) :=
  match s with
  | [] => Ok []
  | c :: s' =>
      rest <- utf8_encode_codes s' ;;
      if in_range 0 127 c then Ok (c :: rest)
      else if in_range 128 2047 c then
        Ok (Z.lor 192 (Z.shiftr c 6) :: Z.lor 128 (Z.land c 63) :: rest)
      else if is_surrogate c then Raise UnicodeEncodeError
      else if in_range 2048 65535 c then
        Ok (Z.lor 224 (Z.shiftr c 12) :: Z.lor 128 (Z.land (Z.shiftr c 6) 63)
              :: Z.lor 128 (Z.land c 63) :: rest)
      else if in_range 65536 1114111 c then
        Ok (Z.lor 240 (Z.shiftr c 18) :: Z.lor 128 (Z.land (Z.shiftr c 12) 63)
              :: Z.lor 128 (Z.land (Z.shiftr c 6) 63)
              :: Z.lor 128 (Z.land c 63) :: rest)
      else Raise UnicodeEncodeError
  end.

Definition z2b (z : Z) : byte :=
  match Byte.of_N (Z.to_N z) with
  | Some b => b
  | None => x00
  end.

Definition utf8_encode (s : pystr) : result pybytes :=
  codes <- utf8_encode_codes s ;; Ok (map z2b codes).

(** ** The abstract part of the runtime *)

Inductive float_kind := FNaN | FPosInf | FNegInf | FFinite.

(** Binary64 floats, the Unicode database and the room the recursion limit
    leaves, as the interpreter provides them: [float_of_literal] is
    [float(text)], [float_repr] is [float.__repr__], [float_classify]
    decides the tests [o != o], [o == inf] and [o == -inf] of the encoder,
    and [isprintable] is [Py_UNICODE_ISPRINTABLE] on a code point above
    U+007F. [recursion_room] is the number of recursive calls the
    interpreter still allows where [json.loads] starts its scanner (the
    recursion limit less the depth of the stack there); the scanner makes
    one such call for each array or object it enters. There is room for one
    call at least: the handler itself goes deeper when it logs. *)
Class PyRuntime := {
  pyfloat : Type;
  float_of_literal : pystr -> pyfloat;
  float_nan : pyfloat;
  float_inf : pyfloat;
  float_neginf : pyfloat;
  float_classify : pyfloat -> float_kind;
  float_repr : pyfloat -> pystr;
  isprintable : Z -> bool;
  recursion_room : nat;
  recursion_room_positive : (1 <= recursion_room)%nat
}.

(** ** The number token of the scanner

    [NUMBER_RE] has three groups: the integer part (an optional minus sign,
    then either a single zero or a non-zero digit and any digits), an
    optional fraction (a dot and one or more digits) and an optional
    exponent (e or E, an optional sign, one or more digits). *)

Fixpoint take_digits (s : pystr) : pystr * pystr :=
  match s with
  | c :: s' =>
      if is_digit c then let '(d, r) := take_digits s' in (c :: d, r)
      else ([], s)
  | [] => ([], [])
  end.

(** The integer group. *)
Definition match_integer (s : pystr) : option (pystr * pystr) :=
  let '(sign, s1) :=
    match s with
    | c :: s' => if c =? 45 then ([45], s') else ([], s)
    | [] => ([], s)
    end in
  match s1 with
  | c :: s2 =>
      if c =? 48 then Some (sign ++ [48], s2)
      else if in_range 49 57 c then
        let '(d, r) := take_digits s2 in Some (sign ++ c :: d, r)
      else None
  | [] => None
  end.

(** The optional fraction group; an unmatched group is the empty text. *)
Definition match_frac (s : pystr) : pystr * pystr :=
  match s with
  | c :: s' =>
      if c =? 46 then
        match take_digits s' with
        | ([], _) => ([], s)
        | (d, r) => (46 :: d, r)
        end
      else ([], s)
  | [] => ([], s)
  end.

(** The optional exponent group. *)
Definition match_exp (s : pystr) : pystr * pystr :=
  match s with
  | c :: s' =>
      if (c =? 101) || (c =? 69) then
        let '(sign, s1) :=
          match s' with
          | c1 :: s1' => if (c1 =? 45) || (c1 =? 43) then ([c1], s1') else ([], s')
          | [] => ([], s')
          end in
        match take_digits s1 with
        | ([], _) => ([], s)
        | (d, r) => (c :: sign ++ d, r)
        end
      else ([], s)
  | [] => ([], s)
  end.

(** [NUMBER_RE.match(string, idx)]: the three groups and what follows. *)
Definition match_number (s : pystr) : option ((pystr * pystr * pystr) * pystr) :=
  match match_integer s with
  | None => None
  | Some (integer, s1) =>
      let '(frac, s2) := match_frac s1 in
      let '(exp, s3) := match_exp s2 in
      Some ((integer, frac, exp), s3)
  end.

(** ** The string token: [scanstring] in strict mode *)

(** The table [BACKSLASH] of one-character escapes. *)
Definition BACKSLASH (esc : Z) : option Z :=
  if esc =? 34 then Some 34
  else if esc =? 92 then Some 92
  else if esc =? 47 then Some 47
  else if esc =? 98 then Some 8
  else if esc =? 102 then Some 12
  else if esc =? 110 then Some 10
  else if esc =? 114 then Some 13
  else if esc =? 116 then Some 9
  else None.

(** [_decode_uXXXX]: four hexadecimal digits and what follows them. *)
Definition decode_uXXXX (s : pystr) : result (Z * pystr) :=
  match s with
  | h1 :: h2 :: h3 :: h4 :: rest =>
      match hexval h1, hexval h2, hexval h3, hexval h4 with
      | Some a, Some b, Some c, Some d =>
          Ok (Z.lor (Z.shiftl (Z.lor (Z.shiftl (Z.lor (Z.shiftl a 4) b) 4) c) 4) d, rest)
      | _, _, _, _ => Raise JSONDecodeError
      end
  | _ => Raise JSONDecodeError
  end.

(** What comes after the [u] of a unicode escape: the code point (a
    surrogate pair written as two escapes is joined) and the rest. *)
Definition scan_unicode_escape (s : pystr) : result (Z * pystr) :=
  '(uni, rest) <- decode_uXXXX s ;;
  if is_high_surrogate uni then
    match strip_prefix [92; 117] rest with
    | Some rest2 =>
        '(uni2, rest3) <- decode_uXXXX rest2 ;;
        if is_low_surrogate uni2 then
          Ok (65536 + Z.lor (Z.shiftl (uni - 55296) 10) (uni2 - 56320), rest3)
        else Ok (uni, rest)
    | None => Ok (uni, rest)
    end
  else Ok (uni, rest).

(** The scanning loop; [chunks] holds the characters decoded so far, last
    first. The loop reads at least one character per round, so a [fuel]
    above the length of the text lets it run to its end. *)
Fixpoint scanstring_loop (fuel : nat) (s : pystr) (chunks : pystr)
  : result (pystr * pystr) :=
  match fuel with
  | O => Raise OutOfFuel
  | S fuel' =>
      match s with
      | [] => Raise JSONDecodeError
      | c :: s' =>
          if c =? QUOTE then Ok (rev chunks, s')
          else if c =? BACKSLASH_CHAR then
            match s' with
            | [] => Raise JSONDecodeError
            | esc :: s'' =>
                if esc =? 117 then
                  '(char, rest) <- scan_unicode_escape s'' ;;
                  scanstring_loop fuel' rest (char :: chunks)
                else
                  match BACKSLASH esc with
                  | Some char => scanstring_loop fuel' s'' (char :: chunks)
                  | None => Raise JSONDecodeError
                  end
            end
          else if in_range 0 31 c then Raise JSONDecodeError
          else scanstring_loop fuel' s' (c :: chunks)
      end
  end.

(** [scanstring(s, end, strict=True)], called just after the opening quote. *)
Definition scanstring (s : pystr) : result (pystr * pystr) :=
  scanstring_loop (S (List.length s)) s [].

(** [WHITESPACE.match(s, end).end()] *)
Fixpoint skip_whitespace (s : pystr) : pystr :=
  match s with
  | c :: s' =>
      if (c =? 32) || (c =? 9) || (c =? 10) || (c =? 13) then skip_whitespace s'
      else s
  | [] => []
  end.

(** [[f(x) for x in l]] where [f] may raise. *)
Definition map_result {A B} (f : A -> result B) : list A -> result (list B) :=
  fix go (l : list A) : result (list B) :=
    match l with
    | [] => Ok []
    | x :: l' => y <- f x ;; ys <- go l' ;; Ok (y :: ys)
    end.

Section Python.
Context {RT : PyRuntime}.

(** ** Python values *)

(** The values the handler can hold in [body], [headers] and [client_ip],
    and the dictionaries with other keys on which [json.dumps] raises. A
    [dict] is the list of its items in insertion order. *)
#[local] Unset Elimination Schemes.
Inductive pyval :=
| PNone
| PBool (b : bool)
| PInt (z : Z)
| PFloat (f : pyfloat)
| PStr (s : pystr)
| PBytes (b : pybytes)
| PList (items : list pyval)
| PDict (items : list (pyval * pyval)).
#[local] Set Elimination Schemes.

Definition key_is (k : pystr) (k' : pyval) : bool :=
  match k' with
  | PStr s => pystr_eqb s k
  | _ => false
  end.

(** [d[k] = v] for a string key: an existing key keeps its place. *)
Fixpoint dict_setitem (d : list (pyval * pyval)) (k : pystr) (v : pyval)
  : list (pyval * pyval) :=
  match d with
  | [] => [(PStr k, v)]
  | (k', v') :: d' =>
      if key_is k k' then (k', v) :: d'
      else (k', v') :: dict_setitem d' k v
  end.

(** [dict(pairs)] *)
Definition dict_of_pairs (pairs : list (pystr * pyval)) : list (pyval * pyval) :=
  fold_left (fun d kv => dict_setitem d (fst kv) (snd kv)) pairs [].

(** ** [json.loads] *)

(** [except StopIteration: raise JSONDecodeError("Expecting value", ...)] *)
Definition expecting_value {A} (m : result A) : result A :=
  try_except m (fun e =>
    match e with
    | StopIteration => Raise JSONDecodeError
    | _ => Raise e
    end).

Definition expect (c : Z) (s : pystr) : result pystr :=
  match s with
  | x :: s' => if x =? c then Ok s' else Raise JSONDecodeError
  | [] => Raise JSONDecodeError
  end.

(** The loop of [JSONArray]; [s] is where the next element starts. A round
    reads at least one character, so a [fuel] above the length of the text
    lets the loop run to its end. *)
Fixpoint JSONArray_loop (scan_once : pystr -> result (pyval * pystr))
  (fuel : nat) (s : pystr) (values : list pyval) : result (pyval * pystr) :=
  match fuel with
  | O => Raise OutOfFuel
  | S fuel' =>
      '(value, s1) <- expecting_value (scan_once s) ;;
      let values := values ++ [value] in
      match skip_whitespace s1 with
      | [] => Raise JSONDecodeError
      | nextchar :: s2 =>
          if nextchar =? 93 then Ok (PList values, s2)
          else if nextchar =? 44 then
            JSONArray_loop scan_once fuel' (skip_whitespace s2) values
          else Raise JSONDecodeError
      end
  end.

(** [JSONArray((s, end), scan_once)], called just after the bracket. *)
Definition JSONArray (scan_once : pystr -> result (pyval * pystr)) (s : pystr)
  : result (pyval * pystr) :=
  match skip_whitespace s with
  | [] => Raise JSONDecodeError
  | nextchar :: s1 =>
      if nextchar =? 93 then Ok (PList [], s1)
      else JSONArray_loop scan_once (S (List.length s)) (skip_whitespace s) []
  end.

(** The loop of [JSONObject]; [s] is just after the opening quote of a
    key. *)
Fixpoint JSONObject_loop (scan_once : pystr -> result (pyval * pystr))
  (fuel : nat) (s : pystr) (pairs : list (pystr * pyval)) : result (pyval * pystr) :=
  match fuel with
  | O => Raise OutOfFuel
  | S fuel' =>
      '(key, s1) <- scanstring s ;;
      s2 <- expect 58 (skip_whitespace s1) ;;
      '(value, s3) <- expecting_value (scan_once (skip_whitespace s2)) ;;
      let pairs := pairs ++ [(key, value)] in
      match skip_whitespace s3 with
      | [] => Raise JSONDecodeError
      | nextchar :: s4 =>
          if nextchar =? 125 then Ok (PDict (dict_of_pairs pairs), s4)
          else if nextchar =? 44 then
            s5 <- expect QUOTE (skip_whitespace s4) ;;
            JSONObject_loop scan_once fuel' s5 pairs
          else Raise JSONDecodeError
      end
  end.

(** [JSONObject((s, end), strict, scan_once, ...)] without hooks, called
    just after the brace. *)
Definition JSONObject (scan_once : pystr -> result (pyval * pystr)) (s : pystr)
  : result (pyval * pystr) :=
  match skip_whitespace s with
  | [] => Raise JSONDecodeError
  | nextchar :: s1 =>
      if nextchar =? 125 then Ok (PDict [], s1)
      else if nextchar =? QUOTE then JSONObject_loop scan_once (S (List.length s)) s1 []
      else Raise JSONDecodeError
  end.

(** The value of a matched number: [parse_float] when there is a fraction
    or an exponent, [parse_int] otherwise. *)
Definition number_value (integer frac exp : pystr) : result pyval :=
  match frac ++ exp with
  | [] => z <- py_int integer ;; Ok (PInt z)
  | _ => Ok (PFloat (float_of_literal (integer ++ frac ++ exp)))
  end.

(** [_scan_once(string, idx)]. The scanner makes a recursive call of the
    interpreter when it enters an object or an array, and only then;
    [room] is the number of such calls the recursion limit still allows,
    and entering a container with no room left is a [RecursionError]. *)
Fixpoint scan_once (room : nat) (s : pystr) : result (pyval * pystr) :=
  match s with
  | [] => Raise StopIteration
  | nextchar :: s' =>
      if nextchar =? QUOTE then
        '(str, rest) <- scanstring s' ;; Ok (PStr str, rest)
      else if nextchar =? 123 then
        match room with
        | O => Raise RecursionError
        | S room' => JSONObject (scan_once room') s'
        end
      else if nextchar =? 91 then
        match room with
        | O => Raise RecursionError
        | S room' => JSONArray (scan_once room') s'
        end
      else
        match strip_prefix (lit "null") s with
        | Some rest => Ok (PNone, rest)
        | None =>
        match strip_prefix (lit "true") s with
        | Some rest => Ok (PBool true, rest)
        | None =>
        match strip_prefix (lit "false") s with
        | Some rest => Ok (PBool false, rest)
        | None =>
        match match_number s with
        | Some ((integer, frac, exp), rest) =>
            value <- number_value integer frac exp ;; Ok (value, rest)
        | None =>
        match strip_prefix (lit "NaN") s with
        | Some rest => Ok (PFloat float_nan, rest)
        | None =>
        match strip_prefix (lit "Infinity") s with
        | Some rest => Ok (PFloat float_inf, rest)
        | None =>
        match strip_prefix (lit "-Infinity") s with
        | Some rest => Ok (PFloat float_neginf, rest)
        | None => Raise StopIteration
        end end end end end end end
  end.

(** [JSONDecoder.decode(s)], with the room the interpreter has when the
    handler calls [json.loads]. *)
Definition decode (s : pystr) : result pyval :=
  '(obj, rest) <- expecting_value (scan_once recursion_room (skip_whitespace s)) ;;
  match skip_whitespace rest with
  | [] => Ok obj
  | _ => Raise JSONDecodeError
  end.

(** [json.loads(s)] for a [str] argument. *)
Definition json_loads_str (s : pystr) : result pyval :=
  match s with
  | c :: _ => if c =? 65279 then Raise JSONDecodeError else decode s
  | [] => decode s
  end.

(** [json.loads(b)] for a [bytes] argument. *)
Definition json_loads (b : pybytes) : result pyval :=
  let codes := map b2z b in
  s <- decode_surrogatepass (detect_encoding codes) codes ;;
  decode s.

(** ** [str] and [repr] *)

(** The quote [repr] encloses a string or a bytes object in: a double quote
    when the text holds an apostrophe and no double quote. *)
Definition repr_quote (codes : list Z) : Z :=
  if existsb (Z.eqb APOSTROPHE) codes && negb (existsb (Z.eqb QUOTE) codes)
  then QUOTE else APOSTROPHE.

Definition bytes_repr_char (quote c : Z) : pystr :=
  if (c =? quote) || (c =? BACKSLASH_CHAR) then [BACKSLASH_CHAR; c]
  else if c =? 9 then lit "\t"
  else if c =? 10 then lit "\n"
  else if c =? 13 then lit "\r"
  else if (c <? 32) || (127 <=? c) then lit "\x" ++ hex_fixed 2 c
  else [c].

(** [bytes.__repr__] *)
Definition bytes_repr (b : pybytes) : pystr :=
  let codes := map b2z b in
  let quote := repr_quote codes in
  98 :: quote :: flat_map (bytes_repr_char quote) codes ++ [quote].

Definition str_repr_char (quote c : Z) : pystr :=
  if (c =? quote) || (c =? BACKSLASH_CHAR) then [BACKSLASH_CHAR; c]
  else if c =? 9 then lit "\t"
  else if c =? 10 then lit "\n"
  else if c =? 13 then lit "\r"
  else if (c <? 32) || (c =? 127) then lit "\x" ++ hex_fixed 2 c
  else if c <? 127 then [c]
  else if isprintable c then [c]
  else if c <=? 255 then lit "\x" ++ hex_fixed 2 c
  else if c <=? 65535 then lit "\u" ++ hex_fixed 4 c
  else lit "\U" ++ hex_fixed 8 c.

(** [str.__repr__] *)
Definition str_repr (s : pystr) : pystr :=
  let quote := repr_quote s in
  quote :: flat_map (str_repr_char quote) s ++ [quote].

(** [repr(o)] *)
Fixpoint py_repr (o : pyval) : pystr :=
  match o with
  | PNone => lit "None"
  | PBool true => lit "True"
  | PBool false => lit "False"
  | PInt z => int_repr z
  | PFloat f => float_repr f
  | PStr s => str_repr s
  | PBytes b => bytes_repr b
  | PList items => lit "[" ++ join (lit ", ") (map py_repr items) ++ lit "]"
  | PDict items =>
      lit "{"
      ++ join (lit ", ")
           (map (fun '(k, v) => py_repr k ++ lit ": " ++ py_repr v) items)
      ++ lit "}"
  end.

(** [str(o)] *)
Definition py_str (o : pyval) : pystr :=
  match o with
  | PStr s => s
  | _ => py_repr o
  end.

(** ** [json.dumps] *)

(** The replacement [ESCAPE_DCT] gives a character matched by [ESCAPE]. *)
Definition escape_char (c : Z) : pystr :=
  if c =? 92 then [92; 92]
  else if c =? 34 then [92; 34]
  else if c =? 8 then lit "\b"
  else if c =? 12 then lit "\f"
  else if c =? 10 then lit "\n"
  else if c =? 13 then lit "\r"
  else if c =? 9 then lit "\t"
  else if in_range 0 31 c then lit "\u" ++ hex_fixed 4 c
  else [c].

(** [encode_basestring(s)], the string encoder under [ensure_ascii=False]. *)
Definition encode_basestring (s : pystr) : pystr :=
  QUOTE :: flat_map escape_char s ++ [QUOTE].

(** [floatstr(o)] *)
Definition floatstr (allow_nan : bool) (o : pyfloat) : result pystr :=
  match float_classify o with
  | FFinite => Ok (float_repr o)
  | FNaN => if allow_nan then Ok (lit "NaN") else Raise ValueError
  | FPosInf => if allow_nan then Ok (lit "Infinity") else Raise ValueError
  | FNegInf => if allow_nan then Ok (lit "-Infinity") else Raise ValueError
  end.

(** The text of a dictionary key; with [skipkeys=False] any other key is a
    [TypeError]. *)
Definition encode_key (allow_nan : bool) (key : pyval) : result pystr :=
  match key with
  | PStr s => Ok s
  | PFloat f => floatstr allow_nan f
  | PBool true => Ok (lit "true")
  | PBool false => Ok (lit "false")
  | PNone => Ok (lit "null")
  | PInt z => Ok (int_repr z)
  | _ => Raise TypeError
  end.

Section Encoder.
Variables (item_separator key_separator : pystr) (allow_nan : bool).

(** [_iterencode(o)] with [default=str], [ensure_ascii=False],
    [indent=None], [sort_keys=False], the chunks already joined. An object
    of no JSON type goes through [default]; [str] returns a string, which is
    then encoded as one. *)
Fixpoint iterencode (o : pyval) : result pystr :=
  match o with
  | PStr s => Ok (encode_basestring s)
  | PNone => Ok (lit "null")
  | PBool true => Ok (lit "true")
  | PBool false => Ok (lit "false")
  | PInt z => Ok (int_repr z)
  | PFloat f => floatstr allow_nan f
  | PList items =>
      chunks <- map_result iterencode items ;;
      Ok (lit "[" ++ join item_separator chunks ++ lit "]")
  | PDict items =>
      chunks <- map_result (fun '(key, value) =>
                  k <- encode_key allow_nan key ;;
                  v <- iterencode value ;;
                  Ok (encode_basestring k ++ key_separator ++ v)) items ;;
      Ok (lit "{" ++ join item_separator chunks ++ lit "}")
  | PBytes b => Ok (encode_basestring (py_str (PBytes b)))
  end.

End Encoder.

(** [json.dumps(obj, ensure_ascii=False, default=str)] *)
Definition json_dumps (obj : pyval) : result pystr :=
  iterencode (lit ", ") (lit ": ") true obj.

(** ** [logging] *)

Definition CRITICAL : Z := 50.
Definition ERROR : Z := 40.
Definition WARNING : Z := 30.
Definition INFO : Z := 20.
Definition DEBUG : Z := 10.
Definition NOTSET : Z := 0.

(** The table [logging._nameToLevel]. *)
Definition nameToLevel (name : pystr) : option Z :=
  if pystr_eqb name (lit "CRITICAL") then Some CRITICAL
  else if pystr_eqb name (lit "FATAL") then Some CRITICAL
  else if pystr_eqb name (lit "ERROR") then Some ERROR
  else if pystr_eqb name (lit "WARN") then Some WARNING
  else if pystr_eqb name (lit "WARNING") then Some WARNING
  else if pystr_eqb name (lit "INFO") then Some INFO
  else if pystr_eqb name (lit "DEBUG") then Some DEBUG
  else if pystr_eqb name (lit "NOTSET") then Some NOTSET
  else None.

(** A [LogRecord]: the attributes the call sets, and those [extra] adds. *)
Record LogRecord := {
  record_name : pystr;
  record_levelno : Z;
  record_msg : pystr;
  record_extra : list (pystr * pyval)
}.

(** A logger below the root logger, with one stream handler of level
    [NOTSET]; [logger_emitted] is what the handler has written, oldest
    first. *)
Record Logger := {
  logger_name : pystr;
  logger_level : Z;
  root_level : Z;
  logger_emitted : list LogRecord
}.

(** [logging.getLogger(name)] in a fresh interpreter: the level is
    [NOTSET] and the root logger is at [WARNING]. *)
Definition getLogger (name : pystr) : Logger :=
  {| logger_name := name; logger_level := NOTSET; root_level := WARNING;
     logger_emitted := [] |}.

(** [logger.setLevel(level)] for a level given by name. *)
Definition setLevel (logger : Logger) (level : pystr) : result Logger :=
  match nameToLevel level with
  | Some l =>
      Ok {| logger_name := logger_name logger; logger_level := l;
            root_level := root_level logger;
            logger_emitted := logger_emitted logger |}
  | None => Raise ValueError
  end.

Definition getEffectiveLevel (logger : Logger) : Z :=
  if logger_level logger =? NOTSET then root_level logger
  else logger_level logger.

Definition isEnabledFor (logger : Logger) (level : Z) : bool :=
  getEffectiveLevel logger <=? level.

Definition APP_NAME : pystr := lit "bettervoice-webhook".

(** The logging setup of the module; [LOG_LEVEL] is the module constant,
    that is the environment variable (or [INFO]) in upper case. *)
Definition module_logger (LOG_LEVEL : pystr) : result Logger :=
  setLevel (getLogger APP_NAME) LOG_LEVEL.

(** ** Handler computations: exceptions over the state of the logger *)

Definition M (A : Type) : Type := Logger -> result A * Logger.

Definition ret {A} (a : A) : M A := fun lg => (Ok a, lg).

Definition lift {A} (r : result A) : M A := fun lg => (r, lg).

Definition mbind {A B} (m : M A) (k : A -> M B) : M B :=
  fun lg =>
    match m lg with
    | (Ok a, lg') => k a lg'
    | (Raise e, lg') => (Raise e, lg')
    end.

Definition mtry {A} (m : M A) (handler : exn -> M A) : M A :=
  fun lg =>
    match m lg with
    | (Ok a, lg') => (Ok a, lg')
    | (Raise e, lg') => handler e lg'
    end.

Notation "x <<- m ;; k" := (mbind m (fun x => k))
  (at level 61, m at next level, right associativity).
Notation "' p <<- m ;; k" := (mbind m (fun x => let p := x in k))
  (at level 61, p pattern, m at next level, right associativity).

(** [logger.info(msg, extra=extra)] *)
Definition Logger_info (msg : pystr) (extra : list (pystr * pyval)) : M unit :=
  fun lg =>
    if isEnabledFor lg INFO then
      let record := {| record_name := logger_name lg; record_levelno := INFO;
                       record_msg := msg; record_extra := extra |} in
      (Ok tt, {| logger_name := logger_name lg; logger_level := logger_level lg;
                 root_level := root_level lg;
                 logger_emitted := logger_emitted lg ++ [record] |})
    else (Ok tt, lg).

(** ** Starlette: the request and the response *)

Record Address := { host : pystr; port : Z }.

(** [headers_items] is [request.headers.items()]; [body] is the body the
    server has received. *)
Record Request := {
  client : option Address;
  headers_items : list (pystr * pystr);
  body : pybytes
}.

Record Response := {
  status_code : Z;
  media_type : pystr;
  response_body : pybytes
}.

(** [await request.body()] *)
Definition Request_body (request : Request) : M pybytes :=
  ret (body request).

(** [await request.json()] *)
Definition Request_json (request : Request) : M pyval :=
  raw <<- Request_body request ;;
  lift (json_loads raw).

(** [JSONResponse.render(content)] *)
Definition render (content : pyval) : result pybytes :=
  text <- iterencode (lit ",") (lit ":") false content ;;
  utf8_encode text.

(** [JSONResponse(content)] *)
Definition JSONResponse (content : pyval) : M Response :=
  rendered <<- lift (render content) ;;
  ret {| status_code := 200; media_type := lit "application/json";
         response_body := rendered |}.

(** ** The handler *)

(** The three stages of the body decoding of [receive_webhook]; the result
    is the pair [(body, body_type)]. *)
Definition decode_body (request : Request) : M (pyval * pystr) :=
  mtry
    (body <<- Request_json request ;;
     ret (body, lit "json"))
    (fun _ =>
       raw <<- Request_body request ;;
       mtry
         (text <<- lift (utf8_decode false raw) ;;
          ret (PStr text, lit "text"))
         (fun _ => ret (PBytes raw, lit "bytes"))).

(** "Safe serialization for logging". *)
Definition serialize_body (body : pyval) : M pystr :=
  mtry (lift (json_dumps body)) (fun _ => ret (py_str body)).

Definition ACK : pyval :=
  PDict [(PStr (lit "received"), PBool true); (PStr (lit "status"), PStr (lit "ok"))].

Definition receive_webhook (request : Request) : M Response :=
  let client_ip :=
    match client request with
    | Some address => PStr (host address)
    | None => PNone
    end in
  let headers :=
    PDict (dict_of_pairs (map (fun '(k, v) => (k, PStr v)) (headers_items request))) in
  '(body, body_type) <<- decode_body request ;;
  serialized_body <<- serialize_body body ;;
  _ <<- Logger_info (lit "Received webhook event")
          [ (lit "source", PStr (lit "bettervoice"));
            (lit "client_ip", client_ip);
            (lit "headers", headers);
            (lit "body_type", PStr body_type);
            (lit "body", PStr serialized_body) ] ;;
  JSONResponse ACK.

End Python.

Arguments pyval {RT}.
Arguments LogRecord {RT}.
Arguments Logger {RT}.

(** ** A small runtime

    An interpreter whose floats are the integers (a literal is rounded
    towards zero to its integer part, and printed with one decimal) and
    whose printable characters above U+007F are those above U+00A0, with
    room for 994 nested arrays and objects (what CPython 3.11 leaves at the
    top of a script, under the recursion limit of 1000). It shows that the
    laws asked of a runtime can be met, and lets the handler run on
    concrete requests. *)

Inductive small_float :=
| SNaN
| SInf
| SNegInf
| SFinite (z : Z).

Definition small_of_literal (text : pystr) : small_float :=
  match match_integer text with
  | Some (integer, _) => SFinite (int_value integer)
  | None => SNaN
  end.

Definition small_classify (f : small_float) : float_kind :=
  match f with
  | SNaN => FNaN
  | SInf => FPosInf
  | SNegInf => FNegInf
  | SFinite _ => FFinite
  end.

Definition small_repr (f : small_float) : pystr :=
  match f with
  | SNaN => lit "nan"
  | SInf => lit "inf"
  | SNegInf => lit "-inf"
  | SFinite z => int_repr z ++ lit ".0"
  end.

Definition small_runtime : PyRuntime :=
  {| pyfloat := small_float;
     float_of_literal := small_of_literal;
     float_nan := SNaN;
     float_inf := SInf;
     float_neginf := SNegInf;
     float_classify := small_classify;
     float_repr := small_repr;
     isprintable := fun c => 160 <? c;
     recursion_room := 994;
     recursion_room_positive := Nat.lt_0_succ 993 |}.

(** ** The values of JSON documents *)

(** Structural induction on values, through lists and dictionaries. *)
Definition pyval_ind {RT : PyRuntime} (P : pyval -> Prop)
  (HNone : P PNone) (HBool : forall b, P (PBool b)) (HInt : forall z, P (PInt z))
  (HFloat : forall f, P (PFloat f)) (HStr : forall s, P (PStr s))
  (HBytes : forall b, P (PBytes b))
  (HList : forall items, Forall P items -> P (PList items))
  (HDict : forall items,
      Forall (fun kv => P (fst kv) /\ P (snd kv)) items -> P (PDict items))
  : forall v, P v :=
  fix go (v : pyval) : P v :=
    match v with
    | PNone => HNone
    | PBool b => HBool b
    | PInt z => HInt z
    | PFloat f => HFloat f
    | PStr s => HStr s
    | PBytes b => HBytes b
    | PList items =>
        HList items
          ((fix all (l : list pyval) : Forall P l :=
              match l with
              | [] => Forall_nil P
              | x :: l' => Forall_cons x (go x) (all l')
              end) items)
    | PDict items =>
        HDict items
          ((fix all (l : list (pyval * pyval))
              : Forall (fun kv => P (fst kv) /\ P (snd kv)) l :=
              match l with
              | [] => Forall_nil _
              | kv :: l' => Forall_cons kv (conj (go (fst kv)) (go (snd kv))) (all l')
              end) items)
    end.

(** No two of the keys are the same string; a key that is not a string
    fails the test. *)
Fixpoint keys_distinct {RT : PyRuntime} (keys : list pyval) : bool :=
  match keys with
  | [] => true
  | PStr k :: keys' => negb (existsb (key_is k) keys') && keys_distinct keys'
  | _ :: _ => false
  end.

(** The values of the types [json.loads] builds: [None], booleans,
    integers, floats, strings, lists of such values, and dictionaries from
    distinct strings to such values. *)
Fixpoint is_json_value {RT : PyRuntime} (v : pyval) : bool :=
  match v with
  | PBytes _ => false
  | PList items => forallb is_json_value items
  | PDict items =>
      forallb (fun '(_, x) => is_json_value x) items
      && keys_distinct (map fst items)
  | _ => true
  end.

(** What may follow a value in a document without being read as part of a
    number: the end of the text, or a character that is not a digit, a
    dot, a sign or the letter of an exponent. Commas, closing brackets and
    braces and white space are of this kind. *)
Definition value_follow (rest : pystr) : bool :=
  match rest with
  | [] => true
  | c :: _ =>
      negb (is_digit c || (c =? 46) || (c =? 101) || (c =? 69)
            || (c =? 43) || (c =? 45))
  end.

(** The text does not go on with a digit. *)
Definition digit_free_head (rest : pystr) : bool :=
  match rest with
  | [] => true
  | c :: _ => negb (is_digit c)
  end.

(** The first character of the text of a value: a quote, a brace, a
    bracket, a minus sign, a digit, or the first letter of [null], [true],
    [false], [NaN] or [Infinity]. *)
Definition value_start (text : pystr) : bool :=
  match text with
  | [] => false
  | c :: _ =>
      (c =? 34) || (c =? 123) || (c =? 91) || (c =? 45) || is_digit c
      || (c =? 110) || (c =? 116) || (c =? 102) || (c =? 78) || (c =? 73)
  end.

(** The laws of floats the round trip of a document rests on: there is one
    NaN and one infinity of each sign, and the [repr] of a finite float is
    a number with a fraction or an exponent that [float] reads back as the
    same float. *)
Class PyRuntimeLaws (RT : PyRuntime) : Prop := {
  nan_unique : forall f, float_classify f = FNaN -> f = float_nan;
  inf_unique : forall f, float_classify f = FPosInf -> f = float_inf;
  neginf_unique : forall f, float_classify f = FNegInf -> f = float_neginf;
  repr_roundtrip : forall f, float_classify f = FFinite ->
    exists integer frac exp,
      match_number (float_repr f) = Some ((integer, frac, exp), [])
      /\ frac ++ exp <> []
      /\ float_of_literal (integer ++ frac ++ exp) = f
}.

(** The value is within the limits of the interpreter: its integers have
    at most [MAX_STR_DIGITS] digits, and its lists and dictionaries nest at
    most [room] deep. *)
Fixpoint within_limits {RT : PyRuntime} (room : nat) (v : pyval) {struct v}
  : bool :=
  match v with
  | PInt z => (List.length (int_repr (Z.abs z)) <=? MAX_STR_DIGITS)%nat
  | PList items =>
      match room with
      | O => false
      | S room' => forallb (within_limits room') items
      end
  | PDict items =>
      match room with
      | O => false
      | S room' => forallb (fun '(_, x) => within_limits room' x) items
      end
  | _ => true
  end.

(** With room for [room] nested containers or more, the scanner reads the
    value [v] back from the text [t], whatever follows [t] in a
    document. *)
Definition reads_back {RT : PyRuntime} (room : nat) (v : pyval) (t : pystr) : Prop :=
  value_start t = true
  /\ forall (rest : pystr) (n : nat),
       value_follow rest = true ->
       (room <= n)%nat ->
       scan_once n (t ++ rest) = Ok (v, rest).

(** The same for an item of a dictionary and its text. *)
Definition item_reads_back {RT : PyRuntime} (room : nat) (kv : pyval * pyval)
  (chunk : pystr) : Prop :=
  exists k t,
    fst kv = PStr k /\ reads_back room (snd kv) t
    /\ chunk = encode_basestring k ++ lit ": " ++ t.

(** The pairs [JSONObject] collects for a dictionary with string keys. *)
Definition str_items {RT : PyRuntime} (items : list (pyval * pyval))
  : list (pystr * pyval) :=
  map (fun '(k, v) => (match k with PStr s => s | _ => [] end, v)) items.

(** The body of the acknowledgement, as [JSONResponse] renders it. *)
Definition ACK_BYTES : pybytes :=
  map z2b ([123; 34] ++ lit "received" ++ [34] ++ lit ":true," ++ [34]
           ++ lit "status" ++ [34; 58; 34] ++ lit "ok" ++ [34; 125]).

(** The records a run of the handler has added to those of [before]. *)
Definition new_records {RT : PyRuntime} (before after : Logger) : list LogRecord :=
  skipn (List.length (logger_emitted before)) (logger_emitted after).

(** [d.get(k)] on the [extra] of a record. *)
Fixpoint extra_get {RT : PyRuntime} (k : pystr) (extra : list (pystr * pyval))
  : option pyval :=
  match extra with
  | [] => None
  | (k', v) :: extra' => if pystr_eqb k' k then Some v else extra_get k extra'
  end.

(** The record [receive_webhook] hands to [logger.info] for a request whose
    body decoded to the tag [body_type] and serialized to
    [serialized_body]. *)
Definition webhook_record {RT : PyRuntime} (lg : Logger) (request : Request)
  (body_type serialized_body : pystr) : LogRecord :=
  {| record_name := logger_name lg;
     record_levelno := INFO;
     record_msg := lit "Received webhook event";
     record_extra :=
       [ (lit "source", PStr (lit "bettervoice"));
         (lit "client_ip",
          match client request with
          | Some address => PStr (host address)
          | None => PNone
          end);
         (lit "headers",
          PDict (dict_of_pairs
                   (map (fun '(k, v) => (k, PStr v)) (headers_items request))));
         (lit "body_type", PStr body_type);
         (lit "body", PStr serialized_body) ] |}.

Definition ACK_RESPONSE : Response :=
  {| status_code := 200; media_type := lit "application/json";
     response_body := ACK_BYTES |}.

(** ** Valid JSON: the grammar of RFC 8259

    What the specification calls a body that "is valid JSON": a byte
    string that is the UTF-8 encoding of a JSON text. The grammar is the
    one of RFC 8259, as relations on texts; it is not taken from the code,
    and is there to be compared with what [json.loads] accepts. *)

Definition is_ws (c : Z) : bool :=
  (c =? 32) || (c =? 9) || (c =? 10) || (c =? 13).

(** [ws]: any number of spaces, tabs, line feeds and carriage returns. *)
Definition rfc_ws (w : pystr) : Prop := forallb is_ws w = true.

(** [unescaped = %x20-21 / %x23-5B / %x5D-10FFFF] *)
Definition is_unescaped (c : Z) : bool :=
  in_range 32 33 c || in_range 35 91 c || in_range 93 1114111 c.

(** The character after the backslash of a two-character escape. *)
Definition is_escape (c : Z) : bool :=
  (c =? 34) || (c =? 92) || (c =? 47) || (c =? 98) || (c =? 102)
  || (c =? 110) || (c =? 114) || (c =? 116).

(** [HEXDIG], in either case. *)
Definition is_hexdig (c : Z) : bool :=
  match hexval c with
  | Some _ => true
  | None => false
  end.

(** [*char], the inside of a string. *)
Inductive rfc_chars : pystr -> Prop :=
| chars_nil : rfc_chars []
| chars_unescaped (c : Z) (s : pystr) :
    is_unescaped c = true -> rfc_chars s -> rfc_chars (c :: s)
| chars_escape (c : Z) (s : pystr) :
    is_escape c = true -> rfc_chars s -> rfc_chars (92 :: c :: s)
| chars_unicode (h1 h2 h3 h4 : Z) (s : pystr) :
    is_hexdig h1 = true -> is_hexdig h2 = true ->
    is_hexdig h3 = true -> is_hexdig h4 = true ->
    rfc_chars s -> rfc_chars (92 :: 117 :: h1 :: h2 :: h3 :: h4 :: s).

(** [1*DIGIT] *)
Definition rfc_digits (ds : pystr) : Prop :=
  ds <> [] /\ forallb is_digit ds = true.

(** [int = zero / ( digit1-9 *DIGIT )] *)
Inductive rfc_int : pystr -> Prop :=
| int_zero : rfc_int [48]
| int_nonzero (d : Z) (ds : pystr) :
    in_range 49 57 d = true -> forallb is_digit ds = true -> rfc_int (d :: ds).

(** [[ frac ]], with [frac = decimal-point 1*DIGIT] *)
Inductive rfc_frac : pystr -> Prop :=
| frac_none : rfc_frac []
| frac_some (ds : pystr) : rfc_digits ds -> rfc_frac (46 :: ds).

(** [[ exp ]], with [exp = e [ minus / plus ] 1*DIGIT] *)
Inductive rfc_exp : pystr -> Prop :=
| exp_none : rfc_exp []
| exp_some (e : Z) (sign ds : pystr) :
    e = 101 \/ e = 69 ->
    sign = [] \/ sign = [45] \/ sign = [43] ->
    rfc_digits ds -> rfc_exp (e :: sign ++ ds).

(** [number = [ minus ] int [ frac ] [ exp ]] *)
Inductive rfc_number : pystr -> Prop :=
| number_intro (minus integer frac exp : pystr) :
    minus = [] \/ minus = [45] ->
    rfc_int integer -> rfc_frac frac -> rfc_exp exp ->
    rfc_number (minus ++ integer ++ frac ++ exp).

(** [value], and the inside of a non-empty array ([rfc_elements]) and of a
    non-empty object ([rfc_members]). The white space the grammar allows
    around the six structural characters is written with the elements and
    the members; the white space around a whole text is in
    [rfc_json_text]. *)
Inductive rfc_value : pystr -> Prop :=
| value_null : rfc_value (lit "null")
| value_true : rfc_value (lit "true")
| value_false : rfc_value (lit "false")
| value_number (s : pystr) : rfc_number s -> rfc_value s
| value_string (s : pystr) : rfc_chars s -> rfc_value (QUOTE :: s ++ [QUOTE])
| value_array_empty (w : pystr) : rfc_ws w -> rfc_value (91 :: w ++ [93])
| value_array (s : pystr) : rfc_elements s -> rfc_value (91 :: s ++ [93])
| value_object_empty (w : pystr) : rfc_ws w -> rfc_value (123 :: w ++ [125])
| value_object (s : pystr) : rfc_members s -> rfc_value (123 :: s ++ [125])
with rfc_elements : pystr -> Prop :=
| elements_one (w v w' : pystr) :
    rfc_ws w -> rfc_value v -> rfc_ws w' -> rfc_elements (w ++ v ++ w')
| elements_cons (w v w' s : pystr) :
    rfc_ws w -> rfc_value v -> rfc_ws w' -> rfc_elements s ->
    rfc_elements (w ++ v ++ w' ++ 44 :: s)
with rfc_members : pystr -> Prop :=
| members_one (w k w1 w2 v w3 : pystr) :
    rfc_ws w -> rfc_chars k -> rfc_ws w1 -> rfc_ws w2 -> rfc_value v ->
    rfc_ws w3 ->
    rfc_members (w ++ QUOTE :: k ++ QUOTE :: w1 ++ 58 :: w2 ++ v ++ w3)
| members_cons (w k w1 w2 v w3 s : pystr) :
    rfc_ws w -> rfc_chars k -> rfc_ws w1 -> rfc_ws w2 -> rfc_value v ->
    rfc_ws w3 -> rfc_members s ->
    rfc_members (w ++ QUOTE :: k ++ QUOTE :: w1 ++ 58 :: w2 ++ v ++ w3 ++ 44 :: s).

Scheme rfc_value_mut := Minimality for rfc_value Sort Prop
  with rfc_elements_mut := Minimality for rfc_elements Sort Prop
  with rfc_members_mut := Minimality for rfc_members Sort Prop.

Combined Scheme rfc_mutual_ind
  from rfc_value_mut, rfc_elements_mut, rfc_members_mut.

(** [JSON-text = ws value ws] *)
Definition rfc_json_text (t : pystr) : Prop :=
  exists w v w', rfc_ws w /\ rfc_value v /\ rfc_ws w' /\ t = w ++ v ++ w'.

(** A body that is valid UTF-8: [raw.decode("utf-8")] returns a string. *)
Definition valid_utf8 (raw : pybytes) : Prop :=
  exists text, utf8_decode false raw = Ok text.

(** A body that is valid JSON: valid UTF-8 that decodes to a JSON text. *)
Definition valid_json (raw : pybytes) : Prop :=
  exists text, utf8_decode false raw = Ok text /\ rfc_json_text text.

(** ** JSON within the limits of the interpreter

    The grammar again, for the texts that stay within the two limits of the
    interpreter: an integer (a number with neither fraction nor exponent)
    has at most [MAX_STR_DIGITS] digits, and arrays and objects nest at
    most [room] deep. *)

Inductive rfc_number_within : pystr -> Prop :=
| number_within_intro (minus integer frac exp : pystr) :
    minus = [] \/ minus = [45] ->
    rfc_int integer -> rfc_frac frac -> rfc_exp exp ->
    (frac ++ exp = [] -> (List.length integer <= MAX_STR_DIGITS)%nat) ->
    rfc_number_within (minus ++ integer ++ frac ++ exp).

Inductive rfc_value_within : nat -> pystr -> Prop :=
| within_null (room : nat) : rfc_value_within room (lit "null")
| within_true (room : nat) : rfc_value_within room (lit "true")
| within_false (room : nat) : rfc_value_within room (lit "false")
| within_number (room : nat) (s : pystr) :
    rfc_number_within s -> rfc_value_within room s
| within_string (room : nat) (s : pystr) :
    rfc_chars s -> rfc_value_within room (QUOTE :: s ++ [QUOTE])
| within_array_empty (room : nat) (w : pystr) :
    rfc_ws w -> rfc_value_within (S room) (91 :: w ++ [93])
| within_array (room : nat) (s : pystr) :
    rfc_elements_within room s -> rfc_value_within (S room) (91 :: s ++ [93])
| within_object_empty (room : nat) (w : pystr) :
    rfc_ws w -> rfc_value_within (S room) (123 :: w ++ [125])
| within_object (room : nat) (s : pystr) :
    rfc_members_within room s -> rfc_value_within (S room) (123 :: s ++ [125])
with rfc_elements_within : nat -> pystr -> Prop :=
| elements_within_one (room : nat) (w v w' : pystr) :
    rfc_ws w -> rfc_value_within room v -> rfc_ws w' ->
    rfc_elements_within room (w ++ v ++ w')
| elements_within_cons (room : nat) (w v w' s : pystr) :
    rfc_ws w -> rfc_value_within room v -> rfc_ws w' ->
    rfc_elements_within room s ->
    rfc_elements_within room (w ++ v ++ w' ++ 44 :: s)
with rfc_members_within : nat -> pystr -> Prop :=
| members_within_one (room : nat) (w k w1 w2 v w3 : pystr) :
    rfc_ws w -> rfc_chars k -> rfc_ws w1 -> rfc_ws w2 ->
    rfc_value_within room v -> rfc_ws w3 ->
    rfc_members_within room
      (w ++ QUOTE :: k ++ QUOTE :: w1 ++ 58 :: w2 ++ v ++ w3)
| members_within_cons (room : nat) (w k w1 w2 v w3 s : pystr) :
    rfc_ws w -> rfc_chars k -> rfc_ws w1 -> rfc_ws w2 ->
    rfc_value_within room v -> rfc_ws w3 -> rfc_members_within room s ->
    rfc_members_within room
      (w ++ QUOTE :: k ++ QUOTE :: w1 ++ 58 :: w2 ++ v ++ w3 ++ 44 :: s).

Scheme rfc_value_within_mut := Minimality for rfc_value_within Sort Prop
  with rfc_elements_within_mut := Minimality for rfc_elements_within Sort Prop
  with rfc_members_within_mut := Minimality for rfc_members_within Sort Prop.

Combined Scheme rfc_within_mutual_ind
  from rfc_value_within_mut, rfc_elements_within_mut, rfc_members_within_mut.

(** A JSON text within the limits. *)
Definition rfc_json_text_within (room : nat) (t : pystr) : Prop :=
  exists w v w',
    rfc_ws w /\ rfc_value_within room v /\ rfc_ws w' /\ t = w ++ v ++ w'.

(** A body that is valid JSON within the limits: valid UTF-8 that decodes
    to a JSON text within the limits. *)
Definition valid_json_within (room : nat) (raw : pybytes) : Prop :=
  exists text, utf8_decode false raw = Ok text /\ rfc_json_text_within room text.

(** With room for [room] nested containers or more, the scanner accepts
    the text [s], whatever follows it in a document. *)
Definition accepts {RT : PyRuntime} (room : nat) (s : pystr) : Prop :=
  forall (rest : pystr) (n : nat),
    value_follow rest = true ->
    (room <= n)%nat ->
    exists v, scan_once n (s ++ rest) = Ok (v, rest).

(** What the loop of [JSONArray] does on the elements of an array. *)
Definition elements_accepted {RT : PyRuntime} (room : nat) (s : pystr) : Prop :=
  forall rest,
    value_start (skip_whitespace (s ++ 93 :: rest)) = true
    /\ forall (n fuel : nat) (values : list pyval),
         (room <= n)%nat ->
         (List.length (s ++ 93%Z :: rest) < fuel)%nat ->
         exists v,
           JSONArray_loop (scan_once n) fuel (skip_whitespace (s ++ 93 :: rest)) values
           = Ok (v, rest).

(** What the loop of [JSONObject] does on the members of an object. *)
Definition members_accepted {RT : PyRuntime} (room : nat) (s : pystr) : Prop :=
  forall rest,
    exists x,
      skip_whitespace (s ++ 125 :: rest) = QUOTE :: x
      /\ forall (n fuel : nat) (pairs : list (pystr * pyval)),
           (room <= n)%nat ->
           (List.length (s ++ 125%Z :: rest) < fuel)%nat ->
           exists v, JSONObject_loop (scan_once n) fuel x pairs = Ok (v, rest).

(** No character of the text is NUL. *)
Definition nul_free (s : pystr) : Prop := Forall (fun c => c <> 0) s.

(** ** Sample requests and loggers *)

Definition bytes_of_codes (codes : list Z) : pybytes := map z2b codes.

Definition peer : Address := {| host := lit "203.0.113.7"; port := 51234 |}.

(** A JSON object, sent as [application/json]. *)
Definition request_json : Request :=
  {| client := Some peer;
     headers_items := [(lit "content-type", lit "application/json")];
     body := bytes_of_codes
               ([123; 34] ++ lit "event" ++ [34; 58; 34] ++ lit "call.completed"
                ++ [34; 44; 34] ++ lit "id" ++ [34; 58] ++ lit "42}") |}.

(** The same body with no header and no peer address. *)
Definition request_json_bare : Request :=
  {| client := None; headers_items := []; body := body request_json |}.

(** A text that is not JSON. *)
Definition request_text : Request :=
  {| client := Some peer; headers_items := [];
     body := bytes_of_codes (lit "hello world") |}.

(** Four bytes that are neither JSON nor UTF-8. *)
Definition request_binary : Request :=
  {| client := Some peer; headers_items := [];
     body := [xff; xfe; x00; x01] |}.

(** No body at all. *)
Definition request_empty : Request :=
  {| client := Some peer; headers_items := []; body := [] |}.

(** The three letters [NaN]: valid UTF-8, not a JSON text. *)
Definition request_nan : Request :=
  {| client := Some peer; headers_items := [];
     body := bytes_of_codes (lit "NaN") |}.

(** A quoted surrogate in three bytes: not valid UTF-8, so not JSON. *)
Definition request_surrogate : Request :=
  {| client := Some peer; headers_items := [];
     body := [x22; xed; xa0; x80; x22] |}.

(** An integer of 4301 digits: a JSON text, one digit above what [int]
    converts. *)
Definition request_long_integer : Request :=
  {| client := Some peer; headers_items := [];
     body := bytes_of_codes (repeat 49 4301) |}.

(** Arrays nested 995 deep: a JSON text, one array above the room of the
    small runtime. *)
Definition request_deep : Request :=
  {| client := Some peer; headers_items := [];
     body := bytes_of_codes (repeat 91 995 ++ repeat 93 995) |}.

(** The loggers of a process started with [LOG_LEVEL=INFO] (the default)
    and with [LOG_LEVEL=WARNING]. *)
Definition logger_at (level : Z) : @Logger small_runtime :=
  {| logger_name := APP_NAME; logger_level := level; root_level := WARNING;
     logger_emitted := [] |}.

Definition value_json : @pyval small_runtime :=
  PDict [(PStr (lit "event"), PStr (lit "call.completed"));
         (PStr (lit "id"), PInt 42)].

(** A dictionary with a bytes key, on which [json.dumps] raises. *)
Definition value_bytes_key : @pyval small_runtime :=
  PDict [(PBytes [x6b], PInt 1)].

(** ** The dictionary of the headers *)

(** [d.get(k)] for a string key. *)
Fixpoint dict_get {RT : PyRuntime} (d : list (pyval * pyval)) (k : pystr)
  : option pyval :=
  match d with
  | [] => None
  | (k', v) :: d' => if key_is k k' then Some v else dict_get d' k
  end.

(** The value of the last of the headers of a given name, if there is
    one. *)
Fixpoint last_header (name : pystr) (items : list (pystr * pystr)) : option pystr :=
  match items with
  | [] => None
  | (k, v) :: items' =>
      match last_header name items' with
      | Some v' => Some v'
      | None => if pystr_eqb k name then Some v else None
      end
  end.

(** ** Texts that fit on a line *)

(** The text holds no control character of the range U+0000 to U+001F; in
    particular it holds no line break. *)
Definition no_control (t : pystr) : Prop :=
  Forall (fun c => in_range 0 31 c = false) t.

(** The text is made of printable ASCII characters, U+0020 to U+007E. *)
Definition printable_ascii (t : pystr) : Prop :=
  Forall (fun c => 32 <= c <= 126) t.

(** ** The module: its environment and the logger it sets up *)

(** [os.environ.get(key)]; the environment is the list of its variables. *)
Fixpoint environ_get (environ : list (pystr * pystr)) (key : pystr) : option pystr :=
  match environ with
  | [] => None
  | (k, v) :: environ' => if pystr_eqb k key then Some v else environ_get environ' key
  end.

(** [os.getenv(key, default)] *)
Definition os_getenv (environ : list (pystr * pystr)) (key default : pystr) : pystr :=
  match environ_get environ key with
  | Some v => v
  | None => default
  end.

(** [str.upper]: each character is mapped on its own. [toupper_full] is
    the full upper-case mapping of the Unicode database on a character
    above U+007F, which may give several characters. *)
Definition str_upper (toupper_full : Z -> pystr) (s : pystr) : pystr :=
  flat_map (fun c => if c <? 128
                     then [if in_range 97 122 c then c - 32 else c]
                     else toupper_full c) s.

(** [LOG_LEVEL = os.getenv("LOG_LEVEL", "INFO").upper()] *)
Definition LOG_LEVEL (toupper_full : Z -> pystr) (environ : list (pystr * pystr))
  : pystr :=
  str_upper toupper_full (os_getenv environ (lit "LOG_LEVEL") (lit "INFO")).

(** The logger the module sets up when it is imported in a fresh
    interpreter with the given environment. *)
Definition module_setup {RT : PyRuntime} (toupper_full : Z -> pystr)
  (environ : list (pystr * pystr)) : result Logger :=
  module_logger (LOG_LEVEL toupper_full environ).

(** ** The formatter of the handler the module installs *)

Definition LOG_FORMAT : pystr :=
  lit "%(asctime)s %(levelname)s %(name)s %(message)s".

Definition LOG_DATEFMT : pystr := lit "%Y-%m-%dT%H:%M:%S%z".

(** [logging.getLevelName(level)] for a number. *)
Definition getLevelName (level : Z) : pystr :=
  if level =? CRITICAL then lit "CRITICAL"
  else if level =? ERROR then lit "ERROR"
  else if level =? WARNING then lit "WARNING"
  else if level =? INFO then lit "INFO"
  else if level =? DEBUG then lit "DEBUG"
  else if level =? NOTSET then lit "NOTSET"
  else lit "Level " ++ int_repr level.

(** [haystack.find(needle) >= 0] *)
Fixpoint str_contains (needle haystack : pystr) : bool :=
  startswith needle haystack
  || match haystack with
     | [] => false
     | _ :: rest => str_contains needle rest
     end.

(** The attributes of a [LogRecord] whose values the record of this model
    does not carry: the arguments, the place of the call, the time, the
    thread and the process. *)
Definition LogRecord_other_attributes : list pystr :=
  [lit "args"; lit "pathname"; lit "filename"; lit "module"; lit "exc_info";
   lit "exc_text"; lit "stack_info"; lit "lineno"; lit "funcName";
   lit "created"; lit "msecs"; lit "relativeCreated"; lit "thread";
   lit "threadName"; lit "processName"; lit "process"].

(** [record.__dict__]: the attributes [LogRecord.__init__] sets, then the
    keys of [extra]. The value [None] stands for a value outside the
    model. *)
Definition LogRecord_dict {RT : PyRuntime} (record : LogRecord)
  : list (pystr * option pyval) :=
  [ (lit "name", Some (PStr (record_name record)));
    (lit "msg", Some (PStr (record_msg record)));
    (lit "levelname", Some (PStr (getLevelName (record_levelno record))));
    (lit "levelno", Some (PInt (record_levelno record))) ]
  ++ map (fun k => (k, None)) LogRecord_other_attributes
  ++ map (fun '(k, v) => (k, Some v)) (record_extra record).

(** [values.get(key)] *)
Fixpoint dict_lookup {A} (values : list (pystr * A)) (key : pystr) : option A :=
  match values with
  | [] => None
  | (k, v) :: values' => if pystr_eqb k key then Some v else dict_lookup values' key
  end.

(** The outcome of [fmt % values]. [FormatError] is a [ValueError]: an
    incomplete directive, or a key that is not in the dictionary (the
    [KeyError] that [PercentStyle.format] turns into a [ValueError]).
    [FormatOther] is a directive this model does not interpret (one with no
    key, with flags, a width or a precision, or with a conversion other
    than [s]) or a value it does not carry. *)
Inductive formatted :=
| Formatted (text : pystr)
| FormatError
| FormatOther.

Definition formatted_cons (prefix : pystr) (rest : formatted) : formatted :=
  match rest with
  | Formatted text => Formatted (prefix ++ text)
  | other => other
  end.

(** Where the interpreter of a format is: in plain text, after a percent
    sign, in the key of a directive (with [depth] more parentheses open,
    and the characters of the key read so far, last first), or after the
    key. *)
Inductive format_state :=
| FText
| FPercent
| FKey (depth : nat) (key : pystr)
| FConversion (key : pystr).

(** [fmt % values] for a dictionary [values], one character at a time. *)
Fixpoint percent_format {RT : PyRuntime} (st : format_state) (fmt : pystr)
  (values : list (pystr * option pyval)) : formatted :=
  match fmt with
  | [] =>
      match st with
      | FText => Formatted []
      | _ => FormatError
      end
  | c :: fmt' =>
      match st with
      | FText =>
          if c =? 37 then percent_format FPercent fmt' values
          else formatted_cons [c] (percent_format FText fmt' values)
      | FPercent =>
          if c =? 40 then percent_format (FKey 0 []) fmt' values
          else if c =? 37 then formatted_cons [37] (percent_format FText fmt' values)
          else FormatOther
      | FKey depth key =>
          if c =? 41 then
            match depth with
            | O => percent_format (FConversion (rev key)) fmt' values
            | S depth' => percent_format (FKey depth' (c :: key)) fmt' values
            end
          else if c =? 40 then percent_format (FKey (S depth) (c :: key)) fmt' values
          else percent_format (FKey depth (c :: key)) fmt' values
      | FConversion key =>
          match dict_lookup values key with
          | None => FormatError
          | Some None => FormatOther
          | Some (Some value) =>
              if c =? 115
              then formatted_cons (py_str value) (percent_format FText fmt' values)
              else FormatOther
          end
      end
  end.

(** [Formatter(fmt, datefmt).format(record)] for a record with no
    arguments and no exception. [formatTime record datefmt] is the text of
    the time the record was created. The attributes [message] and
    [asctime], which the formatter sets, come first in the dictionary. *)
Definition Formatter_format {RT : PyRuntime}
  (formatTime : LogRecord -> pystr -> pystr) (fmt datefmt : pystr)
  (record : LogRecord) : formatted :=
  let message := record_msg record in
  let asctime :=
    if str_contains (lit "%(asctime)") fmt
    then [(lit "asctime", Some (PStr (formatTime record datefmt)))]
    else [] in
  percent_format FText fmt
    ((lit "message", Some (PStr message)) :: asctime ++ LogRecord_dict record).

(** ** The handlers of the logger *)

(** A handler of a logger: its level, and the format and the date format
    of its formatter. *)
Record Handler := {
  handler_level : Z;
  handler_fmt : pystr;
  handler_datefmt : pystr
}.

(** What the logging setup of the module reads and writes of its logger:
    the level and the list of the handlers. *)
Record LoggerConfig := {
  config_level : Z;
  config_handlers : list Handler
}.

(** The logger [logging.getLogger(APP_NAME)] creates the first time it is
    called: its level is [NOTSET] and it has no handler. *)
Definition new_logger : LoggerConfig :=
  {| config_level := NOTSET; config_handlers := [] |}.

(** The logging setup of the module, on the logger [getLogger] returns:
    [setLevel(LOG_LEVEL)], then, if the logger has no handler, a
    [StreamHandler] (of level [NOTSET]) with the formatter of the module is
    added to it. *)
Definition logging_setup (toupper_full : Z -> pystr)
  (environ : list (pystr * pystr)) (logger : LoggerConfig) : result LoggerConfig :=
  match nameToLevel (LOG_LEVEL toupper_full environ) with
  | None => Raise ValueError
  | Some level =>
      Ok {| config_level := level;
            config_handlers :=
              match config_handlers logger with
              | [] =>
                  [ {| handler_level := NOTSET; handler_fmt := LOG_FORMAT;
                       handler_datefmt := LOG_DATEFMT |} ]
              | handlers => handlers
              end |}
  end.

(** The lines the handlers of the logger write for a record that passed
    the level of the logger: one for each handler whose level lets the
    record through. *)
Definition Logger_lines {RT : PyRuntime}
  (formatTime : LogRecord -> pystr -> pystr) (logger : LoggerConfig)
  (record : LogRecord) : list formatted :=
  map (fun h => Formatter_format formatTime (handler_fmt h) (handler_datefmt h) record)
    (filter (fun h => handler_level h <=? record_levelno record)
       (config_handlers logger)).

(** ** More sample requests, environments and a clock *)

(** Two headers of the same name, around another one. *)
Definition request_repeated_header : Request :=
  {| client := Some peer;
     headers_items := [(lit "x-tag", lit "first"); (lit "accept", lit "*/*");
                       (lit "x-tag", lit "second")];
     body := bytes_of_codes (lit "hello world") |}.

(** The sample JSON object after a UTF-8 byte order mark. *)
Definition request_json_bom : Request :=
  {| client := Some peer; headers_items := [];
     body := [xef; xbb; xbf] ++ body request_json |}.

(** A space, a tab and a line feed. *)
Definition request_blank : Request :=
  {| client := Some peer; headers_items := []; body := [x20; x09; x0a] |}.

(** An environment that does not set [LOG_LEVEL]. *)
Definition environ_plain : list (pystr * pystr) := [(lit "PORT", lit "8000")].

(** A twenty-digit integer. *)
Definition request_integer : Request :=
  {| client := Some peer; headers_items := [];
     body := bytes_of_codes (lit "18446744073709551617") |}.

(** An environment that sets [LOG_LEVEL] in lower case. *)
Definition environ_debug : list (pystr * pystr) := [(lit "LOG_LEVEL", lit "debug")].

(** An upper-case mapping that keeps the characters above U+007F, and a
    clock that is stopped. *)
Definition keep_case (c : Z) : pystr := [c].

Definition stopped_clock (record : @LogRecord small_runtime) (datefmt : pystr)
  : pystr :=
  lit "2024-05-01T12:00:00+0000".

(** * Properties of the handler *)

Unset Implicit Arguments.

Section Handler.
Context {RT : PyRuntime}.

Lemma render_ACK : render ACK = Ok ACK_BYTES.
Proof. reflexivity. Qed.

Lemma json_loads_ACK_BYTES : json_loads ACK_BYTES = Ok ACK.
Proof.
  unfold json_loads, decode.
  pose proof recursion_room_positive as Hroom.
  destruct recursion_room as [|[|room]]; [lia| |]; reflexivity.
Qed.

(** The handler runs the three stages, logs, and answers: its result
    written out. *)
Lemma receive_webhook_unfold (request : Request) (lg : Logger) :
  receive_webhook request lg =
  match decode_body request lg with
  | (Ok (body, body_type), lg1) =>
      match serialize_body body lg1 with
      | (Ok serialized_body, lg2) =>
          match Logger_info (lit "Received webhook event")
                  [ (lit "source", PStr (lit "bettervoice"));
                    (lit "client_ip",
                     match client request with
                     | Some address => PStr (host address)
                     | None => PNone
                     end);
                    (lit "headers",
                     PDict (dict_of_pairs
                              (map (fun '(k, v) => (k, PStr v)) (headers_items request))));
                    (lit "body_type", PStr body_type);
                    (lit "body", PStr serialized_body) ] lg2 with
          | (Ok _, lg3) => JSONResponse ACK lg3
          | (Raise e, lg3) => (Raise e, lg3)
          end
      | (Raise e, lg2) => (Raise e, lg2)
      end
  | (Raise e, lg1) => (Raise e, lg1)
  end.
Proof.
  unfold receive_webhook, mbind.
  destruct (decode_body request lg) as [[[b t]|e] lg1]; reflexivity.
Qed.

(** The decode ladder, stage by stage. *)
Lemma decode_body_unfold (request : Request) (lg : Logger) :
  decode_body request lg =
  match json_loads (body request) with
  | Ok value => (Ok (value, lit "json"), lg)
  | Raise _ =>
      match utf8_decode false (body request) with
      | Ok text => (Ok (PStr text, lit "text"), lg)
      | Raise _ => (Ok (PBytes (body request), lit "bytes"), lg)
      end
  end.
Proof.
  unfold decode_body, Request_json, Request_body, mtry, mbind, lift, ret.
  destruct (json_loads (body request)); [reflexivity|].
  destruct (utf8_decode false (body request)); reflexivity.
Qed.

Lemma serialize_body_unfold (body : pyval) (lg : Logger) :
  serialize_body body lg =
  match json_dumps body with
  | Ok text => (Ok text, lg)
  | Raise _ => (Ok (py_str body), lg)
  end.
Proof.
  unfold serialize_body, mtry, lift, ret.
  destruct (json_dumps body); reflexivity.
Qed.

Lemma JSONResponse_ACK (lg : Logger) :
  JSONResponse ACK lg =
  (Ok ACK_RESPONSE, lg).
Proof. reflexivity. Qed.

(** The decode ladder never raises and leaves the logger alone. *)
Lemma decode_body_total (request : Request) (lg : Logger) :
  exists body body_type, decode_body request lg = (Ok (body, body_type), lg).
Proof.
  rewrite decode_body_unfold.
  destruct (json_loads (body request)); [eauto|].
  destruct (utf8_decode false (body request)); eauto.
Qed.

Lemma serialize_body_total (body : pyval) (lg : Logger) :
  exists text, serialize_body body lg = (Ok text, lg).
Proof.
  rewrite serialize_body_unfold. destruct (json_dumps body); eauto.
Qed.

(** C1. Whatever the request (its body, its headers, its peer) and the
    state of the logger, the handler raises nothing and answers with status
    200 and the body [{"received":true,"status":"ok"}], which is the JSON
    text of the object with [received] true and [status] "ok". *)
Theorem receive_webhook_always_ok (request : Request) (lg : Logger) :
  exists response lg',
    receive_webhook request lg = (Ok response, lg')
    /\ status_code response = 200
    /\ response_body response = ACK_BYTES
    /\ json_loads (response_body response) = Ok ACK.
Proof.
  rewrite receive_webhook_unfold.
  destruct (decode_body_total request lg) as (b & t & ->).
  destruct (serialize_body_total b lg) as (text & ->).
  unfold Logger_info.
  destruct (isEnabledFor lg INFO); rewrite JSONResponse_ACK;
    (do 2 eexists; split; [reflexivity|]; cbn [status_code response_body];
     repeat split; apply json_loads_ACK_BYTES).
Qed.

(** What a run of the handler returns and writes, in one equation. *)
Lemma receive_webhook_spec (request : Request) (lg : Logger) :
  exists body body_type serialized_body lg',
    decode_body request lg = (Ok (body, body_type), lg)
    /\ serialize_body body lg = (Ok serialized_body, lg)
    /\ receive_webhook request lg = (Ok ACK_RESPONSE, lg')
    /\ logger_emitted lg' =
       logger_emitted lg ++
         (if isEnabledFor lg INFO
          then [webhook_record lg request body_type serialized_body]
          else []).
Proof.
  destruct (decode_body_total request lg) as (b & t & Hd).
  destruct (serialize_body_total b lg) as (text & Hs).
  exists b, t, text.
  rewrite receive_webhook_unfold, Hd, Hs. unfold Logger_info.
  destruct (isEnabledFor lg INFO); rewrite JSONResponse_ACK.
  - eexists; repeat split; reflexivity.
  - exists lg; repeat split. now rewrite app_nil_r.
Qed.

Lemma new_records_app (lg lg' : Logger) (l : list LogRecord) :
  logger_emitted lg' = logger_emitted lg ++ l -> new_records lg lg' = l.
Proof.
  intros H. unfold new_records. rewrite H.
  rewrite skipn_app, skipn_all, Nat.sub_diag. reflexivity.
Qed.

Lemma decode_body_tag (request : Request) (lg lg' : Logger) body body_type :
  decode_body request lg = (Ok (body, body_type), lg') ->
  body_type = lit "json" \/ body_type = lit "text" \/ body_type = lit "bytes".
Proof.
  rewrite decode_body_unfold.
  destruct (json_loads _); [|destruct (utf8_decode _ _)];
    intros [= <- <- <-]; auto.
Qed.

(** C5 (amended). On every request the handler completes; the ladder
    selects one tag, which is "json", "text" or "bytes"; the handler writes
    one record when the logger is enabled for [INFO] and none when it is
    not, and the [body_type] of the record it writes is the tag selected. *)
Theorem one_record_when_enabled (request : Request) (lg : Logger) :
  exists response lg' body body_type record,
    receive_webhook request lg = (Ok response, lg')
    /\ decode_body request lg = (Ok (body, body_type), lg)
    /\ (body_type = lit "json" \/ body_type = lit "text" \/ body_type = lit "bytes")
    /\ logger_emitted lg' =
       logger_emitted lg ++ (if isEnabledFor lg INFO then [record] else [])
    /\ extra_get (lit "body_type") (record_extra record) = Some (PStr body_type).
Proof.
  destruct (receive_webhook_spec request lg) as (b & t & text & lg' & Hd & _ & Hr & He).
  exists ACK_RESPONSE, lg', b, t, (webhook_record lg request t text).
  repeat split; auto. eapply decode_body_tag; eauto.
Qed.

(** C7. A request with no peer address is handled like any other: nothing
    is raised, the answer is the acknowledgement with status 200, and the
    [client_ip] of the record written is [None]. *)
Theorem absent_client_is_none (request : Request) (lg : Logger) :
  client request = None ->
  exists response lg',
    receive_webhook request lg = (Ok response, lg')
    /\ status_code response = 200
    /\ response_body response = ACK_BYTES
    /\ (isEnabledFor lg INFO = true -> List.length (new_records lg lg') = 1%nat)
    /\ forall record, In record (new_records lg lg') ->
         extra_get (lit "client_ip") (record_extra record) = Some PNone.
Proof.
  intros Hc.
  destruct (receive_webhook_spec request lg) as (b & t & text & lg' & Hd & Hs & Hr & He).
  exists ACK_RESPONSE, lg'. rewrite (new_records_app _ _ _ He).
  repeat split; auto.
  - intros ->. reflexivity.
  - destruct (isEnabledFor lg INFO); [|intros ? []].
    intros record [<-|[]]. cbn. rewrite Hc. reflexivity.
Qed.


End Handler.

(** * Tokens: what the scanner reads back from what the encoder writes *)

Lemma pystr_eqb_eq (a b : pystr) : pystr_eqb a b = true <-> a = b.
Proof.
  revert b; induction a as [|x a IH]; intros [|y b]; cbn; split;
    try congruence; try discriminate.
  - intros [Hx Hab]%andb_true_iff. apply Z.eqb_eq in Hx. apply IH in Hab. congruence.
  - intros [= -> ->]. rewrite Z.eqb_refl. cbn. now apply IH.
Qed.

Lemma pystr_eqb_refl (a : pystr) : pystr_eqb a a = true.
Proof. now apply pystr_eqb_eq. Qed.

Lemma pystr_eqb_sym (a b : pystr) : pystr_eqb a b = pystr_eqb b a.
Proof.
  destruct (pystr_eqb a b) eqn:E.
  - apply pystr_eqb_eq in E as ->. now rewrite pystr_eqb_refl.
  - destruct (pystr_eqb b a) eqn:E'; [|reflexivity].
    apply pystr_eqb_eq in E' as ->. now rewrite pystr_eqb_refl in E.
Qed.

(** ** Integers *)

Lemma uint_of_chars_of_uint (d : Decimal.uint) : uint_of_chars (chars_of_uint d) = d.
Proof. induction d; cbn; [reflexivity|..]; now rewrite IHd. Qed.

Lemma take_digits_chars_of_uint (d : Decimal.uint) :
  take_digits (chars_of_uint d) = (chars_of_uint d, []).
Proof. induction d; cbn; [reflexivity|..]; now rewrite IHd. Qed.

(** The decimal digits of a positive number start with a digit other
    than zero. *)
Lemma to_uint_head (p : positive) :
  exists c digits,
    chars_of_uint (Pos.to_uint p) = c :: chars_of_uint digits
    /\ in_range 49 57 c = true.
Proof.
  assert (Hn : Decimal.unorm (Pos.to_uint p) = Pos.to_uint p).
  { pose proof (DecimalPos.Unsigned.to_of (Pos.to_uint p)) as H.
    rewrite DecimalPos.Unsigned.of_to in H. symmetry. exact H. }
  pose proof (DecimalPos.Unsigned.to_uint_nonzero p) as Hz.
  assert (Hh : Decimal.nzhead (Pos.to_uint p) = Pos.to_uint p).
  { rewrite <- Hn at 2. symmetry. apply DecimalFacts.unorm_nzhead.
    intros Hnil. apply Hz. rewrite <- Hn. now apply DecimalFacts.unorm_0. }
  pose proof (DecimalFacts.nzhead_nonzero (Pos.to_uint p)) as Hd0.
  rewrite Hh in Hd0.
  pose proof (DecimalPos.Unsigned.to_uint_nonnil p) as Hnil.
  destruct (Pos.to_uint p) as [|d|d|d|d|d|d|d|d|d|d];
    [congruence|exfalso; now apply (Hd0 d)|..];
    eexists _, d; (split; [reflexivity|reflexivity]).
Qed.

Lemma int_value_int_repr (z : Z) : int_value (int_repr z) = z.
Proof.
  unfold int_repr.
  destruct z as [|p|p]; [reflexivity| |].
  - cbn [Z.to_int]. destruct (to_uint_head p) as (c & ds & E & Hc).
    unfold int_value. rewrite E.
    assert (c <> 45) by (unfold in_range in Hc; lia).
    replace (match c :: chars_of_uint ds with
             | 45 :: digits => Z.of_int (Decimal.Neg (uint_of_chars digits))
             | _ => Z.of_int (Decimal.Pos (uint_of_chars (c :: chars_of_uint ds)))
             end)
      with (Z.of_int (Decimal.Pos (uint_of_chars (c :: chars_of_uint ds)))).
    + rewrite <- E, uint_of_chars_of_uint.
      change (Decimal.Pos (Pos.to_uint p)) with (Z.to_int (Z.pos p)).
      apply DecimalZ.of_to.
    + destruct c as [|q|q]; try reflexivity.
      do 6 (destruct q as [q|q|]; try reflexivity). congruence.
  - cbn [Z.to_int]. unfold int_value. rewrite uint_of_chars_of_uint.
    change (Decimal.Neg (Pos.to_uint p)) with (Z.to_int (Z.neg p)).
    apply DecimalZ.of_to.
Qed.

Lemma int_digits_int_repr (z : Z) :
  int_digits (int_repr z) = List.length (int_repr (Z.abs z)).
Proof.
  unfold int_repr.
  destruct z as [|p|p]; [reflexivity| |]; cbn [Z.abs Z.to_int].
  - destruct (to_uint_head p) as (c & ds & E & Hc). rewrite E.
    unfold int_digits.
    destruct c as [|q|q]; try reflexivity.
    do 6 (destruct q as [q|q|]; try reflexivity). discriminate Hc.
  - reflexivity.
Qed.

(** [int] reads back what [repr] wrote, up to the limit on the digits. *)
Lemma py_int_int_repr (z : Z) :
  (List.length (int_repr (Z.abs z)) <= MAX_STR_DIGITS)%nat ->
  py_int (int_repr z) = Ok z.
Proof.
  intros H. unfold py_int. rewrite int_digits_int_repr, int_value_int_repr.
  destruct (Nat.ltb_spec MAX_STR_DIGITS (List.length (int_repr (Z.abs z))));
    [lia|reflexivity].
Qed.

Lemma length_chars_of_uint (d : Decimal.uint) :
  List.length (chars_of_uint d) = Decimal.nb_digits d.
Proof. induction d; cbn; [reflexivity|..]; now rewrite IHd. Qed.

Lemma nb_digits_uint_of_chars (s : pystr) :
  Decimal.nb_digits (uint_of_chars s) = List.length s.
Proof.
  induction s as [|c s IH]; [reflexivity|].
  cbn [uint_of_chars List.length]. unfold digit_cons.
  repeat match goal with
         | |- context [if ?b then _ else _] => destruct b
         end; cbn [Decimal.nb_digits]; now rewrite IH.
Qed.

(** The text starts with a minus sign, or it does not. *)
Lemma int_text_cases (text : pystr) :
  (exists digits,
      int_value text = Z.of_int (Decimal.Neg (uint_of_chars digits))
      /\ int_digits text = List.length digits)
  \/ (int_value text = Z.of_int (Decimal.Pos (uint_of_chars text))
      /\ int_digits text = List.length text).
Proof.
  destruct text as [|c s]; [right; split; reflexivity|].
  destruct c as [|q|q]; try (right; split; reflexivity).
  do 6 (destruct q as [q|q|]; try (right; split; reflexivity)).
  left. eexists. split; reflexivity.
Qed.

Lemma int_repr_of_uint_length (d : Decimal.uint) :
  (List.length (int_repr (Z.of_int (Decimal.Pos d)))
   <= Nat.max 1 (Decimal.nb_digits d))%nat.
Proof.
  unfold int_repr. rewrite DecimalZ.to_of. cbn [Decimal.norm].
  rewrite length_chars_of_uint.
  destruct (Decimal.uint_eq_dec d Decimal.Nil) as [->|Hd]; [cbn; lia|].
  pose proof (DecimalFacts.nb_digits_unorm d Hd). lia.
Qed.

(** [repr] writes an integer with no more digits than the text [int] read
    it from. *)
Lemma int_value_digits (text : pystr) :
  (List.length (int_repr (Z.abs (int_value text)))
   <= Nat.max 1 (int_digits text))%nat.
Proof.
  destruct (int_text_cases text) as [(digits & -> & ->)|[-> ->]].
  - replace (Z.abs (Z.of_int (Decimal.Neg (uint_of_chars digits))))
      with (Z.of_int (Decimal.Pos (uint_of_chars digits))).
    + rewrite <- (nb_digits_uint_of_chars digits). apply int_repr_of_uint_length.
    + cbn [Z.of_int]. unfold Z.of_uint.
      now destruct (Pos.of_uint (uint_of_chars digits)).
  - replace (Z.abs (Z.of_int (Decimal.Pos (uint_of_chars text))))
      with (Z.of_int (Decimal.Pos (uint_of_chars text))).
    + rewrite <- (nb_digits_uint_of_chars text). apply int_repr_of_uint_length.
    + cbn [Z.of_int]. unfold Z.of_uint.
      now destruct (Pos.of_uint (uint_of_chars text)).
Qed.

Lemma MAX_STR_DIGITS_positive : (1 <= MAX_STR_DIGITS)%nat.
Proof. exact (Nat.lt_0_succ 4299). Qed.

(** An integer [int] returns has at most [MAX_STR_DIGITS] digits. *)
Lemma py_int_digits (text : pystr) (z : Z) :
  py_int text = Ok z ->
  (List.length (int_repr (Z.abs z)) <= MAX_STR_DIGITS)%nat.
Proof.
  unfold py_int.
  destruct (Nat.ltb_spec MAX_STR_DIGITS (int_digits text)) as [|Hd]; [discriminate|].
  intros [= <-]. pose proof (int_value_digits text).
  pose proof MAX_STR_DIGITS_positive. lia.
Qed.

Lemma match_integer_int_repr (z : Z) :
  match_integer (int_repr z) = Some (int_repr z, []).
Proof.
  unfold int_repr.
  destruct z as [|p|p]; [reflexivity| |]; cbn [Z.to_int];
    destruct (to_uint_head p) as (c & ds & E & Hc); rewrite E;
    unfold match_integer.
  - assert ((c =? 45) = false) as -> by (unfold in_range in Hc; lia).
    assert ((c =? 48) = false) as -> by (unfold in_range in Hc; lia).
    rewrite Hc, take_digits_chars_of_uint. reflexivity.
  - rewrite Z.eqb_refl.
    assert ((c =? 48) = false) as -> by (unfold in_range in Hc; lia).
    rewrite Hc, take_digits_chars_of_uint. reflexivity.
Qed.

Lemma match_number_int_repr (z : Z) :
  match_number (int_repr z) = Some ((int_repr z, [], []), []).
Proof. unfold match_number. now rewrite match_integer_int_repr. Qed.

(** ** A number followed by more text *)

Lemma value_follow_head (c : Z) (rest : pystr) :
  value_follow (c :: rest) = true ->
  ~ 48 <= c <= 57 /\ c <> 46 /\ c <> 101 /\ c <> 69 /\ c <> 43 /\ c <> 45.
Proof. cbn. unfold is_digit. lia. Qed.

Lemma value_follow_digit_free (rest : pystr) :
  value_follow rest = true -> digit_free_head rest = true.
Proof.
  destruct rest as [|c rest]; [reflexivity|]. cbn. unfold is_digit. lia.
Qed.

Lemma take_digits_app (l rest d r : pystr) :
  digit_free_head rest = true ->
  take_digits l = (d, r) ->
  take_digits (l ++ rest) = (d, r ++ rest).
Proof.
  intros Hf. revert d r. induction l as [|c l IH]; intros d r; cbn.
  - intros [= <- <-]. destruct rest as [|c rest]; [reflexivity|].
    cbn in Hf. apply negb_true_iff in Hf. cbn. now rewrite Hf.
  - destruct (is_digit c).
    + destruct (take_digits l) as [d' r'] eqn:E. intros [= <- <-].
      now rewrite (IH _ _ eq_refl).
    + intros [= <- <-]. reflexivity.
Qed.

Lemma match_integer_app (l rest integer r : pystr) :
  digit_free_head rest = true ->
  match_integer l = Some (integer, r) ->
  match_integer (l ++ rest) = Some (integer, r ++ rest).
Proof.
  intros Hf. unfold match_integer.
  assert (Hcore : forall sign l1,
    match l1 with
    | c :: s2 =>
        if c =? 48 then Some (sign ++ [48], s2)
        else if in_range 49 57 c then
          let '(d, r) := take_digits s2 in Some (sign ++ c :: d, r)
        else None
    | [] => None
    end = Some (integer, r) ->
    match l1 ++ rest with
    | c :: s2 =>
        if c =? 48 then Some (sign ++ [48], s2)
        else if in_range 49 57 c then
          let '(d, r) := take_digits s2 in Some (sign ++ c :: d, r)
        else None
    | [] => None
    end = Some (integer, r ++ rest)).
  { intros sign [|c s2]; [discriminate|]. cbn.
    destruct (c =? 48); [now intros [= <- <-]|].
    destruct (in_range 49 57 c); [|discriminate].
    destruct (take_digits s2) as [d r'] eqn:E. intros [= <- <-].
    now rewrite (take_digits_app _ _ _ _ Hf E). }
  destruct l as [|c l]; [discriminate|]. cbn [app].
  destruct (c =? 45); [exact (Hcore [45] l)|exact (Hcore [] (c :: l))].
Qed.

Lemma match_frac_app (l rest frac r : pystr) :
  value_follow rest = true ->
  match_frac l = (frac, r) ->
  match_frac (l ++ rest) = (frac, r ++ rest).
Proof.
  intros Hf. unfold match_frac. destruct l as [|c l]; cbn [app].
  - intros [= <- <-]. destruct rest as [|c rest]; [reflexivity|].
    apply value_follow_head in Hf.
    assert ((c =? 46) = false) as -> by lia. reflexivity.
  - destruct (c =? 46); [|now intros [= <- <-]].
    destruct (take_digits l) as [d r'] eqn:E.
    rewrite (take_digits_app _ _ _ _ (value_follow_digit_free _ Hf) E).
    destruct d; now intros [= <- <-].
Qed.

Lemma match_exp_app (l rest exp r : pystr) :
  value_follow rest = true ->
  match_exp l = (exp, r) ->
  match_exp (l ++ rest) = (exp, r ++ rest).
Proof.
  intros Hf. unfold match_exp. destruct l as [|c l]; cbn [app].
  - intros [= <- <-]. destruct rest as [|c rest]; [reflexivity|].
    apply value_follow_head in Hf.
    assert ((c =? 101) || (c =? 69) = false) as -> by lia. reflexivity.
  - destruct ((c =? 101) || (c =? 69)); [|now intros [= <- <-]].
    destruct l as [|c1 l]; cbn [app].
    + cbn. intros [= <- <-]. destruct rest as [|c' rest]; [reflexivity|].
      apply value_follow_head in Hf.
      assert ((c' =? 45) || (c' =? 43) = false) as -> by lia.
      cbn. assert (is_digit c' = false) as -> by (unfold is_digit; lia).
      reflexivity.
    + destruct ((c1 =? 45) || (c1 =? 43)).
      * destruct (take_digits l) as [d r'] eqn:E.
        rewrite (take_digits_app _ _ _ _ (value_follow_digit_free _ Hf) E).
        destruct d; now intros [= <- <-].
      * destruct (take_digits (c1 :: l)) as [d r'] eqn:E.
        change (c1 :: l ++ rest) with ((c1 :: l) ++ rest).
        rewrite (take_digits_app _ _ _ _ (value_follow_digit_free _ Hf) E).
        destruct d; now intros [= <- <-].
Qed.

Lemma match_number_app (l rest : pystr) groups (r : pystr) :
  value_follow rest = true ->
  match_number l = Some (groups, r) ->
  match_number (l ++ rest) = Some (groups, r ++ rest).
Proof.
  intros Hf. unfold match_number.
  destruct (match_integer l) as [[integer s1]|] eqn:Ei; [|discriminate].
  rewrite (match_integer_app _ _ _ _ (value_follow_digit_free _ Hf) Ei).
  destruct (match_frac s1) as [frac s2] eqn:Ef.
  rewrite (match_frac_app _ _ _ _ Hf Ef).
  destruct (match_exp s2) as [exp s3] eqn:Ee.
  rewrite (match_exp_app _ _ _ _ Hf Ee).
  now intros [= <- <-].
Qed.

(** A text a number matches starts with a minus sign or a digit. *)
Lemma match_number_head (s : pystr) groups (r : pystr) :
  match_number s = Some (groups, r) ->
  exists c s', s = c :: s' /\ (c = 45 \/ 48 <= c <= 57).
Proof.
  unfold match_number, match_integer.
  destruct s as [|c s']; [discriminate|]. intros H. exists c, s'. split; [reflexivity|].
  destruct (Z.eqb_spec c 45); [now left|]. right.
  destruct (Z.eqb_spec c 48); [lia|].
  unfold in_range in H. destruct ((49 <=? c) && (c <=? 57)) eqn:E; [lia|discriminate].
Qed.

(** ** Strings *)

Lemma scan_unicode_escape_control (c : Z) (rest : pystr) :
  in_range 0 31 c = true ->
  scan_unicode_escape (hex_fixed 4 c ++ rest) = Ok (c, rest).
Proof.
  intros Hc. unfold in_range in Hc.
  assert (Hn : exists n, (n < 32)%nat /\ c = Z.of_nat n).
  { exists (Z.to_nat c). split; lia. }
  destruct Hn as (n & Hn & ->).
  do 32 (destruct n as [|n]; [reflexivity|]). lia.
Qed.

Lemma escape_char_length (c : Z) : (1 <= List.length (escape_char c))%nat.
Proof.
  unfold escape_char.
  repeat match goal with
         | |- context [if ?b then _ else _] => destruct b
         end; cbn; lia.
Qed.

(** One round of the scanning loop reads back one escaped character. *)
Lemma scanstring_loop_escape_char (c : Z) (fuel : nat) (s chunks : pystr) :
  scanstring_loop (S fuel) (escape_char c ++ s) chunks
  = scanstring_loop fuel s (c :: chunks).
Proof.
  unfold escape_char.
  destruct (Z.eqb_spec c 92) as [->|H92]; [reflexivity|].
  destruct (Z.eqb_spec c 34) as [->|H34]; [reflexivity|].
  destruct (Z.eqb_spec c 8) as [->|H8]; [reflexivity|].
  destruct (Z.eqb_spec c 12) as [->|H12]; [reflexivity|].
  destruct (Z.eqb_spec c 10) as [->|H10]; [reflexivity|].
  destruct (Z.eqb_spec c 13) as [->|H13]; [reflexivity|].
  destruct (Z.eqb_spec c 9) as [->|H9]; [reflexivity|].
  destruct (in_range 0 31 c) eqn:Hc.
  - change (lit "\u" ++ hex_fixed 4 c) with (92 :: 117 :: hex_fixed 4 c).
    cbn [app scanstring_loop].
    change (92 =? QUOTE) with false. change (92 =? BACKSLASH_CHAR) with true.
    change (117 =? 117) with true. cbn iota.
    rewrite (scan_unicode_escape_control c s Hc). reflexivity.
  - cbn [app scanstring_loop]. unfold QUOTE, BACKSLASH_CHAR.
    destruct (Z.eqb_spec c 34); [contradiction|].
    destruct (Z.eqb_spec c 92); [contradiction|].
    rewrite Hc. reflexivity.
Qed.

Lemma scanstring_loop_escape (s : pystr) :
  forall (fuel : nat) (rest chunks : pystr),
    (List.length (flat_map escape_char s) < fuel)%nat ->
    scanstring_loop fuel (flat_map escape_char s ++ QUOTE :: rest) chunks
    = Ok (rev chunks ++ s, rest).
Proof.
  induction s as [|c s IH]; intros fuel rest chunks Hlen.
  - destruct fuel; [cbn in Hlen; lia|]. cbn. now rewrite List.app_nil_r.
  - cbn [flat_map] in *. rewrite length_app in Hlen.
    pose proof (escape_char_length c).
    destruct fuel as [|fuel]; [lia|].
    rewrite <- List.app_assoc, scanstring_loop_escape_char.
    rewrite IH by lia. cbn [rev]. now rewrite <- List.app_assoc.
Qed.

(** [scanstring] reads back what [encode_basestring] wrote after the
    opening quote. *)
Lemma scanstring_escape (s rest : pystr) :
  scanstring (flat_map escape_char s ++ QUOTE :: rest) = Ok (s, rest).
Proof.
  unfold scanstring. rewrite scanstring_loop_escape; [reflexivity|].
  rewrite length_app. cbn. lia.
Qed.

(** * Documents: [json.loads] after [json.dumps] *)

Section Roundtrip.
Context {RT : PyRuntime}.

Lemma strip_prefix_neq (x c : Z) (p s : pystr) :
  x <> c -> strip_prefix (x :: p) (c :: s) = None.
Proof. intros H. cbn. destruct (Z.eqb_spec x c); [contradiction|reflexivity]. Qed.

Lemma scan_once_number (n : nat) (s integer frac exp r : pystr) :
  match_number s = Some ((integer, frac, exp), r) ->
  scan_once n s = (value <- number_value integer frac exp ;; Ok (value, r)).
Proof.
  intros Hm. destruct (match_number_head _ _ _ Hm) as (c & s' & -> & Hc).
  destruct n; cbn [scan_once]; unfold QUOTE;
    (destruct (Z.eqb_spec c 34); [lia|]);
    (destruct (Z.eqb_spec c 123); [lia|]);
    (destruct (Z.eqb_spec c 91); [lia|]);
    change (lit "null") with (110 :: lit "ull");
    change (lit "true") with (116 :: lit "rue");
    change (lit "false") with (102 :: lit "alse");
    rewrite !strip_prefix_neq by lia;
    rewrite Hm; reflexivity.
Qed.

Lemma skip_whitespace_value_start (s : pystr) :
  value_start s = true -> skip_whitespace s = s.
Proof.
  destruct s as [|c s]; [reflexivity|]. cbn. unfold is_digit. intros H.
  assert (((c =? 32) || (c =? 9) || (c =? 10) || (c =? 13)) = false) as -> by lia.
  reflexivity.
Qed.

Lemma skip_whitespace_space (s : pystr) :
  skip_whitespace (32 :: s) = skip_whitespace s.
Proof. reflexivity. Qed.

Lemma skip_whitespace_comma (s : pystr) : skip_whitespace (44 :: s) = 44 :: s.
Proof. reflexivity. Qed.

Lemma skip_whitespace_colon (s : pystr) : skip_whitespace (58 :: s) = 58 :: s.
Proof. reflexivity. Qed.

Lemma skip_whitespace_quote (s : pystr) : skip_whitespace (QUOTE :: s) = QUOTE :: s.
Proof. reflexivity. Qed.

Lemma expect_head (c : Z) (s : pystr) : expect c (c :: s) = Ok s.
Proof. cbn. now rewrite Z.eqb_refl. Qed.

Lemma bind_Ok {A B} (a : A) (k : A -> result B) : bind (Ok a) k = k a.
Proof. reflexivity. Qed.

Lemma expecting_value_Ok {A} (a : A) : expecting_value (Ok a) = Ok a.
Proof. reflexivity. Qed.

Lemma value_start_app (t rest : pystr) :
  value_start t = true -> value_start (t ++ rest) = true.
Proof. destruct t; [discriminate|]. auto. Qed.

Lemma value_start_nonempty (t : pystr) :
  value_start t = true -> (1 <= List.length t)%nat.
Proof. destruct t; [discriminate|]. cbn. lia. Qed.

Lemma join_cons (sep t : pystr) (chunks : list pystr) :
  join sep (t :: chunks)
  = t ++ match chunks with [] => [] | _ :: _ => sep ++ join sep chunks end.
Proof. destruct chunks; cbn; [now rewrite List.app_nil_r|reflexivity]. Qed.

(** ** Scalars *)

(** A scalar needs no room. *)
Lemma reads_back_None (room : nat) : reads_back room PNone (lit "null").
Proof. split; [reflexivity|]. intros rest [|n] _ _; reflexivity. Qed.

Lemma reads_back_Bool (room : nat) (b : bool) :
  reads_back room (PBool b) (if b then lit "true" else lit "false").
Proof.
  destruct b; (split; [reflexivity|]); intros rest [|n] _ _; reflexivity.
Qed.

Lemma reads_back_Int (room : nat) (z : Z) :
  (List.length (int_repr (Z.abs z)) <= MAX_STR_DIGITS)%nat ->
  reads_back room (PInt z) (int_repr z).
Proof.
  intros Hz. pose proof (match_number_int_repr z) as Hm.
  split.
  - destruct (match_number_head _ _ _ Hm) as (c & s' & -> & Hc).
    cbn. unfold is_digit. lia.
  - intros rest n Hf _.
    rewrite (scan_once_number n _ _ _ _ _ (match_number_app _ _ _ _ Hf Hm)).
    unfold number_value. cbn [app]. now rewrite (py_int_int_repr z Hz).
Qed.

Lemma reads_back_Str (room : nat) (s : pystr) :
  reads_back room (PStr s) (encode_basestring s).
Proof.
  split; [reflexivity|].
  intros rest [|n] _ _; unfold encode_basestring; cbn [app scan_once];
    rewrite Z.eqb_refl, <- List.app_assoc; cbn [app];
    now rewrite scanstring_escape.
Qed.

Lemma reads_back_Float `{!PyRuntimeLaws RT} (room : nat) (f : pyfloat) :
  exists t, floatstr true f = Ok t /\ reads_back room (PFloat f) t.
Proof.
  unfold floatstr. destruct (float_classify f) eqn:Hk.
  - apply nan_unique in Hk as ->. eexists; split; [reflexivity|].
    split; [reflexivity|]. intros rest [|n] _ _; reflexivity.
  - apply inf_unique in Hk as ->. eexists; split; [reflexivity|].
    split; [reflexivity|]. intros rest [|n] _ _; reflexivity.
  - apply neginf_unique in Hk as ->. eexists; split; [reflexivity|].
    split; [reflexivity|]. intros rest [|n] _ _; reflexivity.
  - destruct (repr_roundtrip f Hk) as (integer & frac & exp & Hm & Hne & Hf).
    eexists; split; [reflexivity|]. split.
    + destruct (match_number_head _ _ _ Hm) as (c & s' & -> & Hc).
      cbn. unfold is_digit. lia.
    + intros rest n Hfo _.
      rewrite (scan_once_number n _ _ _ _ _ (match_number_app _ _ _ _ Hfo Hm)).
      unfold number_value. cbn [app].
      destruct (frac ++ exp); [contradiction|]. now rewrite Hf.
Qed.

(** ** Lists *)

Lemma JSONArray_loop_reads_back (room n : nat)
  (items : list pyval) (chunks : list pystr) :
  Forall2 (reads_back room) items chunks ->
  items <> [] ->
  forall (values : list pyval) (rest : pystr) (fuel : nat),
    (room <= n)%nat ->
    (List.length (join (lit ", ") chunks ++ 93%Z :: rest) <= fuel)%nat ->
    JSONArray_loop (scan_once n) fuel (join (lit ", ") chunks ++ 93 :: rest) values
    = Ok (PList (values ++ items), rest).
Proof.
  induction 1 as [|v t items chunks [Hstart Hv] Hrest IH]; [congruence|].
  intros _ values rest fuel Hn Hfuel.
  rewrite join_cons in *. rewrite <- List.app_assoc in *.
  pose proof (value_start_nonempty _ Hstart) as Ht.
  rewrite length_app in Hfuel. destruct fuel as [|fuel]; [lia|].
  cbn [JSONArray_loop].
  destruct Hrest as [|v2 t2 items chunks Hv2 Hrest].
  - cbn [app] in *. rewrite (Hv (93 :: rest) n) by (reflexivity || assumption).
    reflexivity.
  - change ((lit ", " ++ join (lit ", ") (t2 :: chunks)) ++ 93 :: rest)
      with (44 :: 32 :: (join (lit ", ") (t2 :: chunks) ++ 93 :: rest)) in *.
    rewrite (Hv _ n) by (reflexivity || assumption).
    cbn [expecting_value try_except bind skip_whitespace].
    change (44 =? 32) with false. change (44 =? 9) with false.
    change (44 =? 10) with false. change (44 =? 13) with false.
    cbn [orb]. change (44 =? 93) with false. change (44 =? 44) with true.
    cbn iota. rewrite skip_whitespace_space.
    assert (Hs : value_start (join (lit ", ") (t2 :: chunks) ++ 93 :: rest) = true).
    { rewrite join_cons, <- List.app_assoc. apply value_start_app, Hv2. }
    rewrite (skip_whitespace_value_start _ Hs).
    cbn [List.length] in Hfuel.
    rewrite IH; [|congruence|lia|lia].
    now rewrite <- List.app_assoc.
Qed.

Lemma reads_back_List (room : nat) (items : list pyval) (chunks : list pystr) :
  Forall2 (reads_back room) items chunks ->
  reads_back (S room) (PList items) (lit "[" ++ join (lit ", ") chunks ++ lit "]").
Proof.
  intros H. split; [reflexivity|]. intros rest [|n] _ Hn; [lia|].
  change ((lit "[" ++ join (lit ", ") chunks ++ lit "]") ++ rest)
    with (91 :: ((join (lit ", ") chunks ++ [93]) ++ rest)) in *.
  rewrite <- List.app_assoc in *. cbn [app] in *.
  cbn [scan_once]. change (91 =? QUOTE) with false. change (91 =? 123) with false.
  change (91 =? 91) with true. cbn iota. unfold JSONArray.
  destruct H as [|v t items chunks Hv Hrest].
  - reflexivity.
  - assert (Hs : value_start (join (lit ", ") (t :: chunks) ++ 93 :: rest) = true).
    { rewrite join_cons, <- List.app_assoc. apply value_start_app, Hv. }
    rewrite (skip_whitespace_value_start _ Hs).
    destruct (join (lit ", ") (t :: chunks) ++ 93 :: rest) as [|c s] eqn:E;
      [discriminate|].
    assert ((c =? 93) = false) as ->.
    { cbn in Hs. unfold is_digit in Hs. lia. }
    rewrite <- E.
    rewrite (JSONArray_loop_reads_back room n (v :: items) (t :: chunks));
      [reflexivity|now constructor|congruence|lia|].
    rewrite E. cbn [List.length] in *. lia.
Qed.

(** ** Dictionaries *)

Lemma item_text_assoc (k t tail rest : pystr) :
  ((encode_basestring k ++ lit ": " ++ t) ++ tail) ++ rest
  = QUOTE :: (flat_map escape_char k ++ QUOTE :: 58 :: 32 :: (t ++ (tail ++ rest))).
Proof.
  unfold encode_basestring. change (lit ": ") with [58; 32].
  cbn [app]. f_equal. rewrite <- !List.app_assoc. reflexivity.
Qed.

Lemma JSONObject_loop_reads_back (room n : nat)
  (items : list (pyval * pyval)) (chunks : list pystr) :
  Forall2 (item_reads_back room) items chunks ->
  items <> [] ->
  forall (pairs : list (pystr * pyval)) (rest : pystr) (fuel : nat),
    (room <= n)%nat ->
    (List.length (join (lit ", ") chunks ++ 125%Z :: rest) <= fuel)%nat ->
    JSONObject_loop (scan_once n) fuel
      (tl (join (lit ", ") chunks ++ 125 :: rest)) pairs
    = Ok (PDict (dict_of_pairs (pairs ++ str_items items)), rest).
Proof.
  induction 1 as [|[key v] chunk items chunks (k & t & Hk & [Hstart Hv] & ->) Hrest IH];
    [congruence|].
  cbn [fst snd] in *. subst key.
  intros _ pairs rest fuel Hn Hfuel.
  rewrite join_cons in *.
  set (tail := match chunks with
               | [] => []
               | _ :: _ => lit ", " ++ join (lit ", ") chunks
               end) in *.
  rewrite item_text_assoc in *.
  cbn [tl]. cbn [List.length] in Hfuel. rewrite length_app in Hfuel.
  cbn [List.length] in Hfuel. rewrite length_app in Hfuel.
  pose proof (value_start_nonempty _ Hstart) as Ht.
  destruct fuel as [|fuel]; [lia|].
  cbn [JSONObject_loop].
  rewrite scanstring_escape, bind_Ok, skip_whitespace_colon, expect_head, bind_Ok.
  rewrite skip_whitespace_space.
  rewrite (skip_whitespace_value_start (t ++ tail ++ 125 :: rest))
    by (apply value_start_app, Hstart).
  subst tail. destruct Hrest as [|kv2 chunk2 items chunks Hkv2 Hrest].
  - cbn [app] in *.
    rewrite (Hv (125 :: rest) n) by (reflexivity || assumption).
    reflexivity.
  - destruct Hkv2 as (k2 & t2 & Hk2 & Hv2 & ->).
    rewrite join_cons in *.
    set (chunk2 := encode_basestring k2 ++ lit ": " ++ t2) in *.
    set (tail2 := match chunks with
                  | [] => []
                  | _ :: _ => lit ", " ++ join (lit ", ") chunks
                  end) in *.
    change ((lit ", " ++ chunk2 ++ tail2) ++ 125 :: rest)
      with (44 :: 32 :: ((chunk2 ++ tail2) ++ 125 :: rest)) in *.
    rewrite (Hv _ n) by (reflexivity || assumption).
    rewrite expecting_value_Ok, bind_Ok. cbv beta iota.
    rewrite skip_whitespace_comma.
    change (44 =? 125) with false. change (44 =? 44) with true. cbv iota.
    rewrite skip_whitespace_space.
    assert (Hq : exists x, (chunk2 ++ tail2) ++ 125 :: rest = QUOTE :: x).
    { subst chunk2. eexists. reflexivity. }
    destruct Hq as (x & Hx).
    specialize (IH ltac:(congruence) (pairs ++ [(k, v)]) rest fuel Hn).
    rewrite Hx in *. cbn [tl] in IH.
    rewrite skip_whitespace_quote, expect_head, bind_Ok.
    rewrite IH by (cbn [List.length] in *; lia). cbn [str_items map].
    now rewrite <- List.app_assoc.
Qed.

Lemma keys_distinct_notin (k : pystr) (ks1 ks2 : list pyval) :
  keys_distinct (ks1 ++ PStr k :: ks2) = true ->
  existsb (key_is k) ks1 = false.
Proof.
  induction ks1 as [|k1 ks1 IH]; [reflexivity|]. cbn [app keys_distinct].
  destruct k1; try discriminate.
  intros [Hk Hd]%andb_true_iff. cbn [existsb key_is].
  rewrite (IH Hd), orb_false_r.
  apply negb_true_iff in Hk. rewrite existsb_app in Hk.
  apply orb_false_iff in Hk as [_ Hk]. cbn [existsb key_is] in Hk.
  apply orb_false_iff in Hk as [Hk _]. now rewrite pystr_eqb_sym.
Qed.

Lemma dict_setitem_new (d : list (pyval * pyval)) (k : pystr) (v : pyval) :
  existsb (key_is k) (map fst d) = false ->
  dict_setitem d k v = d ++ [(PStr k, v)].
Proof.
  induction d as [|[k' v'] d IH]; [reflexivity|]. cbn [map fst existsb].
  intros [Hk Hd]%orb_false_iff. cbn [dict_setitem app].
  now rewrite Hk, (IH Hd).
Qed.

Lemma keys_distinct_str (items : list (pyval * pyval)) :
  keys_distinct (map fst items) = true ->
  Forall (fun kv => exists k, fst kv = PStr k) items.
Proof.
  induction items as [|[k v] items IH]; [constructor|]. cbn [map fst keys_distinct].
  destruct k; try discriminate. intros [_ Hd]%andb_true_iff.
  constructor; [now eexists|auto].
Qed.

Lemma fold_dict_setitem_distinct (items acc : list (pyval * pyval)) :
  keys_distinct (map fst (acc ++ items)) = true ->
  fold_left (fun d kv => dict_setitem d (fst kv) (snd kv)) (str_items items) acc
  = acc ++ items.
Proof.
  revert acc. induction items as [|[k v] items IH]; intros acc Hd.
  - cbn. now rewrite List.app_nil_r.
  - assert (Hk : exists s, k = PStr s).
    { rewrite map_app in Hd. cbn [map fst] in Hd.
      destruct k; try (now eexists);
        exfalso; clear -Hd; induction (map fst acc) as [|x l IHl];
        cbn in Hd; try discriminate;
        destruct x; try discriminate;
        apply andb_true_iff in Hd as [_ Hd]; auto. }
    destruct Hk as (s & ->). cbn [str_items map fold_left fst snd].
    rewrite dict_setitem_new.
    + fold (str_items items). rewrite IH; rewrite <- List.app_assoc; [reflexivity|exact Hd].
    + rewrite map_app in Hd. cbn [map fst] in Hd.
      now apply keys_distinct_notin in Hd.
Qed.

Lemma dict_of_pairs_str_items (items : list (pyval * pyval)) :
  keys_distinct (map fst items) = true ->
  dict_of_pairs (str_items items) = items.
Proof. intros H. unfold dict_of_pairs. now rewrite fold_dict_setitem_distinct. Qed.

Lemma reads_back_Dict (room : nat)
  (items : list (pyval * pyval)) (chunks : list pystr) :
  Forall2 (item_reads_back room) items chunks ->
  keys_distinct (map fst items) = true ->
  reads_back (S room) (PDict items) (lit "{" ++ join (lit ", ") chunks ++ lit "}").
Proof.
  intros H Hd. split; [reflexivity|]. intros rest [|n] _ Hn; [lia|].
  change ((lit "{" ++ join (lit ", ") chunks ++ lit "}") ++ rest)
    with (123 :: ((join (lit ", ") chunks ++ [125]) ++ rest)) in *.
  rewrite <- List.app_assoc in *. cbn [app] in *.
  cbn [scan_once]. change (123 =? QUOTE) with false. change (123 =? 123) with true.
  cbn iota. unfold JSONObject.
  destruct H as [|kv chunk items chunks Hkv Hrest].
  - reflexivity.
  - pose proof (JSONObject_loop_reads_back room n (kv :: items) (chunk :: chunks)
                  ltac:(now constructor) ltac:(congruence) [] rest) as Hloop.
    destruct Hkv as (k & t & Hk & Hv & ->).
    rewrite join_cons in *. rewrite item_text_assoc in *.
    rewrite skip_whitespace_quote.
    change (QUOTE =? 125) with false. rewrite Z.eqb_refl. cbn [tl] in Hloop.
    rewrite Hloop; [|lia|cbn [List.length]; lia].
    cbn [app]. now rewrite (dict_of_pairs_str_items _ Hd).
Qed.

(** ** Every value of a document *)

Lemma json_dumps_List (items : list pyval) :
  json_dumps (PList items)
  = (chunks <- map_result json_dumps items ;;
     Ok (lit "[" ++ join (lit ", ") chunks ++ lit "]")).
Proof. reflexivity. Qed.

Lemma json_dumps_Dict (items : list (pyval * pyval)) :
  json_dumps (PDict items)
  = (chunks <- map_result (fun '(key, value) =>
                 k <- encode_key true key ;;
                 v <- json_dumps value ;;
                 Ok (encode_basestring k ++ lit ": " ++ v)) items ;;
     Ok (lit "{" ++ join (lit ", ") chunks ++ lit "}")).
Proof. reflexivity. Qed.

Lemma dumps_reads_back `{!PyRuntimeLaws RT} (v : pyval) :
  forall room,
    is_json_value v = true ->
    within_limits room v = true ->
    exists t, json_dumps v = Ok t /\ reads_back room v t.
Proof.
  induction v as [|b|z|f|s|b|items IH|items IH] using pyval_ind; intros room Hj Hl.
  - eexists; split; [reflexivity|apply reads_back_None].
  - exists (if b then lit "true" else lit "false"); split;
      [now destruct b|apply reads_back_Bool].
  - eexists; split; [reflexivity|].
    apply reads_back_Int. exact (proj1 (Nat.leb_le _ _) Hl).
  - apply reads_back_Float.
  - eexists; split; [reflexivity|apply reads_back_Str].
  - discriminate.
  - cbn [is_json_value] in Hj. destruct room as [|room]; [discriminate|].
    cbn [within_limits] in Hl.
    assert (Hc : exists chunks,
               map_result json_dumps items = Ok chunks
               /\ Forall2 (reads_back room) items chunks).
    { induction IH as [|v items Hv _ IHitems]; [now exists []|].
      cbn [forallb] in Hj, Hl. apply andb_true_iff in Hj as [Hj1 Hj2].
      apply andb_true_iff in Hl as [Hl1 Hl2].
      destruct (Hv room Hj1 Hl1) as (t & Ht & Hr).
      destruct (IHitems Hj2 Hl2) as (chunks & Hc & Hrs).
      exists (t :: chunks). cbn [map_result]. rewrite Ht. cbn [bind].
      fold (map_result json_dumps items). rewrite Hc. split; [reflexivity|].
      now constructor. }
    destruct Hc as (chunks & Hc & Hrs).
    rewrite json_dumps_List, Hc. eexists; split; [reflexivity|].
    now apply reads_back_List.
  - cbn [is_json_value] in Hj. apply andb_true_iff in Hj as [Hj Hd].
    destruct room as [|room]; [discriminate|]. cbn [within_limits] in Hl.
    pose proof (keys_distinct_str _ Hd) as Hk.
    assert (Hc : exists chunks,
               map_result (fun '(key, value) =>
                 k <- encode_key true key ;;
                 v <- json_dumps value ;;
                 Ok (encode_basestring k ++ lit ": " ++ v)) items = Ok chunks
               /\ Forall2 (item_reads_back room) items chunks).
    { clear Hd. induction IH as [|[k v] items [_ Hv] _ IHitems]; [now exists []|].
      cbn [forallb] in Hj, Hl. apply andb_true_iff in Hj as [Hj1 Hj2].
      apply andb_true_iff in Hl as [Hl1 Hl2].
      inversion Hk as [|? ? (s & Hs) Hk']; subst. cbn [fst snd] in *. subst k.
      destruct (Hv room Hj1 Hl1) as (t & Ht & Hr).
      destruct (IHitems Hj2 Hl2 Hk') as (chunks & Hc & Hrs).
      exists ((encode_basestring s ++ lit ": " ++ t) :: chunks).
      cbn [map_result encode_key bind]. rewrite Ht. cbn [bind].
      match goal with
      | |- context [bind ?m _] => replace m with (Ok (A:=list pystr) chunks)
      end.
      split; [reflexivity|]. constructor; [|assumption].
      exists s, t. auto. }
    destruct Hc as (chunks & Hc & Hrs).
    rewrite json_dumps_Dict, Hc. eexists; split; [reflexivity|].
    now apply reads_back_Dict.
Qed.

(** [json.loads] of the text [json.dumps] wrote for a JSON value within
    the limits is that value. *)
Lemma json_loads_str_json_dumps `{!PyRuntimeLaws RT} (v : pyval) (t : pystr) :
  is_json_value v = true ->
  within_limits recursion_room v = true ->
  json_dumps v = Ok t ->
  json_loads_str t = Ok v.
Proof.
  intros Hj Hl Ht.
  destruct (dumps_reads_back v recursion_room Hj Hl) as (t' & Ht' & Hstart & Hv).
  assert (t' = t) as -> by congruence.
  specialize (Hv [] recursion_room eq_refl).
  rewrite List.app_nil_r in Hv. specialize (Hv ltac:(lia)).
  unfold json_loads_str, decode.
  rewrite (skip_whitespace_value_start _ Hstart), Hv.
  destruct t as [|c t]; [discriminate|].
  assert ((c =? 65279) = false) as ->.
  { cbn in Hstart. unfold is_digit in Hstart. lia. }
  reflexivity.
Qed.

End Roundtrip.

(** * What the scanner returns is a JSON value *)

Section Scanned.
Context {RT : PyRuntime}.

Lemma keys_dict_setitem (d : list (pyval * pyval)) (k : pystr) (v : pyval) :
  map fst (dict_setitem d k v)
  = if existsb (key_is k) (map fst d) then map fst d
    else map fst d ++ [PStr k].
Proof.
  induction d as [|[k' v'] d IH]; [reflexivity|]. cbn [dict_setitem map fst existsb].
  destruct (key_is k k'); [reflexivity|]. cbn [map fst orb]. rewrite IH.
  now destruct (existsb (key_is k) (map fst d)).
Qed.

Lemma keys_distinct_snoc (ks : list pyval) (k : pystr) :
  keys_distinct ks = true ->
  existsb (key_is k) ks = false ->
  keys_distinct (ks ++ [PStr k]) = true.
Proof.
  induction ks as [|k1 ks IH]; [reflexivity|]. cbn [keys_distinct app existsb].
  destruct k1; try discriminate.
  intros [Hn Hd]%andb_true_iff [Hk Hks]%orb_false_iff.
  apply andb_true_iff. split; [|auto].
  apply negb_true_iff in Hn. apply negb_true_iff. rewrite existsb_app, Hn.
  cbn [existsb key_is orb] in *. rewrite pystr_eqb_sym, Hk. reflexivity.
Qed.

Lemma dict_setitem_is_json (d : list (pyval * pyval)) (k : pystr) (v : pyval) :
  is_json_value (PDict d) = true ->
  is_json_value v = true ->
  is_json_value (PDict (dict_setitem d k v)) = true.
Proof.
  cbn [is_json_value]. intros [Hv Hd]%andb_true_iff Hj. apply andb_true_iff. split.
  - clear Hd. induction d as [|[k' v'] d IH]; cbn [dict_setitem forallb] in *.
    + now rewrite Hj.
    + apply andb_true_iff in Hv as [Hv1 Hv2].
      destruct (key_is k k'); cbn [forallb]; apply andb_true_iff; auto.
  - rewrite keys_dict_setitem.
    destruct (existsb (key_is k) (map fst d)) eqn:E; [assumption|].
    now apply keys_distinct_snoc.
Qed.

Lemma dict_of_pairs_is_json (pairs : list (pystr * pyval)) :
  forallb (fun kv => is_json_value (snd kv)) pairs = true ->
  is_json_value (PDict (dict_of_pairs pairs)) = true.
Proof.
  unfold dict_of_pairs.
  assert (H : forall acc, is_json_value (PDict acc) = true ->
            forallb (fun kv => is_json_value (snd kv)) pairs = true ->
            is_json_value
              (PDict (fold_left (fun d kv => dict_setitem d (fst kv) (snd kv)) pairs acc))
            = true).
  { induction pairs as [|[k v] pairs IH]; intros acc Hacc Hp; [assumption|].
    cbn [forallb snd] in Hp. apply andb_true_iff in Hp as [Hv Hp].
    cbn [fold_left fst snd]. apply IH; [|assumption].
    now apply dict_setitem_is_json. }
  now apply H.
Qed.

Section Loops.
Variable scan : pystr -> result (pyval * pystr).
Hypothesis scan_is_json :
  forall s v r, scan s = Ok (v, r) -> is_json_value v = true.

Lemma expecting_value_inv {A} (m : result A) (a : A) :
  expecting_value m = Ok a -> m = Ok a.
Proof. destruct m as [x|[]]; cbn; congruence. Qed.

Lemma JSONArray_loop_is_json (fuel : nat) :
  forall s values v r,
    forallb is_json_value values = true ->
    JSONArray_loop scan fuel s values = Ok (v, r) ->
    is_json_value v = true.
Proof.
  induction fuel as [|fuel IH]; intros s values v r Hvs; [discriminate|].
  cbn [JSONArray_loop].
  destruct (expecting_value (scan s)) as [[value s1]|e] eqn:E; [|discriminate].
  apply expecting_value_inv, scan_is_json in E. cbn [bind].
  assert (Hvs' : forallb is_json_value (values ++ [value]) = true).
  { rewrite forallb_app, Hvs. cbn. now rewrite E. }
  destruct (skip_whitespace s1) as [|c s2]; [discriminate|].
  destruct (c =? 93); [now intros [= <- <-]|].
  destruct (c =? 44); [|discriminate].
  now apply IH.
Qed.

Lemma JSONArray_is_json (s : pystr) (v : pyval) (r : pystr) :
  JSONArray scan s = Ok (v, r) -> is_json_value v = true.
Proof.
  unfold JSONArray. destruct (skip_whitespace s) as [|c s1]; [discriminate|].
  destruct (c =? 93); [now intros [= <- <-]|].
  now apply JSONArray_loop_is_json.
Qed.

Lemma JSONObject_loop_is_json (fuel : nat) :
  forall s pairs v r,
    forallb (fun kv => is_json_value (snd kv)) pairs = true ->
    JSONObject_loop scan fuel s pairs = Ok (v, r) ->
    is_json_value v = true.
Proof.
  induction fuel as [|fuel IH]; intros s pairs v r Hps; [discriminate|].
  cbn [JSONObject_loop].
  destruct (scanstring s) as [[key s1]|e]; [|discriminate]. cbn [bind].
  destruct (expect 58 (skip_whitespace s1)) as [s2|e]; [|discriminate]. cbn [bind].
  destruct (expecting_value (scan (skip_whitespace s2))) as [[value s3]|e] eqn:E;
    [|discriminate].
  apply expecting_value_inv, scan_is_json in E. cbn [bind].
  assert (Hps' : forallb (fun kv => is_json_value (snd kv)) (pairs ++ [(key, value)])
                 = true).
  { rewrite forallb_app, Hps. cbn. now rewrite E. }
  destruct (skip_whitespace s3) as [|c s4]; [discriminate|].
  destruct (c =? 125).
  { intros [= <- <-]. now apply dict_of_pairs_is_json. }
  destruct (c =? 44); [|discriminate].
  destruct (expect QUOTE (skip_whitespace s4)) as [s5|e]; [|discriminate].
  cbn [bind]. now apply IH.
Qed.

Lemma JSONObject_is_json (s : pystr) (v : pyval) (r : pystr) :
  JSONObject scan s = Ok (v, r) -> is_json_value v = true.
Proof.
  unfold JSONObject. destruct (skip_whitespace s) as [|c s1]; [discriminate|].
  destruct (c =? 125); [now intros [= <- <-]|].
  destruct (c =? QUOTE); [|discriminate].
  now apply JSONObject_loop_is_json.
Qed.

End Loops.

(** The loops again, for the limits: with values within [room] from the
    scanner, a container is within [S room]. *)
Section LoopsLimits.
Variable scan : pystr -> result (pyval * pystr).
Variable room : nat.
Hypothesis scan_within :
  forall s v r, scan s = Ok (v, r) -> within_limits room v = true.

Lemma JSONArray_loop_within (fuel : nat) :
  forall s values v r,
    forallb (within_limits room) values = true ->
    JSONArray_loop scan fuel s values = Ok (v, r) ->
    within_limits (S room) v = true.
Proof.
  induction fuel as [|fuel IH]; intros s values v r Hvs; [discriminate|].
  cbn [JSONArray_loop].
  destruct (expecting_value (scan s)) as [[value s1]|e] eqn:E; [|discriminate].
  apply expecting_value_inv, scan_within in E. cbn [bind].
  assert (Hvs' : forallb (within_limits room) (values ++ [value]) = true).
  { rewrite forallb_app, Hvs. cbn. now rewrite E. }
  destruct (skip_whitespace s1) as [|c s2]; [discriminate|].
  destruct (c =? 93); [now intros [= <- <-]|].
  destruct (c =? 44); [|discriminate].
  now apply IH.
Qed.

Lemma JSONArray_within (s : pystr) (v : pyval) (r : pystr) :
  JSONArray scan s = Ok (v, r) -> within_limits (S room) v = true.
Proof.
  unfold JSONArray. destruct (skip_whitespace s) as [|c s1]; [discriminate|].
  destruct (c =? 93); [now intros [= <- <-]|].
  now apply JSONArray_loop_within.
Qed.

Lemma dict_setitem_within (d : list (pyval * pyval)) (k : pystr) (v : pyval) :
  within_limits (S room) (PDict d) = true ->
  within_limits room v = true ->
  within_limits (S room) (PDict (dict_setitem d k v)) = true.
Proof.
  cbn [within_limits]. intros Hd Hv.
  induction d as [|[k' v'] d IH]; cbn [dict_setitem forallb] in *.
  - now rewrite Hv.
  - apply andb_true_iff in Hd as [Hd1 Hd2].
    destruct (key_is k k'); cbn [forallb]; apply andb_true_iff; auto.
Qed.

Lemma dict_of_pairs_within (pairs : list (pystr * pyval)) :
  forallb (fun kv => within_limits room (snd kv)) pairs = true ->
  within_limits (S room) (PDict (dict_of_pairs pairs)) = true.
Proof.
  unfold dict_of_pairs.
  assert (H : forall acc, within_limits (S room) (PDict acc) = true ->
            forallb (fun kv => within_limits room (snd kv)) pairs = true ->
            within_limits (S room)
              (PDict (fold_left (fun d kv => dict_setitem d (fst kv) (snd kv)) pairs acc))
            = true).
  { induction pairs as [|[k v] pairs IH]; intros acc Hacc Hp; [assumption|].
    cbn [forallb snd] in Hp. apply andb_true_iff in Hp as [Hv Hp].
    cbn [fold_left fst snd]. apply IH; [|assumption].
    now apply dict_setitem_within. }
  now apply H.
Qed.

Lemma JSONObject_loop_within (fuel : nat) :
  forall s pairs v r,
    forallb (fun kv => within_limits room (snd kv)) pairs = true ->
    JSONObject_loop scan fuel s pairs = Ok (v, r) ->
    within_limits (S room) v = true.
Proof.
  induction fuel as [|fuel IH]; intros s pairs v r Hps; [discriminate|].
  cbn [JSONObject_loop].
  destruct (scanstring s) as [[key s1]|e]; [|discriminate]. cbn [bind].
  destruct (expect 58 (skip_whitespace s1)) as [s2|e]; [|discriminate]. cbn [bind].
  destruct (expecting_value (scan (skip_whitespace s2))) as [[value s3]|e] eqn:E;
    [|discriminate].
  apply expecting_value_inv, scan_within in E. cbn [bind].
  assert (Hps' : forallb (fun kv => within_limits room (snd kv))
                   (pairs ++ [(key, value)]) = true).
  { rewrite forallb_app, Hps. cbn. now rewrite E. }
  destruct (skip_whitespace s3) as [|c s4]; [discriminate|].
  destruct (c =? 125).
  { intros [= <- <-]. now apply dict_of_pairs_within. }
  destruct (c =? 44); [|discriminate].
  destruct (expect QUOTE (skip_whitespace s4)) as [s5|e]; [|discriminate].
  cbn [bind]. now apply IH.
Qed.

Lemma JSONObject_within (s : pystr) (v : pyval) (r : pystr) :
  JSONObject scan s = Ok (v, r) -> within_limits (S room) v = true.
Proof.
  unfold JSONObject. destruct (skip_whitespace s) as [|c s1]; [discriminate|].
  destruct (c =? 125); [now intros [= <- <-]|].
  destruct (c =? QUOTE); [|discriminate].
  now apply JSONObject_loop_within.
Qed.

End LoopsLimits.

Lemma number_value_is_json (integer frac exp : pystr) (v : pyval) :
  number_value integer frac exp = Ok v -> is_json_value v = true.
Proof.
  unfold number_value. destruct (frac ++ exp).
  - destruct (py_int integer); [|discriminate]. now intros [= <-].
  - now intros [= <-].
Qed.

Lemma number_value_within (integer frac exp : pystr) (v : pyval) (room : nat) :
  number_value integer frac exp = Ok v -> within_limits room v = true.
Proof.
  unfold number_value. destruct (frac ++ exp).
  - destruct (py_int integer) as [z|e] eqn:E; [|discriminate]. intros [= <-].
    cbn [within_limits]. apply Nat.leb_le. exact (py_int_digits _ _ E).
  - now intros [= <-].
Qed.

(** The scalars the scanner reads when the text starts neither a string
    nor a container. *)
Lemma scan_once_scalar (good : pyval -> bool) (s : pystr) (v : pyval) (r : pystr) :
  good PNone = true -> (forall b, good (PBool b) = true) ->
  (forall f, good (PFloat f) = true) ->
  (forall integer frac exp value,
      number_value integer frac exp = Ok value -> good value = true) ->
  match strip_prefix (lit "null") s with
  | Some rest => Ok (PNone, rest)
  | None =>
  match strip_prefix (lit "true") s with
  | Some rest => Ok (PBool true, rest)
  | None =>
  match strip_prefix (lit "false") s with
  | Some rest => Ok (PBool false, rest)
  | None =>
  match match_number s with
  | Some ((integer, frac, exp), rest) =>
      value <- number_value integer frac exp ;; Ok (value, rest)
  | None =>
  match strip_prefix (lit "NaN") s with
  | Some rest => Ok (PFloat float_nan, rest)
  | None =>
  match strip_prefix (lit "Infinity") s with
  | Some rest => Ok (PFloat float_inf, rest)
  | None =>
  match strip_prefix (lit "-Infinity") s with
  | Some rest => Ok (PFloat float_neginf, rest)
  | None => Raise StopIteration
  end end end end end end end = Ok (v, r) ->
  good v = true.
Proof.
  intros HN HB HF Hnum.
  destruct (strip_prefix (lit "null") s); [now intros [= <- <-]|].
  destruct (strip_prefix (lit "true") s); [now intros [= <- <-]|].
  destruct (strip_prefix (lit "false") s); [now intros [= <- <-]|].
  destruct (match_number s) as [[[[integer frac] exp] rest]|].
  { destruct (number_value integer frac exp) as [value|e] eqn:E; [|discriminate].
    intros [= <- <-]. exact (Hnum _ _ _ _ E). }
  destruct (strip_prefix (lit "NaN") s); [now intros [= <- <-]|].
  destruct (strip_prefix (lit "Infinity") s); [now intros [= <- <-]|].
  destruct (strip_prefix (lit "-Infinity") s); [now intros [= <- <-]|].
  discriminate.
Qed.

Lemma scan_once_is_json (n : nat) :
  forall s v r, scan_once n s = Ok (v, r) -> is_json_value v = true.
Proof.
  induction n as [|n IH]; intros s v r;
    (destruct s as [|c s']; [discriminate|]); cbn [scan_once];
    (destruct (c =? QUOTE);
     [destruct (scanstring s') as [[str rest]|e]; [|discriminate];
      now intros [= <- <-]|]);
    (destruct (c =? 123); [first [discriminate|now apply JSONObject_is_json]|]);
    (destruct (c =? 91); [first [discriminate|now apply JSONArray_is_json]|]);
    apply scan_once_scalar; try reflexivity; apply number_value_is_json.
Qed.

(** A value the scanner returns is within the limits: its integers passed
    [int], and each of its containers took one unit of the room. *)
Lemma scan_once_within (n : nat) :
  forall s v r, scan_once n s = Ok (v, r) -> within_limits n v = true.
Proof.
  induction n as [|n IH]; intros s v r;
    (destruct s as [|c s']; [discriminate|]); cbn [scan_once];
    (destruct (c =? QUOTE);
     [destruct (scanstring s') as [[str rest]|e]; [|discriminate];
      now intros [= <- <-]|]);
    (destruct (c =? 123); [first [discriminate|now apply JSONObject_within]|]);
    (destruct (c =? 91); [first [discriminate|now apply JSONArray_within]|]);
    apply scan_once_scalar; try reflexivity;
    intros integer frac exp value; apply number_value_within.
Qed.

Lemma decode_inv (s : pystr) (v : pyval) :
  decode s = Ok v ->
  exists t r, scan_once recursion_room t = Ok (v, r).
Proof.
  unfold decode.
  destruct (expecting_value (scan_once recursion_room (skip_whitespace s)))
    as [[obj rest]|e] eqn:E; [|discriminate].
  apply expecting_value_inv in E. cbn [bind].
  destruct (skip_whitespace rest); [|discriminate]. intros [= <-]. eauto.
Qed.

Lemma decode_is_json (s : pystr) (v : pyval) :
  decode s = Ok v -> is_json_value v = true.
Proof.
  intros (t & r & H)%decode_inv. exact (scan_once_is_json _ _ _ _ H).
Qed.

Lemma decode_within (s : pystr) (v : pyval) :
  decode s = Ok v -> within_limits recursion_room v = true.
Proof.
  intros (t & r & H)%decode_inv. exact (scan_once_within _ _ _ _ H).
Qed.

Lemma json_loads_within (raw : pybytes) (v : pyval) :
  json_loads raw = Ok v -> within_limits recursion_room v = true.
Proof.
  unfold json_loads.
  destruct (decode_surrogatepass _ _) as [s|e]; [|discriminate].
  apply decode_within.
Qed.

Lemma json_loads_is_json (raw : pybytes) (v : pyval) :
  json_loads raw = Ok v -> is_json_value v = true.
Proof.
  unfold json_loads.
  destruct (decode_surrogatepass _ _) as [s|e]; [|discriminate].
  apply decode_is_json.
Qed.

(** [json.dumps] returns a text for a JSON value, for a string and for a
    bytes object. *)
Lemma json_dumps_is_json (v : pyval) :
  is_json_value v = true -> exists t, json_dumps v = Ok t.
Proof.
  induction v as [|b|z|f|s|b|items IH|items IH] using pyval_ind; intros Hj;
    try (eexists; reflexivity).
  - destruct b; eexists; reflexivity.
  - cbn. unfold floatstr. destruct (float_classify f); eexists; reflexivity.
  - cbn [is_json_value] in Hj.
    assert (Hc : exists chunks, map_result json_dumps items = Ok chunks).
    { induction IH as [|v items Hv _ IHitems]; [now exists []|].
      cbn [forallb] in Hj. apply andb_true_iff in Hj as [Hj1 Hj2].
      destruct (Hv Hj1) as (t & Ht). destruct (IHitems Hj2) as (chunks & Hc).
      exists (t :: chunks). cbn [map_result]. rewrite Ht. cbn [bind].
      fold (map_result json_dumps items). now rewrite Hc. }
    destruct Hc as (chunks & Hc). rewrite json_dumps_List, Hc. eexists; reflexivity.
  - cbn [is_json_value] in Hj. apply andb_true_iff in Hj as [Hj Hd].
    pose proof (keys_distinct_str _ Hd) as Hk.
    assert (Hc : exists chunks,
               map_result (fun '(key, value) =>
                 k <- encode_key true key ;;
                 v <- json_dumps value ;;
                 Ok (encode_basestring k ++ lit ": " ++ v)) items = Ok chunks).
    { clear Hd. induction IH as [|[k v] items [_ Hv] _ IHitems]; [now exists []|].
      cbn [forallb] in Hj. apply andb_true_iff in Hj as [Hj1 Hj2].
      inversion Hk as [|? ? (s & Hs) Hk']; subst. cbn [fst snd] in *. subst k.
      destruct (Hv Hj1) as (t & Ht). destruct (IHitems Hj2 Hk') as (chunks & Hc).
      exists ((encode_basestring s ++ lit ": " ++ t) :: chunks).
      cbn [map_result encode_key bind]. rewrite Ht. cbn [bind].
      match goal with
      | |- context [bind ?m _] => replace m with (Ok (A:=list pystr) chunks)
      end.
      reflexivity. }
    destruct Hc as (chunks & Hc). rewrite json_dumps_Dict, Hc. eexists; reflexivity.
Qed.

End Scanned.

(** * The fuel of the loops is never used up

    The loops of the scanner get a fuel above the length of what they
    read, and every round reads at least one character. So [OutOfFuel],
    which only an empty fuel raises, is not the result of [json.loads]:
    the fuel bounds nothing the code does not bound. *)

Section Fuel.
Context {RT : PyRuntime}.

Lemma strip_prefix_length (p s r : pystr) :
  strip_prefix p s = Some r -> List.length s = (List.length p + List.length r)%nat.
Proof.
  revert s. induction p as [|x p IH]; intros s; cbn.
  - now intros [= ->].
  - destruct s as [|y s]; [discriminate|].
    destruct (x =? y); [|discriminate]. intros H. cbn. now rewrite (IH _ H).
Qed.

Lemma take_digits_length (s d r : pystr) :
  take_digits s = (d, r) -> List.length s = (List.length d + List.length r)%nat.
Proof.
  revert d r. induction s as [|c s IH]; intros d r; cbn.
  - now intros [= <- <-].
  - destruct (is_digit c).
    + destruct (take_digits s) as [d' r']. intros [= <- <-]. cbn.
      now rewrite (IH _ _ eq_refl).
    + now intros [= <- <-].
Qed.

Lemma match_integer_length (s integer r : pystr) :
  match_integer s = Some (integer, r) -> (List.length r < List.length s)%nat.
Proof.
  unfold match_integer.
  assert (H : forall sign l,
    match l with
    | c :: s2 =>
        if c =? 48 then Some (sign ++ [48], s2)
        else if in_range 49 57 c then
          let '(d, r) := take_digits s2 in Some (sign ++ c :: d, r)
        else None
    | [] => None
    end = Some (integer, r) -> (List.length r < List.length l)%nat).
  { intros sign [|c s2]; [discriminate|].
    destruct (c =? 48); [intros [= <- <-]; cbn; lia|].
    destruct (in_range 49 57 c); [|discriminate].
    destruct (take_digits s2) as [d r'] eqn:E. intros [= <- <-].
    apply take_digits_length in E. cbn. lia. }
  destruct s as [|c s]; [discriminate|].
  destruct (c =? 45); intros Hm.
  - apply (H [45] s) in Hm. cbn. lia.
  - now apply (H [] (c :: s)) in Hm.
Qed.

Lemma match_frac_length (s frac r : pystr) :
  match_frac s = (frac, r) -> (List.length r <= List.length s)%nat.
Proof.
  unfold match_frac. destruct s as [|c s]; [now intros [= <- <-]|].
  destruct (c =? 46); [|now intros [= <- <-]].
  destruct (take_digits s) as [d r'] eqn:E. apply take_digits_length in E.
  destruct d; intros [= <- <-]; cbn in *; lia.
Qed.

Lemma match_exp_length (s exp r : pystr) :
  match_exp s = (exp, r) -> (List.length r <= List.length s)%nat.
Proof.
  unfold match_exp. destruct s as [|c s]; [now intros [= <- <-]|].
  destruct ((c =? 101) || (c =? 69)); [|now intros [= <- <-]].
  destruct s as [|c1 s].
  - cbn. now intros [= <- <-].
  - destruct ((c1 =? 45) || (c1 =? 43)).
    + destruct (take_digits s) as [d r'] eqn:E. apply take_digits_length in E.
      destruct d; intros [= <- <-]; cbn in *; lia.
    + destruct (take_digits (c1 :: s)) as [d r'] eqn:E.
      apply take_digits_length in E.
      destruct d; intros [= <- <-]; cbn in *; lia.
Qed.

Lemma match_number_length (s : pystr) groups (r : pystr) :
  match_number s = Some (groups, r) -> (List.length r < List.length s)%nat.
Proof.
  unfold match_number.
  destruct (match_integer s) as [[integer s1]|] eqn:Ei; [|discriminate].
  destruct (match_frac s1) as [frac s2] eqn:Ef.
  destruct (match_exp s2) as [exp s3] eqn:Ee.
  intros [= <- <-].
  apply match_integer_length in Ei. apply match_frac_length in Ef.
  apply match_exp_length in Ee. lia.
Qed.

Lemma skip_whitespace_length (s : pystr) :
  (List.length (skip_whitespace s) <= List.length s)%nat.
Proof.
  induction s as [|c s IH]; cbn; [lia|].
  destruct ((c =? 32) || (c =? 9) || (c =? 10) || (c =? 13)); cbn; lia.
Qed.

Lemma expect_length (c : Z) (s r : pystr) :
  expect c s = Ok r -> (List.length r < List.length s)%nat.
Proof.
  destruct s as [|x s]; [discriminate|]. cbn.
  destruct (x =? c); [|discriminate]. intros [= ->]. lia.
Qed.

Lemma expect_not_OutOfFuel (c : Z) (s : pystr) :
  expect c s <> Raise OutOfFuel.
Proof.
  destruct s as [|x s]; [discriminate|]. cbn. destruct (x =? c); discriminate.
Qed.

Lemma decode_uXXXX_length (s : pystr) (u : Z) (r : pystr) :
  decode_uXXXX s = Ok (u, r) -> (List.length r < List.length s)%nat.
Proof.
  unfold decode_uXXXX. destruct s as [|h1 [|h2 [|h3 [|h4 rest]]]]; try discriminate.
  destruct (hexval h1), (hexval h2), (hexval h3), (hexval h4); try discriminate.
  intros [= <- <-]. cbn. lia.
Qed.

Lemma decode_uXXXX_not_OutOfFuel (s : pystr) :
  decode_uXXXX s <> Raise OutOfFuel.
Proof.
  unfold decode_uXXXX. destruct s as [|h1 [|h2 [|h3 [|h4 rest]]]]; try discriminate.
  destruct (hexval h1), (hexval h2), (hexval h3), (hexval h4); discriminate.
Qed.

Lemma scan_unicode_escape_length (s : pystr) (u : Z) (r : pystr) :
  scan_unicode_escape s = Ok (u, r) -> (List.length r < List.length s)%nat.
Proof.
  unfold scan_unicode_escape.
  destruct (decode_uXXXX s) as [[uni rest]|e] eqn:E; [|discriminate].
  apply decode_uXXXX_length in E. cbn [bind].
  destruct (is_high_surrogate uni); [|intros [= <- <-]; lia].
  destruct (strip_prefix [92; 117] rest) as [rest2|] eqn:Ep;
    [|intros [= <- <-]; lia].
  apply strip_prefix_length in Ep.
  destruct (decode_uXXXX rest2) as [[uni2 rest3]|e] eqn:E2; [|discriminate].
  apply decode_uXXXX_length in E2. cbn [bind].
  destruct (is_low_surrogate uni2); intros [= <- <-]; cbn in *; lia.
Qed.

Lemma scan_unicode_escape_not_OutOfFuel (s : pystr) :
  scan_unicode_escape s <> Raise OutOfFuel.
Proof.
  unfold scan_unicode_escape.
  destruct (decode_uXXXX s) as [[uni rest]|e] eqn:E.
  - cbn [bind]. destruct (is_high_surrogate uni); [|discriminate].
    destruct (strip_prefix [92; 117] rest) as [rest2|]; [|discriminate].
    destruct (decode_uXXXX rest2) as [[uni2 rest3]|e] eqn:E2.
    + cbn [bind]. destruct (is_low_surrogate uni2); discriminate.
    + cbn [bind]. intros [= ->]. now apply (decode_uXXXX_not_OutOfFuel rest2).
  - cbn [bind]. intros [= ->]. now apply (decode_uXXXX_not_OutOfFuel s).
Qed.

Lemma scanstring_loop_length (fuel : nat) :
  forall s chunks str r,
    scanstring_loop fuel s chunks = Ok (str, r) ->
    (List.length r < List.length s)%nat.
Proof.
  induction fuel as [|fuel IH]; intros s chunks str r; [discriminate|].
  cbn [scanstring_loop]. destruct s as [|c s']; [discriminate|].
  destruct (c =? QUOTE); [intros [= <- <-]; cbn; lia|].
  destruct (c =? BACKSLASH_CHAR).
  - destruct s' as [|esc s'']; [discriminate|].
    destruct (esc =? 117).
    + destruct (scan_unicode_escape s'') as [[char rest]|e] eqn:E; [|discriminate].
      apply scan_unicode_escape_length in E. cbn [bind].
      intros H%IH. cbn. lia.
    + destruct (BACKSLASH esc); [|discriminate]. intros H%IH. cbn. lia.
  - destruct (in_range 0 31 c); [discriminate|]. intros H%IH. cbn. lia.
Qed.

Lemma scanstring_loop_not_OutOfFuel (fuel : nat) :
  forall s chunks,
    (List.length s < fuel)%nat ->
    scanstring_loop fuel s chunks <> Raise OutOfFuel.
Proof.
  induction fuel as [|fuel IH]; intros s chunks Hlen; [lia|].
  cbn [scanstring_loop]. destruct s as [|c s']; [discriminate|].
  cbn [List.length] in Hlen.
  destruct (c =? QUOTE); [discriminate|].
  destruct (c =? BACKSLASH_CHAR).
  - destruct s' as [|esc s'']; [discriminate|]. cbn [List.length] in Hlen.
    destruct (esc =? 117).
    + destruct (scan_unicode_escape s'') as [[char rest]|e] eqn:E.
      * apply scan_unicode_escape_length in E. cbn [bind]. apply IH. lia.
      * cbn [bind]. intros [= ->].
        now apply (scan_unicode_escape_not_OutOfFuel s'').
    + destruct (BACKSLASH esc); [|discriminate]. apply IH. lia.
  - destruct (in_range 0 31 c); [discriminate|]. apply IH. lia.
Qed.

Lemma scanstring_length (s str r : pystr) :
  scanstring s = Ok (str, r) -> (List.length r < List.length s)%nat.
Proof. apply scanstring_loop_length. Qed.

Lemma scanstring_not_OutOfFuel (s : pystr) :
  scanstring s <> Raise OutOfFuel.
Proof. apply scanstring_loop_not_OutOfFuel. lia. Qed.

Lemma expecting_value_not_OutOfFuel {A} (m : result A) :
  m <> Raise OutOfFuel -> expecting_value m <> Raise OutOfFuel.
Proof. destruct m as [a|[]]; cbn; congruence. Qed.

Section LoopsFuel.
Variable scan : pystr -> result (pyval * pystr).
Hypothesis scan_length :
  forall s v r, scan s = Ok (v, r) -> (List.length r < List.length s)%nat.
Hypothesis scan_fuel : forall s, scan s <> Raise OutOfFuel.

Lemma JSONArray_loop_length (fuel : nat) :
  forall s values v r,
    JSONArray_loop scan fuel s values = Ok (v, r) ->
    (List.length r < List.length s)%nat.
Proof.
  induction fuel as [|fuel IH]; intros s values v r; [discriminate|].
  cbn [JSONArray_loop].
  destruct (expecting_value (scan s)) as [[value s1]|e] eqn:E; [|discriminate].
  apply expecting_value_inv, scan_length in E. cbn [bind].
  pose proof (skip_whitespace_length s1) as Hw.
  destruct (skip_whitespace s1) as [|c s2]; [discriminate|]. cbn [List.length] in Hw.
  destruct (c =? 93); [intros [= <- <-]; lia|].
  destruct (c =? 44); [|discriminate].
  intros H%IH. pose proof (skip_whitespace_length s2). lia.
Qed.

Lemma JSONArray_loop_not_OutOfFuel (fuel : nat) :
  forall s values,
    (List.length s < fuel)%nat ->
    JSONArray_loop scan fuel s values <> Raise OutOfFuel.
Proof.
  induction fuel as [|fuel IH]; intros s values Hfuel; [lia|].
  cbn [JSONArray_loop].
  pose proof (expecting_value_not_OutOfFuel _ (scan_fuel s)) as Hs.
  destruct (expecting_value (scan s)) as [[value s1]|e] eqn:E;
    [|cbn [bind]; congruence].
  apply expecting_value_inv, scan_length in E. cbn [bind].
  pose proof (skip_whitespace_length s1) as Hw.
  destruct (skip_whitespace s1) as [|c s2]; [discriminate|]. cbn [List.length] in Hw.
  destruct (c =? 93); [discriminate|].
  destruct (c =? 44); [|discriminate].
  pose proof (skip_whitespace_length s2). apply IH; lia.
Qed.

Lemma JSONArray_length (s : pystr) (v : pyval) (r : pystr) :
  JSONArray scan s = Ok (v, r) -> (List.length r < List.length s)%nat.
Proof.
  unfold JSONArray. pose proof (skip_whitespace_length s) as Hw.
  destruct (skip_whitespace s) as [|c s1]; [discriminate|].
  destruct (c =? 93); [intros [= <- <-]; cbn in Hw; lia|].
  intros H%JSONArray_loop_length. lia.
Qed.

Lemma JSONArray_not_OutOfFuel (s : pystr) :
  JSONArray scan s <> Raise OutOfFuel.
Proof.
  unfold JSONArray. pose proof (skip_whitespace_length s) as Hw.
  destruct (skip_whitespace s) as [|c s1]; [discriminate|].
  destruct (c =? 93); [discriminate|].
  apply JSONArray_loop_not_OutOfFuel; lia.
Qed.

Lemma JSONObject_loop_length (fuel : nat) :
  forall s pairs v r,
    JSONObject_loop scan fuel s pairs = Ok (v, r) ->
    (List.length r < List.length s)%nat.
Proof.
  induction fuel as [|fuel IH]; intros s pairs v r; [discriminate|].
  cbn [JSONObject_loop].
  destruct (scanstring s) as [[key s1]|e] eqn:Ek; [|discriminate].
  apply scanstring_length in Ek. cbn [bind].
  pose proof (skip_whitespace_length s1).
  destruct (expect 58 (skip_whitespace s1)) as [s2|e] eqn:Ec; [|discriminate].
  apply expect_length in Ec. cbn [bind].
  pose proof (skip_whitespace_length s2).
  destruct (expecting_value (scan (skip_whitespace s2))) as [[value s3]|e] eqn:E;
    [|discriminate].
  apply expecting_value_inv, scan_length in E. cbn [bind].
  pose proof (skip_whitespace_length s3) as Hw.
  destruct (skip_whitespace s3) as [|c s4]; [discriminate|]. cbn [List.length] in Hw.
  destruct (c =? 125); [intros [= <- <-]; lia|].
  destruct (c =? 44); [|discriminate].
  pose proof (skip_whitespace_length s4).
  destruct (expect QUOTE (skip_whitespace s4)) as [s5|e] eqn:Eq; [|discriminate].
  apply expect_length in Eq. cbn [bind]. intros H'%IH. lia.
Qed.

Lemma JSONObject_loop_not_OutOfFuel (fuel : nat) :
  forall s pairs,
    (List.length s < fuel)%nat ->
    JSONObject_loop scan fuel s pairs <> Raise OutOfFuel.
Proof.
  induction fuel as [|fuel IH]; intros s pairs Hfuel; [lia|].
  cbn [JSONObject_loop].
  pose proof (scanstring_not_OutOfFuel s) as Hk.
  destruct (scanstring s) as [[key s1]|e] eqn:Ek; [|cbn [bind]; congruence].
  apply scanstring_length in Ek. cbn [bind].
  pose proof (skip_whitespace_length s1).
  pose proof (expect_not_OutOfFuel 58 (skip_whitespace s1)) as Hc.
  destruct (expect 58 (skip_whitespace s1)) as [s2|e] eqn:Ec; [|cbn [bind]; congruence].
  apply expect_length in Ec. cbn [bind].
  pose proof (skip_whitespace_length s2).
  assert (Hs : expecting_value (scan (skip_whitespace s2)) <> Raise OutOfFuel).
  { apply expecting_value_not_OutOfFuel, scan_fuel. }
  destruct (expecting_value (scan (skip_whitespace s2))) as [[value s3]|e] eqn:E;
    [|cbn [bind]; congruence].
  apply expecting_value_inv, scan_length in E. cbn [bind].
  pose proof (skip_whitespace_length s3) as Hw.
  destruct (skip_whitespace s3) as [|c s4]; [discriminate|]. cbn [List.length] in Hw.
  destruct (c =? 125); [discriminate|].
  destruct (c =? 44); [|discriminate].
  pose proof (skip_whitespace_length s4).
  pose proof (expect_not_OutOfFuel QUOTE (skip_whitespace s4)) as Hq.
  destruct (expect QUOTE (skip_whitespace s4)) as [s5|e] eqn:Eq;
    [|cbn [bind]; congruence].
  apply expect_length in Eq. cbn [bind]. apply IH; lia.
Qed.

Lemma JSONObject_length (s : pystr) (v : pyval) (r : pystr) :
  JSONObject scan s = Ok (v, r) -> (List.length r < List.length s)%nat.
Proof.
  unfold JSONObject. pose proof (skip_whitespace_length s) as Hw.
  destruct (skip_whitespace s) as [|c s1]; [discriminate|]. cbn [List.length] in Hw.
  destruct (c =? 125); [intros [= <- <-]; lia|].
  destruct (c =? QUOTE); [|discriminate].
  intros H%JSONObject_loop_length. lia.
Qed.

Lemma JSONObject_not_OutOfFuel (s : pystr) :
  JSONObject scan s <> Raise OutOfFuel.
Proof.
  unfold JSONObject. pose proof (skip_whitespace_length s) as Hw.
  destruct (skip_whitespace s) as [|c s1]; [discriminate|]. cbn [List.length] in Hw.
  destruct (c =? 125); [discriminate|].
  destruct (c =? QUOTE); [|discriminate].
  apply JSONObject_loop_not_OutOfFuel; lia.
Qed.

End LoopsFuel.

Lemma scan_once_length (n : nat) :
  forall s v r, scan_once n s = Ok (v, r) -> (List.length r < List.length s)%nat.
Proof.
  assert (Hscalar : forall s v r,
            scan_once 0 s = Ok (v, r) -> (List.length r < List.length s)%nat).
  { intros s v r. cbn [scan_once]. destruct s as [|c s']; [discriminate|].
    destruct (c =? QUOTE).
    { destruct (scanstring s') as [[str rest]|e] eqn:E; [|discriminate].
      apply scanstring_length in E. intros [= <- <-]. cbn. lia. }
    destruct (c =? 123); [discriminate|].
    destruct (c =? 91); [discriminate|].
    destruct (strip_prefix (lit "null") (c :: s')) eqn:E1.
    { apply strip_prefix_length in E1. intros [= <- <-]. rewrite E1. cbn. lia. }
    destruct (strip_prefix (lit "true") (c :: s')) eqn:E2.
    { apply strip_prefix_length in E2. intros [= <- <-]. rewrite E2. cbn. lia. }
    destruct (strip_prefix (lit "false") (c :: s')) eqn:E3.
    { apply strip_prefix_length in E3. intros [= <- <-]. rewrite E3. cbn. lia. }
    destruct (match_number (c :: s')) as [[[[integer frac] exp] rest]|] eqn:E4.
    { apply match_number_length in E4.
      destruct (number_value integer frac exp); [|discriminate].
      now intros [= <- <-]. }
    destruct (strip_prefix (lit "NaN") (c :: s')) eqn:E5.
    { apply strip_prefix_length in E5. intros [= <- <-]. rewrite E5. cbn. lia. }
    destruct (strip_prefix (lit "Infinity") (c :: s')) eqn:E6.
    { apply strip_prefix_length in E6. intros [= <- <-]. rewrite E6. cbn. lia. }
    destruct (strip_prefix (lit "-Infinity") (c :: s')) eqn:E7.
    { apply strip_prefix_length in E7. intros [= <- <-]. rewrite E7. cbn. lia. }
    discriminate. }
  induction n as [|n IH]; intros s v r; [apply Hscalar|].
  cbn [scan_once]. destruct s as [|c s']; [discriminate|].
  destruct (c =? QUOTE) eqn:Eq.
  { intros H. apply (Hscalar (c :: s') v r). cbn [scan_once]. now rewrite Eq. }
  destruct (c =? 123) eqn:Eo.
  { intros H. apply (JSONObject_length _ IH) in H. cbn. lia. }
  destruct (c =? 91) eqn:Ea.
  { intros H. apply (JSONArray_length _ IH) in H. cbn. lia. }
  intros H. apply (Hscalar (c :: s') v r). cbn [scan_once].
  now rewrite Eq, Eo, Ea.
Qed.

Lemma number_value_not_OutOfFuel (integer frac exp : pystr) :
  number_value integer frac exp <> Raise OutOfFuel.
Proof.
  unfold number_value, py_int. destruct (frac ++ exp); [|discriminate].
  destruct (MAX_STR_DIGITS <? int_digits integer)%nat; discriminate.
Qed.

Lemma scan_once_not_OutOfFuel (n : nat) :
  forall s, scan_once n s <> Raise OutOfFuel.
Proof.
  induction n as [|n IH]; intros s;
    (destruct s as [|c s']; [discriminate|]); cbn [scan_once];
    (destruct (c =? QUOTE);
     [pose proof (scanstring_not_OutOfFuel s') as Hs;
      destruct (scanstring s') as [[str rest]|e]; cbn [bind];
      [discriminate|congruence]|]);
    (destruct (c =? 123);
     [first [discriminate
            |apply (JSONObject_not_OutOfFuel _ (scan_once_length n) IH)]|]);
    (destruct (c =? 91);
     [first [discriminate
            |apply (JSONArray_not_OutOfFuel _ (scan_once_length n) IH)]|]);
    (destruct (strip_prefix (lit "null") (c :: s')); [discriminate|]);
    (destruct (strip_prefix (lit "true") (c :: s')); [discriminate|]);
    (destruct (strip_prefix (lit "false") (c :: s')); [discriminate|]);
    (destruct (match_number (c :: s')) as [[[[integer frac] exp] rest]|];
     [pose proof (number_value_not_OutOfFuel integer frac exp) as Hv;
      destruct (number_value integer frac exp); cbn [bind];
      [discriminate|congruence]|]);
    (destruct (strip_prefix (lit "NaN") (c :: s')); [discriminate|]);
    (destruct (strip_prefix (lit "Infinity") (c :: s')); [discriminate|]);
    destruct (strip_prefix (lit "-Infinity") (c :: s')); discriminate.
Qed.

Lemma decode_not_OutOfFuel (s : pystr) : decode s <> Raise OutOfFuel.
Proof.
  unfold decode.
  assert (H : expecting_value (scan_once recursion_room (skip_whitespace s))
              <> Raise OutOfFuel).
  { apply expecting_value_not_OutOfFuel, scan_once_not_OutOfFuel. }
  destruct (expecting_value _) as [[obj rest]|e]; cbn [bind]; [|congruence].
  destruct (skip_whitespace rest); discriminate.
Qed.

Lemma utf8_decode_codes_not_OutOfFuel (sp : bool) (b : list Z) :
  utf8_decode_codes sp b <> Raise OutOfFuel.
Proof.
  assert (H : forall e, utf8_decode_codes sp b = Raise e -> e = UnicodeDecodeError).
  { remember (List.length b) as len eqn:Hlen.
    revert b Hlen. induction len as [len IH] using lt_wf_ind. intros b Hlen e.
    destruct b as [|b0 t0]; [discriminate|]. cbn [utf8_decode_codes].
    assert (Hrec : forall t, (List.length t < len)%nat -> forall x : Z,
              (rest <- utf8_decode_codes sp t ;; Ok (x :: rest)) = Raise e ->
              e = UnicodeDecodeError).
    { intros t Ht x. destruct (utf8_decode_codes sp t) eqn:E; [discriminate|].
      cbn [bind]. intros [= <-]. eapply IH; eauto. }
    cbn [List.length] in Hlen.
    destruct (in_range 0 127 b0); [apply Hrec; lia|].
    destruct (in_range 194 223 b0).
    { destruct t0 as [|b1 t1]; [now intros [= <-]|].
      destruct (is_continuation b1); [apply Hrec; cbn in *; lia|now intros [= <-]]. }
    destruct (in_range 224 239 b0).
    { destruct t0 as [|b1 [|b2 t2]]; try (now intros [= <-]).
      destruct (utf8_second_of_3 sp b0 b1 && is_continuation b2);
        [apply Hrec; cbn in *; lia|now intros [= <-]]. }
    destruct (in_range 240 244 b0).
    { destruct t0 as [|b1 [|b2 [|b3 t3]]]; try (now intros [= <-]).
      destruct (utf8_second_of_4 b0 b1 && is_continuation b2 && is_continuation b3);
        [apply Hrec; cbn in *; lia|now intros [= <-]]. }
    now intros [= <-]. }
  intros E. apply H in E. discriminate.
Qed.

Lemma utf16_units_not_OutOfFuel (le : bool) (b : list Z) :
  utf16_units le b <> Raise OutOfFuel.
Proof.
  assert (H : forall e, utf16_units le b = Raise e -> e = UnicodeDecodeError).
  { remember (List.length b) as len eqn:Hlen.
    revert b Hlen. induction len as [len IH] using lt_wf_ind. intros b Hlen e.
    destruct b as [|b0 [|b1 t]]; [discriminate|now intros [= <-]|].
    cbn [utf16_units]. destruct (utf16_units le t) eqn:E; [discriminate|].
    cbn [bind]. intros [= <-]. eapply (IH (List.length t)); eauto.
    subst len. cbn. lia. }
  intros E. apply H in E. discriminate.
Qed.

Lemma utf32_decode_not_OutOfFuel (le : bool) (b : list Z) :
  utf32_decode le b <> Raise OutOfFuel.
Proof.
  assert (H : forall e, utf32_decode le b = Raise e -> e = UnicodeDecodeError).
  { remember (List.length b) as len eqn:Hlen.
    revert b Hlen. induction len as [len IH] using lt_wf_ind. intros b Hlen e.
    destruct b as [|b0 [|b1 [|b2 [|b3 t]]]]; try discriminate;
      try (now intros [= <-]).
    cbn [utf32_decode].
    match goal with |- context [if ?c then _ else _] => destruct c end;
      [|now intros [= <-]].
    destruct (utf32_decode le t) eqn:E; [discriminate|].
    cbn [bind]. intros [= <-]. eapply (IH (List.length t)); eauto.
    subst len. cbn. lia. }
  intros E. apply H in E. discriminate.
Qed.

Lemma decode_surrogatepass_not_OutOfFuel (enc : encoding) (b : list Z) :
  decode_surrogatepass enc b <> Raise OutOfFuel.
Proof.
  assert (H16 : forall le x, utf16_decode le x <> Raise OutOfFuel).
  { intros le x. unfold utf16_decode.
    pose proof (utf16_units_not_OutOfFuel le x).
    destruct (utf16_units le x); cbn [bind]; [discriminate|congruence]. }
  destruct enc; cbn [decode_surrogatepass];
    auto using utf8_decode_codes_not_OutOfFuel, utf32_decode_not_OutOfFuel.
Qed.

(** The fuel is enough: [json.loads] of the model never ends for lack of
    it. *)
Lemma json_loads_not_OutOfFuel (raw : pybytes) :
  json_loads raw <> Raise OutOfFuel.
Proof.
  unfold json_loads.
  pose proof (decode_surrogatepass_not_OutOfFuel
                (detect_encoding (map b2z raw)) (map b2z raw)) as H.
  destruct (decode_surrogatepass _ _) as [s|e]; cbn [bind]; [|congruence].
  apply decode_not_OutOfFuel.
Qed.

End Fuel.

(** * [json.loads] accepts every JSON text within the limits *)

Section Grammar.
Context {RT : PyRuntime}.

(** ** White space *)

Lemma skip_whitespace_ws (w s : pystr) :
  rfc_ws w -> skip_whitespace (w ++ s) = skip_whitespace s.
Proof.
  unfold rfc_ws. induction w as [|c w IH]; [reflexivity|]. cbn [forallb app].
  intros [Hc Hw]%andb_true_iff. cbn [skip_whitespace].
  unfold is_ws in Hc. rewrite Hc. auto.
Qed.

Lemma skip_whitespace_ws_only (w : pystr) : rfc_ws w -> skip_whitespace w = [].
Proof.
  intros H. rewrite <- (List.app_nil_r w). now rewrite skip_whitespace_ws.
Qed.

Lemma skip_whitespace_head (c : Z) (s : pystr) :
  is_ws c = false -> skip_whitespace (c :: s) = c :: s.
Proof. unfold is_ws. cbn. now intros ->. Qed.

Lemma value_follow_ws (w s : pystr) :
  rfc_ws w -> value_follow s = true -> value_follow (w ++ s) = true.
Proof.
  unfold rfc_ws. destruct w as [|c w]; [auto|]. cbn [forallb app].
  intros [Hc _]%andb_true_iff _. unfold is_ws in Hc. cbn. unfold is_digit. lia.
Qed.

(** ** Numbers *)

Lemma take_digits_all (ds r : pystr) :
  forallb is_digit ds = true ->
  digit_free_head r = true ->
  take_digits (ds ++ r) = (ds, r).
Proof.
  intros Hd Hr. induction ds as [|d ds IH]; cbn [app].
  - destruct r as [|c r]; [reflexivity|]. cbn in *.
    apply negb_true_iff in Hr. now rewrite Hr.
  - cbn [forallb] in Hd. apply andb_true_iff in Hd as [Hd1 Hd2].
    cbn [take_digits]. now rewrite Hd1, (IH Hd2).
Qed.

Lemma rfc_exp_head (exp : pystr) :
  rfc_exp exp -> digit_free_head exp = true /\ match_frac exp = ([], exp).
Proof.
  intros [|e sign ds [-> | ->] _ _]; split; reflexivity.
Qed.

Lemma match_exp_rfc (exp : pystr) : rfc_exp exp -> match_exp exp = (exp, []).
Proof.
  intros [|e sign ds He Hs [Hne Hd]]; [reflexivity|].
  assert (Ht : take_digits ds = (ds, [])).
  { rewrite <- (List.app_nil_r ds) at 1. now apply take_digits_all. }
  destruct ds as [|d ds]; [congruence|].
  assert (Hd1 : is_digit d = true) by (cbn in Hd; now apply andb_true_iff in Hd).
  assert (Hsg : ((d =? 45) || (d =? 43)) = false) by (unfold is_digit in Hd1; lia).
  unfold match_exp.
  assert (((e =? 101) || (e =? 69)) = true) as -> by lia.
  destruct Hs as [-> | [-> | ->]]; cbn [app].
  - rewrite Hsg, Ht. reflexivity.
  - change ((45 =? 45) || (45 =? 43)) with true. cbv iota. rewrite Ht. reflexivity.
  - change ((43 =? 45) || (43 =? 43)) with true. cbv iota. rewrite Ht. reflexivity.
Qed.

Lemma match_frac_rfc (frac exp : pystr) :
  rfc_frac frac -> rfc_exp exp -> match_frac (frac ++ exp) = (frac, exp).
Proof.
  intros [|ds [Hne Hd]] He; destruct (rfc_exp_head _ He) as [Hh Hf].
  - exact Hf.
  - cbn [app]. unfold match_frac. change (46 =? 46) with true. cbv iota.
    rewrite (take_digits_all ds exp Hd Hh). destruct ds; [congruence|reflexivity].
Qed.

Lemma match_integer_rfc (minus integer r : pystr) :
  minus = [] \/ minus = [45] ->
  rfc_int integer ->
  digit_free_head r = true ->
  match_integer (minus ++ integer ++ r) = Some (minus ++ integer, r).
Proof.
  intros Hm Hi Hr.
  assert (Hcore : forall sign,
    match integer ++ r with
    | c :: s2 =>
        if c =? 48 then Some (sign ++ [48], s2)
        else if in_range 49 57 c then
          let '(d, r) := take_digits s2 in Some (sign ++ c :: d, r)
        else None
    | [] => None
    end = Some (sign ++ integer, r)).
  { intros sign. destruct Hi as [|d ds Hd Hds]; cbn [app].
    - reflexivity.
    - assert ((d =? 48) = false) as -> by (unfold in_range in Hd; lia).
      rewrite Hd, (take_digits_all ds r Hds Hr). reflexivity. }
  unfold match_integer. destruct Hm as [-> | ->]; cbn [app].
  - destruct (integer ++ r) as [|c s2] eqn:E; [now specialize (Hcore [])|].
    assert ((c =? 45) = false) as ->.
    { destruct Hi as [|d ds Hd Hds]; cbn in E; inversion E; subst;
        [reflexivity|unfold in_range in Hd; lia]. }
    exact (Hcore []).
  - change (45 =? 45) with true. cbv iota. exact (Hcore [45]).
Qed.

Lemma match_number_groups (minus integer frac exp : pystr) :
  minus = [] \/ minus = [45] ->
  rfc_int integer -> rfc_frac frac -> rfc_exp exp ->
  match_number (minus ++ integer ++ frac ++ exp)
  = Some ((minus ++ integer, frac, exp), []).
Proof.
  intros Hm Hi Hf He. unfold match_number.
  rewrite match_integer_rfc; auto.
  - now rewrite (match_frac_rfc _ _ Hf He), (match_exp_rfc _ He).
  - destruct Hf as [|ds _]; [apply (rfc_exp_head _ He)|reflexivity].
Qed.

Lemma match_number_rfc (s : pystr) :
  rfc_number s ->
  exists integer frac exp, match_number s = Some ((integer, frac, exp), []).
Proof.
  intros [minus integer frac exp Hm Hi Hf He].
  exists (minus ++ integer), frac, exp. now apply match_number_groups.
Qed.

Lemma rfc_number_within_rfc (s : pystr) : rfc_number_within s -> rfc_number s.
Proof. intros [minus integer frac exp Hm Hi Hf He _]. now constructor. Qed.

Lemma int_digits_head (c : Z) (s : pystr) :
  c <> 45 -> int_digits (c :: s) = S (List.length s).
Proof.
  intros Hc. destruct c as [|q|q]; try reflexivity.
  do 6 (destruct q as [q|q|]; try reflexivity). congruence.
Qed.

(** The digits of an integer of the grammar, with its sign or without. *)
Lemma int_digits_rfc (minus integer : pystr) :
  minus = [] \/ minus = [45] ->
  rfc_int integer ->
  int_digits (minus ++ integer) = List.length integer.
Proof.
  intros [-> | ->] Hi; [|reflexivity]. cbn [app].
  destruct Hi as [|d ds Hd _]; [reflexivity|].
  apply int_digits_head. unfold in_range in Hd. lia.
Qed.

Lemma accepts_number (room : nat) (s : pystr) :
  rfc_number_within s -> accepts room s.
Proof.
  intros [minus integer frac exp Hm Hi Hf He Hd] rest n Hfo _.
  pose proof (match_number_groups _ _ _ _ Hm Hi Hf He) as Hg.
  rewrite (scan_once_number n _ _ _ _ _ (match_number_app _ _ _ _ Hfo Hg)).
  unfold number_value. destruct (frac ++ exp) as [|c tail].
  - unfold py_int. rewrite (int_digits_rfc _ _ Hm Hi).
    destruct (Nat.ltb_spec MAX_STR_DIGITS (List.length integer)) as [Hlt|_].
    + specialize (Hd eq_refl). lia.
    + eexists; reflexivity.
  - eexists; reflexivity.
Qed.

(** ** Strings *)

Lemma decode_uXXXX_hexdig (h1 h2 h3 h4 : Z) (s : pystr) :
  is_hexdig h1 = true -> is_hexdig h2 = true ->
  is_hexdig h3 = true -> is_hexdig h4 = true ->
  exists uni, decode_uXXXX (h1 :: h2 :: h3 :: h4 :: s) = Ok (uni, s).
Proof.
  unfold is_hexdig, decode_uXXXX.
  destruct (hexval h1), (hexval h2), (hexval h3), (hexval h4);
    try discriminate. intros _ _ _ _. eexists; reflexivity.
Qed.

Lemma BACKSLASH_escape (c : Z) :
  is_escape c = true -> (c =? 117) = false /\ exists char, BACKSLASH c = Some char.
Proof.
  unfold is_escape, BACKSLASH. intros H. split; [lia|].
  repeat match goal with
         | |- context [if ?b then _ else _] => destruct b eqn:?
         end; try (eexists; reflexivity). lia.
Qed.

(** The scanning loop reaches the closing quote of a string of the
    grammar. The induction is on the length of the string, as a surrogate
    pair written as two escapes is read in one round. *)
Lemma scanstring_loop_rfc (m : nat) :
  forall (k : pystr),
    (List.length k <= m)%nat ->
    rfc_chars k ->
    forall (rest chunks : pystr) (fuel : nat),
      (List.length k < fuel)%nat ->
      exists str, scanstring_loop fuel (k ++ QUOTE :: rest) chunks = Ok (str, rest).
Proof.
  induction m as [|m IH]; intros k Hm Hk rest chunks fuel Hfuel.
  - destruct k; [|cbn in Hm; lia]. destruct fuel; [cbn in Hfuel; lia|].
    eexists; reflexivity.
  - destruct fuel as [|fuel]; [lia|].
    destruct Hk as [|c s Hc Hs|c s Hc Hs|h1 h2 h3 h4 s H1 H2 H3 H4 Hs].
    + eexists; reflexivity.
    + cbn [app scanstring_loop List.length] in *.
      unfold is_unescaped, in_range in Hc. unfold QUOTE, BACKSLASH_CHAR, in_range.
      assert ((c =? 34) = false) as -> by lia.
      assert ((c =? 92) = false) as -> by lia.
      assert (((0 <=? c) && (c <=? 31)) = false) as -> by lia.
      apply IH; [lia|assumption|lia].
    + cbn [app scanstring_loop List.length] in *.
      change (92 =? QUOTE) with false. change (92 =? BACKSLASH_CHAR) with true.
      cbv iota. destruct (BACKSLASH_escape c Hc) as (-> & char & ->).
      apply IH; [lia|assumption|lia].
    + cbn [app scanstring_loop List.length] in *.
      change (92 =? QUOTE) with false. change (92 =? BACKSLASH_CHAR) with true.
      change (117 =? 117) with true. cbv iota.
      destruct (decode_uXXXX_hexdig h1 h2 h3 h4 (s ++ QUOTE :: rest) H1 H2 H3 H4)
        as (uni & Hu).
      unfold scan_unicode_escape. rewrite Hu. cbn [bind].
      assert (Hplain : forall char, exists str,
                 scanstring_loop fuel (s ++ QUOTE :: rest) (char :: chunks)
                 = Ok (str, rest)).
      { intros char. apply IH; [lia|assumption|lia]. }
      destruct (is_high_surrogate uni); [|apply Hplain].
      destruct (strip_prefix [92; 117] (s ++ QUOTE :: rest)) as [rest2|] eqn:Ep;
        [|apply Hplain].
      destruct Hs as [|c' s' Hc' Hs'|c' s' Hc' Hs'|g1 g2 g3 g4 s' G1 G2 G3 G4 Hs'].
      * discriminate Ep.
      * cbn [strip_prefix app] in Ep. unfold is_unescaped, in_range in Hc'.
        destruct (Z.eqb_spec 92 c'); [lia|discriminate Ep].
      * cbn [strip_prefix app] in Ep. change (92 =? 92) with true in Ep.
        cbv iota in Ep. destruct (BACKSLASH_escape c' Hc') as (Hne & _).
        rewrite Z.eqb_sym, Hne in Ep. discriminate Ep.
      * cbn [strip_prefix app] in Ep. change (92 =? 92) with true in Ep.
        change (117 =? 117) with true in Ep. cbv iota in Ep.
        inversion Ep; subst rest2; clear Ep.
        destruct (decode_uXXXX_hexdig g1 g2 g3 g4 (s' ++ QUOTE :: rest) G1 G2 G3 G4)
          as (uni2 & Hu2).
        rewrite Hu2. cbn [bind].
        destruct (is_low_surrogate uni2).
        -- apply IH; [cbn in Hm; lia|assumption|cbn in Hfuel; lia].
        -- apply (Hplain uni).
Qed.

Lemma scanstring_rfc (k rest : pystr) :
  rfc_chars k -> exists str, scanstring (k ++ QUOTE :: rest) = Ok (str, rest).
Proof.
  intros Hk. apply (scanstring_loop_rfc (List.length k)); auto.
  rewrite length_app. cbn. lia.
Qed.

Lemma accepts_string (room : nat) (s : pystr) :
  rfc_chars s -> accepts room (QUOTE :: s ++ [QUOTE]).
Proof.
  intros Hs rest [|n] _ _;
    cbn [app scan_once]; rewrite Z.eqb_refl, <- List.app_assoc; cbn [app];
    destruct (scanstring_rfc s rest Hs) as (str & ->); eexists; reflexivity.
Qed.

(** ** Values, elements and members *)

Lemma value_start_not_ws (s : pystr) :
  value_start s = true -> exists c x, s = c :: x /\ is_ws c = false /\ c <> 93 /\ c <> 125.
Proof.
  destruct s as [|c x]; [discriminate|]. cbn. unfold is_digit, is_ws. intros H.
  exists c, x. repeat split; lia.
Qed.

Local Ltac lengths :=
  repeat (progress (rewrite ?length_app in *; cbn [List.length] in * )); lia.

Lemma element_step (w v w' tail : pystr) (room n : nat) :
  rfc_ws w -> value_start v = true -> accepts room v -> rfc_ws w' ->
  value_follow tail = true ->
  (room <= n)%nat ->
  skip_whitespace (w ++ v ++ w' ++ tail) = v ++ w' ++ tail
  /\ exists value,
       scan_once n (v ++ w' ++ tail) = Ok (value, w' ++ tail)
       /\ skip_whitespace (w' ++ tail) = skip_whitespace tail.
Proof.
  intros Hw Hs Hv Hw' Ht Hn. split.
  - rewrite (skip_whitespace_ws _ _ Hw).
    apply skip_whitespace_value_start, value_start_app, Hs.
  - destruct (Hv (w' ++ tail) n) as (value & Hval).
    + now apply value_follow_ws.
    + assumption.
    + exists value. split; [assumption|]. now apply skip_whitespace_ws.
Qed.

(** The scanner accepts the values of the grammar that are within the
    limits. *)
Lemma grammar_accepted :
  (forall room s, rfc_value_within room s -> value_start s = true /\ accepts room s)
  /\ (forall room s, rfc_elements_within room s -> elements_accepted room s)
  /\ (forall room s, rfc_members_within room s -> members_accepted room s).
Proof.
  apply rfc_within_mutual_ind.
  - (* null *)
    intros room. split; [reflexivity|]. intros rest [|n] _ _; eexists; reflexivity.
  - (* true *)
    intros room. split; [reflexivity|]. intros rest [|n] _ _; eexists; reflexivity.
  - (* false *)
    intros room. split; [reflexivity|]. intros rest [|n] _ _; eexists; reflexivity.
  - (* number *)
    intros room s Hs. split; [|now apply accepts_number].
    destruct (match_number_rfc s (rfc_number_within_rfc s Hs)) as (i & f & e & Hm).
    destruct (match_number_head _ _ _ Hm) as (c & s' & -> & Hc).
    cbn. unfold is_digit. lia.
  - (* string *)
    intros room s Hs. split; [reflexivity|now apply accepts_string].
  - (* empty array *)
    intros room w Hw. split; [reflexivity|]. intros rest [|n] _ Hn; [lia|].
    cbn [app scan_once]. change (91 =? QUOTE) with false.
    change (91 =? 123) with false. change (91 =? 91) with true. cbv iota.
    unfold JSONArray. rewrite <- List.app_assoc, (skip_whitespace_ws _ _ Hw).
    eexists; reflexivity.
  - (* array *)
    intros room s _ IH. split; [reflexivity|]. intros rest [|n] _ Hn; [lia|].
    cbn [app scan_once]. change (91 =? QUOTE) with false.
    change (91 =? 123) with false. change (91 =? 91) with true. cbv iota.
    unfold JSONArray. rewrite <- List.app_assoc. cbn [app].
    destruct (IH rest) as [Hstart Hloop].
    destruct (value_start_not_ws _ Hstart) as (c & x & E & _ & Hc & _).
    destruct (Hloop n (S (List.length (s ++ 93 :: rest))) []) as (v & Hv);
      [lia|lia|].
    rewrite E in *. destruct (Z.eqb_spec c 93); [contradiction|].
    exists v. exact Hv.
  - (* empty object *)
    intros room w Hw. split; [reflexivity|]. intros rest [|n] _ Hn; [lia|].
    cbn [app scan_once]. change (123 =? QUOTE) with false.
    change (123 =? 123) with true. cbv iota.
    unfold JSONObject. rewrite <- List.app_assoc, (skip_whitespace_ws _ _ Hw).
    eexists; reflexivity.
  - (* object *)
    intros room s _ IH. split; [reflexivity|]. intros rest [|n] _ Hn; [lia|].
    cbn [app scan_once]. change (123 =? QUOTE) with false.
    change (123 =? 123) with true. cbv iota.
    unfold JSONObject. rewrite <- List.app_assoc. cbn [app].
    destruct (IH rest) as (x & E & Hloop).
    destruct (Hloop n (S (List.length (s ++ 125 :: rest))) []) as (v & Hv);
      [lia|lia|].
    rewrite E. change (QUOTE =? 125) with false. rewrite Z.eqb_refl.
    exists v. exact Hv.
  - (* one element *)
    intros room w v w' Hw _ [Hs Hv] Hw' rest.
    replace ((w ++ v ++ w') ++ 93 :: rest) with (w ++ v ++ w' ++ 93 :: rest)
      by (now rewrite <- !List.app_assoc).
    split.
    { rewrite (skip_whitespace_ws _ _ Hw).
      rewrite skip_whitespace_value_start; apply value_start_app, Hs. }
    intros n fuel values Hn Hfuel.
    destruct (element_step w v w' (93 :: rest) room n Hw Hs Hv Hw' eq_refl Hn)
      as (-> & value & Hval & Hskip).
    destruct fuel as [|fuel]; [lia|]. cbn [JSONArray_loop].
    rewrite Hval, expecting_value_Ok, bind_Ok. cbv beta iota.
    rewrite Hskip. eexists; reflexivity.
  - (* more elements *)
    intros room w v w' s Hw _ [Hs Hv] Hw' _ IH rest.
    replace ((w ++ v ++ w' ++ 44 :: s) ++ 93 :: rest)
      with (w ++ v ++ w' ++ 44 :: (s ++ 93 :: rest))
      by (now rewrite <- !List.app_assoc).
    split.
    { rewrite (skip_whitespace_ws _ _ Hw).
      rewrite skip_whitespace_value_start; apply value_start_app, Hs. }
    intros n fuel values Hn Hfuel.
    destruct (element_step w v w' (44 :: s ++ 93 :: rest) room n Hw Hs Hv Hw' eq_refl Hn)
      as (-> & value & Hval & Hskip).
    destruct fuel as [|fuel]; [lia|]. cbn [JSONArray_loop].
    rewrite Hval, expecting_value_Ok, bind_Ok. cbv beta iota.
    rewrite Hskip, skip_whitespace_comma.
    change (44 =? 93) with false. change (44 =? 44) with true. cbv iota.
    destruct (IH rest) as [_ Hloop]. apply Hloop; [assumption|lengths].
  - (* one member *)
    intros room w k w1 w2 v w3 Hw Hk Hw1 Hw2 _ [Hs Hv] Hw3 rest.
    replace ((w ++ QUOTE :: k ++ QUOTE :: w1 ++ 58 :: w2 ++ v ++ w3) ++ 125 :: rest)
      with (w ++ QUOTE :: (k ++ QUOTE :: (w1 ++ 58 :: (w2 ++ v ++ w3 ++ 125 :: rest))))
      by (repeat (progress (rewrite <- ?List.app_assoc; cbn [app])); reflexivity).
    eexists. split.
    { rewrite (skip_whitespace_ws _ _ Hw). apply skip_whitespace_quote. }
    intros n fuel pairs Hn Hfuel.
    destruct fuel as [|fuel]; [lia|]. cbn [JSONObject_loop].
    destruct (scanstring_rfc k (w1 ++ 58 :: w2 ++ v ++ w3 ++ 125 :: rest) Hk)
      as (key & ->).
    rewrite bind_Ok. cbv beta iota.
    rewrite (skip_whitespace_ws _ _ Hw1), skip_whitespace_colon, expect_head, bind_Ok.
    destruct (element_step w2 v w3 (125 :: rest) room n Hw2 Hs Hv Hw3 eq_refl Hn)
      as (-> & value & Hval & Hskip).
    rewrite Hval, expecting_value_Ok, bind_Ok. cbv beta iota.
    rewrite Hskip. eexists; reflexivity.
  - (* more members *)
    intros room w k w1 w2 v w3 s Hw Hk Hw1 Hw2 _ [Hs Hv] Hw3 _ IH rest.
    replace ((w ++ QUOTE :: k ++ QUOTE :: w1 ++ 58 :: w2 ++ v ++ w3 ++ 44 :: s)
               ++ 125 :: rest)
      with (w ++ QUOTE :: (k ++ QUOTE :: (w1 ++ 58 ::
              (w2 ++ v ++ w3 ++ 44 :: (s ++ 125 :: rest)))))
      by (repeat (progress (rewrite <- ?List.app_assoc; cbn [app])); reflexivity).
    eexists. split.
    { rewrite (skip_whitespace_ws _ _ Hw). apply skip_whitespace_quote. }
    intros n fuel pairs Hn Hfuel.
    destruct fuel as [|fuel]; [lia|]. cbn [JSONObject_loop].
    destruct (scanstring_rfc k (w1 ++ 58 :: w2 ++ v ++ w3 ++ 44 :: s ++ 125 :: rest) Hk)
      as (key & ->).
    rewrite bind_Ok. cbv beta iota.
    rewrite (skip_whitespace_ws _ _ Hw1), skip_whitespace_colon, expect_head, bind_Ok.
    destruct (element_step w2 v w3 (44 :: s ++ 125 :: rest) room n Hw2 Hs Hv Hw3 eq_refl Hn)
      as (-> & value & Hval & Hskip).
    rewrite Hval, expecting_value_Ok, bind_Ok. cbv beta iota.
    rewrite Hskip, skip_whitespace_comma.
    change (44 =? 125) with false. change (44 =? 44) with true. cbv iota.
    destruct (IH rest) as (x & -> & Hloop).
    rewrite expect_head, bind_Ok. apply Hloop; [assumption|lengths].
Qed.

(** The texts within the limits are texts of the grammar. *)
Lemma rfc_within_rfc :
  (forall room s, rfc_value_within room s -> rfc_value s)
  /\ (forall room s, rfc_elements_within room s -> rfc_elements s)
  /\ (forall room s, rfc_members_within room s -> rfc_members s).
Proof.
  apply rfc_within_mutual_ind; intros; try (now constructor).
  apply value_number. now apply rfc_number_within_rfc.
Qed.

Lemma rfc_json_text_within_rfc (room : nat) (t : pystr) :
  rfc_json_text_within room t -> rfc_json_text t.
Proof.
  intros (w & v & w' & Hw & Hv & Hw' & ->).
  exists w, v, w'. repeat split; try assumption.
  exact (proj1 rfc_within_rfc room v Hv).
Qed.

Lemma valid_json_within_valid_json (room : nat) (raw : pybytes) :
  valid_json_within room raw -> valid_json raw.
Proof.
  intros (t & Hd & Ht). exists t. split; [assumption|].
  exact (rfc_json_text_within_rfc room t Ht).
Qed.

(** More room does no harm. *)
Lemma rfc_within_le :
  (forall room s, rfc_value_within room s ->
     forall room', (room <= room')%nat -> rfc_value_within room' s)
  /\ (forall room s, rfc_elements_within room s ->
       forall room', (room <= room')%nat -> rfc_elements_within room' s)
  /\ (forall room s, rfc_members_within room s ->
       forall room', (room <= room')%nat -> rfc_members_within room' s).
Proof.
  apply rfc_within_mutual_ind; intros;
    try match goal with
        | H : (S _ <= ?r)%nat |- _ => destruct r as [|r]; [lia|]
        end.
  - apply within_null.
  - apply within_true.
  - apply within_false.
  - now apply within_number.
  - now apply within_string.
  - now apply within_array_empty.
  - apply within_array. auto with arith.
  - now apply within_object_empty.
  - apply within_object. auto with arith.
  - apply elements_within_one; auto.
  - apply elements_within_cons; auto.
  - apply members_within_one; auto.
  - apply members_within_cons; auto.
Qed.

(** [JSONDecoder.decode] returns a value on every JSON text within the
    limits. *)
Lemma decode_rfc_json_text (t : pystr) :
  rfc_json_text_within recursion_room t -> exists value, decode t = Ok value.
Proof.
  intros (w & v & w' & Hw & Hv & Hw' & ->).
  destruct (proj1 grammar_accepted _ v Hv) as [Hs Ha].
  unfold decode. rewrite (skip_whitespace_ws _ _ Hw).
  rewrite (skip_whitespace_value_start (v ++ w')) by (apply value_start_app, Hs).
  destruct (Ha w' recursion_room) as (value & ->).
  - rewrite <- (List.app_nil_r w'). now apply value_follow_ws.
  - apply Nat.le_refl.
  - rewrite expecting_value_Ok, bind_Ok. cbv beta iota.
    rewrite (skip_whitespace_ws_only _ Hw'). now exists value.
Qed.

(** ** The bytes of a JSON text *)

(** A text the strict decoder returns is also what the decoder returns
    under [surrogatepass]. *)
Lemma utf8_decode_codes_surrogatepass (b : list Z) (t : pystr) :
  utf8_decode_codes false b = Ok t -> utf8_decode_codes true b = Ok t.
Proof.
  remember (List.length b) as len eqn:Hlen.
  revert b Hlen t. induction len as [len IH] using lt_wf_ind. intros b Hlen t.
  destruct b as [|b0 t0]; [auto|]. cbn [utf8_decode_codes List.length] in *.
  assert (Hrec : forall rest x,
            (List.length rest < len)%nat ->
            (r <- utf8_decode_codes false rest ;; Ok (x :: r)) = Ok t ->
            (r <- utf8_decode_codes true rest ;; Ok (x :: r)) = Ok t).
  { intros rest x Hr. destruct (utf8_decode_codes false rest) as [r|e] eqn:E;
      [|discriminate]. now rewrite (IH _ Hr rest eq_refl r E). }
  destruct (in_range 0 127 b0); [apply Hrec; lia|].
  destruct (in_range 194 223 b0).
  { destruct t0 as [|b1 t1]; [auto|].
    destruct (is_continuation b1); [apply Hrec; cbn in *; lia|auto]. }
  destruct (in_range 224 239 b0).
  { destruct t0 as [|b1 [|b2 t2]]; auto.
    destruct (utf8_second_of_3 false b0 b1 && is_continuation b2) eqn:E;
      [|discriminate].
    apply andb_true_iff in E as [E1 E2].
    assert (utf8_second_of_3 true b0 b1 = true) as ->.
    { unfold utf8_second_of_3, in_range in *.
      destruct (b0 =? 224); [assumption|]. destruct (b0 =? 237); [lia|assumption]. }
    rewrite E2. apply Hrec. cbn in *; lia. }
  destruct (in_range 240 244 b0); [|auto].
  destruct t0 as [|b1 [|b2 [|b3 t3]]]; auto.
  destruct (utf8_second_of_4 b0 b1 && is_continuation b2 && is_continuation b3);
    [apply Hrec; cbn in *; lia|auto].
Qed.

Lemma detect_encoding_plain (b0 : Z) (rest : list Z) :
  b0 <> 0 -> b0 <> 254 -> b0 <> 255 ->
  startswith BOM_UTF8 (b0 :: rest) = false ->
  (forall b1 r, rest = b1 :: r -> b1 <> 0) ->
  detect_encoding (b0 :: rest) = UTF_8.
Proof.
  intros H0 H254 H255 Hbom H1. unfold detect_encoding.
  rewrite Hbom.
  unfold startswith, BOM_UTF32_BE, BOM_UTF32_LE, BOM_UTF16_BE, BOM_UTF16_LE.
  cbn [strip_prefix].
  destruct (Z.eqb_spec 0 b0); [congruence|].
  destruct (Z.eqb_spec 255 b0); [congruence|].
  destruct (Z.eqb_spec 254 b0); [congruence|].
  cbn [orb].
  destruct rest as [|b1 rest].
  { reflexivity. }
  specialize (H1 b1 rest eq_refl).
  cbn [nth].
  destruct (Z.eqb_spec b0 0); [congruence|].
  destruct (Z.eqb_spec b1 0); [congruence|].
  destruct (4 <=? List.length (b0 :: b1 :: rest))%nat; [reflexivity|].
  destruct (List.length (b0 :: b1 :: rest) =? 2)%nat; reflexivity.
Qed.

(** A byte string that decodes to a text with no NUL that does not start
    with a byte order mark is read as UTF-8 by [json.loads]. *)
Lemma detect_encoding_utf8 (codes : list Z) (t : pystr) :
  utf8_decode_codes false codes = Ok t ->
  Forall (fun c => c <> 0) t ->
  hd 0 t <> 65279 ->
  detect_encoding codes = UTF_8.
Proof.
  intros Hd Hnz Hhd. destruct codes as [|b0 rest]; [reflexivity|].
  assert (Hzero : forall r x, utf8_decode_codes false (0 :: r) = Ok x ->
                    exists x', x = 0 :: x').
  { intros r x. cbn [utf8_decode_codes]. change (in_range 0 127 0) with true.
    cbv iota. destruct (utf8_decode_codes false r); [|discriminate].
    cbn [bind]. intros [= <-]. now eexists. }
  assert (Hb0 : b0 <> 0).
  { intros ->. destruct (Hzero _ _ Hd) as (x' & ->). now inversion Hnz. }
  cbn [utf8_decode_codes] in Hd.
  destruct (in_range 0 127 b0) eqn:R1.
  { destruct (utf8_decode_codes false rest) as [t'|] eqn:E; [|discriminate].
    cbn [bind] in Hd. inversion Hd; subst t; clear Hd.
    unfold in_range in R1.
    apply detect_encoding_plain; try lia.
    - unfold startswith, BOM_UTF8. cbn [strip_prefix].
      destruct (Z.eqb_spec 239 b0); [lia|reflexivity].
    - intros b1 r -> ->. destruct (Hzero _ _ E) as (x' & ->).
      inversion Hnz as [|? ? _ Hnz']; subst. now inversion Hnz'. }
  destruct (in_range 194 223 b0) eqn:R2.
  { unfold in_range in R2. apply detect_encoding_plain; try lia.
    - unfold startswith, BOM_UTF8. cbn [strip_prefix].
      destruct (Z.eqb_spec 239 b0); [lia|reflexivity].
    - intros b1 r -> ->. now cbn in Hd. }
  destruct (in_range 224 239 b0) eqn:R3.
  { unfold in_range in R3. apply detect_encoding_plain; try lia.
    - unfold startswith, BOM_UTF8. cbn [strip_prefix].
      destruct (Z.eqb_spec 239 b0) as [<-|]; [|reflexivity].
      destruct rest as [|b1 rest]; [reflexivity|].
      destruct (Z.eqb_spec 187 b1) as [<-|]; [|reflexivity].
      destruct rest as [|b2 r]; [reflexivity|].
      destruct (Z.eqb_spec 191 b2) as [<-|]; [|reflexivity].
      exfalso. cbn [utf8_second_of_3 is_continuation andb] in Hd.
      change (utf8_second_of_3 false 239 187 && is_continuation 191) with true in Hd.
      cbv iota in Hd.
      destruct (utf8_decode_codes false r); [|discriminate].
      cbn [bind] in Hd. inversion Hd; subst t. now apply Hhd.
    - intros b1 r -> ->. destruct r as [|b2 r]; [discriminate|].
      unfold utf8_second_of_3, in_range in Hd.
      destruct (b0 =? 224); [discriminate Hd|].
      destruct (b0 =? 237); discriminate Hd. }
  destruct (in_range 240 244 b0) eqn:R4; [|discriminate].
  unfold in_range in R4. apply detect_encoding_plain; try lia.
  - unfold startswith, BOM_UTF8. cbn [strip_prefix].
    destruct (Z.eqb_spec 239 b0); [lia|reflexivity].
  - intros b1 r -> ->. destruct r as [|b2 [|b3 r]]; try discriminate.
    unfold utf8_second_of_4, in_range in Hd.
    destruct (b0 =? 240); [discriminate Hd|].
    destruct (b0 =? 244); discriminate Hd.
Qed.

(** ** No NUL in a JSON text *)

Lemma nul_free_app (a b : pystr) : nul_free a -> nul_free b -> nul_free (a ++ b).
Proof. intros. apply Forall_app. now split. Qed.

Lemma nul_free_cons (c : Z) (s : pystr) : c <> 0 -> nul_free s -> nul_free (c :: s).
Proof. now constructor. Qed.

Lemma nul_free_forallb (f : Z -> bool) (s : pystr) :
  (forall c, f c = true -> c <> 0) -> forallb f s = true -> nul_free s.
Proof.
  intros Hf Hs. apply Forall_forall. intros c Hc.
  apply Hf. rewrite forallb_forall in Hs. now apply Hs.
Qed.

Lemma nul_free_ws (w : pystr) : rfc_ws w -> nul_free w.
Proof. apply nul_free_forallb. unfold is_ws. intros c; lia. Qed.

Lemma nul_free_digits (ds : pystr) : forallb is_digit ds = true -> nul_free ds.
Proof. apply nul_free_forallb. unfold is_digit. intros c; lia. Qed.

Lemma is_hexdig_nonzero (c : Z) : is_hexdig c = true -> c <> 0.
Proof. unfold is_hexdig, hexval. intros H ->. discriminate H. Qed.

Lemma nul_free_chars (s : pystr) : rfc_chars s -> nul_free s.
Proof.
  induction 1 as [|c s Hc _ IH|c s Hc _ IH|h1 h2 h3 h4 s H1 H2 H3 H4 _ IH].
  - constructor.
  - apply nul_free_cons; [unfold is_unescaped, in_range in Hc; lia|assumption].
  - repeat apply nul_free_cons; try assumption; [lia|unfold is_escape in Hc; lia].
  - repeat apply nul_free_cons; auto using is_hexdig_nonzero; lia.
Qed.

Lemma nul_free_number (s : pystr) : rfc_number s -> nul_free s.
Proof.
  intros [minus integer frac exp Hm Hi Hf He].
  repeat apply nul_free_app.
  - destruct Hm as [-> | ->]; repeat constructor; lia.
  - destruct Hi as [|d ds Hd Hds]; [repeat constructor; lia|].
    apply nul_free_cons; [unfold in_range in Hd; lia|now apply nul_free_digits].
  - destruct Hf as [|ds [_ Hds]]; [constructor|].
    apply nul_free_cons; [lia|now apply nul_free_digits].
  - destruct He as [|e sign ds He Hs [_ Hds]]; [constructor|].
    apply nul_free_cons; [lia|]. apply nul_free_app; [|now apply nul_free_digits].
    destruct Hs as [-> | [-> | ->]]; repeat constructor; lia.
Qed.

Lemma nul_free_grammar :
  (forall s, rfc_value s -> nul_free s)
  /\ (forall s, rfc_elements s -> nul_free s)
  /\ (forall s, rfc_members s -> nul_free s).
Proof.
  apply rfc_mutual_ind; intros;
    repeat first
      [ assumption
      | apply nul_free_app
      | apply nul_free_cons
      | apply nul_free_ws; assumption
      | apply nul_free_chars; assumption
      | apply nul_free_number; assumption
      | apply Forall_nil
      | (unfold QUOTE; lia) ];
    discriminate.
Qed.

(** A value of the grammar starts with a quote, a bracket, a brace, a minus
    sign, a digit, or the first letter of [null], [true] or [false]. *)
Lemma rfc_value_head (v : pystr) :
  rfc_value v ->
  exists c x, v = c :: x
    /\ (c = 34 \/ c = 91 \/ c = 123 \/ c = 45 \/ 48 <= c <= 57
        \/ c = 110 \/ c = 116 \/ c = 102).
Proof.
  intros [| | |s Hs|s Hs|w Hw|s Hs|w Hw|s Hs];
    try (eexists _, _; split; [reflexivity|cbn; unfold QUOTE; lia]).
  destruct (match_number_rfc s Hs) as (i & f & e & Hm).
  destruct (match_number_head _ _ _ Hm) as (c & s' & -> & Hc).
  exists c, s'. split; [reflexivity|lia].
Qed.

Lemma rfc_json_text_head (t : pystr) :
  rfc_json_text t -> nul_free t /\ hd 0 t <> 65279.
Proof.
  intros (w & v & w' & Hw & Hv & Hw' & ->). split.
  - repeat apply nul_free_app; auto using nul_free_ws.
    now apply (proj1 nul_free_grammar).
  - destruct w as [|c w].
    + destruct (rfc_value_head v Hv) as (c & x & -> & Hc). cbn. lia.
    + unfold rfc_ws in Hw. cbn in *. apply andb_true_iff in Hw as [Hc _].
      unfold is_ws in Hc. lia.
Qed.

Lemma rfc_chars_unescaped (s : pystr) :
  forallb is_unescaped s = true -> rfc_chars s.
Proof.
  induction s as [|c s IH]; [constructor|]. cbn [forallb].
  intros [Hc Hs]%andb_true_iff. constructor; auto.
Qed.

Lemma valid_json_valid_utf8 (raw : pybytes) : valid_json raw -> valid_utf8 raw.
Proof. intros (t & Ht & _). now exists t. Qed.

(** On a valid JSON body, [json.loads] is [JSONDecoder.decode] of the text
    of the body. *)
Lemma json_loads_valid_json_decode (raw : pybytes) (t : pystr) :
  utf8_decode false raw = Ok t -> rfc_json_text t ->
  json_loads raw = decode t.
Proof.
  intros Hd Ht. unfold utf8_decode in Hd.
  destruct (rfc_json_text_head t Ht) as [Hnz Hhd].
  unfold json_loads.
  rewrite (detect_encoding_utf8 _ _ Hd Hnz Hhd). cbn [decode_surrogatepass].
  now rewrite (utf8_decode_codes_surrogatepass _ _ Hd), bind_Ok.
Qed.

(** [json.loads] returns a value on every valid JSON body within the
    limits. *)
Lemma json_loads_valid_json (raw : pybytes) :
  valid_json_within recursion_room raw -> exists value, json_loads raw = Ok value.
Proof.
  intros (t & Hd & Ht).
  rewrite (json_loads_valid_json_decode raw t Hd
             (rfc_json_text_within_rfc _ _ Ht)).
  now apply decode_rfc_json_text.
Qed.

End Grammar.

(** * UTF-8: encoding what was decoded

    The bit operations of the codec, on the ranges the decoder checks, are
    sums, quotients and remainders. *)

Lemma lor_shiftl_add (x y n : Z) :
  0 <= n -> 0 <= y < 2 ^ n -> Z.lor (Z.shiftl x n) y = x * 2 ^ n + y.
Proof.
  intros Hn Hy. rewrite Z.shiftl_mul_pow2 by assumption.
  rewrite <- Z.lxor_lor, <- Z.add_nocarry_lxor; try reflexivity.
  all: apply Z.bits_inj'; intros i Hi; rewrite Z.land_spec, Z.bits_0.
  all: destruct (Z.ltb_spec i n).
  all: try (rewrite Z.mul_pow2_bits_low by lia; reflexivity).
  all: rewrite <- (Z.mod_small y (2 ^ n)) by lia.
  all: rewrite Z.mod_pow2_bits_high by lia; apply andb_false_r.
Qed.

Lemma lor_const_add (k x y n : Z) :
  0 <= n -> k = x * 2 ^ n -> 0 <= y < 2 ^ n -> Z.lor k y = k + y.
Proof.
  intros Hn -> Hy. rewrite <- Z.shiftl_mul_pow2 by assumption.
  rewrite lor_shiftl_add by assumption. now rewrite Z.shiftl_mul_pow2.
Qed.

Local Ltac pow2 :=
  change (2 ^ 6) with 64 in *; change (2 ^ 5) with 32 in *;
  change (2 ^ 4) with 16 in *; change (2 ^ 3) with 8 in *;
  change (2 ^ 12) with 4096 in *; change (2 ^ 18) with 262144 in *.

Local Ltac arith := pow2; Z.div_mod_to_equations; lia.

Lemma utf8_two (b0 b1 : Z) :
  194 <= b0 <= 223 -> 128 <= b1 <= 191 ->
  forall c, c = Z.lor (Z.shiftl (Z.land b0 31) 6) (Z.land b1 63) ->
  128 <= c <= 2047
  /\ Z.lor 192 (Z.shiftr c 6) = b0
  /\ Z.lor 128 (Z.land c 63) = b1.
Proof.
  intros H0 H1 c ->.
  change 63 with (Z.ones 6); change 31 with (Z.ones 5).
  rewrite !Z.land_ones by lia.
  change (2 ^ 6) with 64; change (2 ^ 5) with 32.
  rewrite (lor_shiftl_add _ _ 6) by (try lia; apply Z.mod_pos_bound; reflexivity).
  change (2 ^ 6) with 64.
  rewrite Z.shiftr_div_pow2 by lia. change (2 ^ 6) with 64.
  rewrite (lor_const_add 192 3 _ 6), (lor_const_add 128 2 _ 6); try reflexivity; try lia.
  all: change (2 ^ 6) with 64.
  all: try (apply Z.mod_pos_bound; reflexivity).
  all: Z.div_mod_to_equations; lia.
Qed.

Lemma utf8_three (b0 b1 b2 : Z) :
  224 <= b0 <= 239 -> 128 <= b1 <= 191 -> 128 <= b2 <= 191 ->
  (b0 = 224 -> 160 <= b1) -> (b0 = 237 -> b1 <= 159) ->
  forall c, c = Z.lor (Z.shiftl (Z.land b0 15) 12)
                 (Z.lor (Z.shiftl (Z.land b1 63) 6) (Z.land b2 63)) ->
  2048 <= c <= 65535
  /\ ~ 55296 <= c <= 57343
  /\ Z.lor 224 (Z.shiftr c 12) = b0
  /\ Z.lor 128 (Z.land (Z.shiftr c 6) 63) = b1
  /\ Z.lor 128 (Z.land c 63) = b2.
Proof.
  intros H0 H1 H2 Ha Hb c ->.
  change 63 with (Z.ones 6); change 15 with (Z.ones 4).
  rewrite !Z.land_ones by lia.
  rewrite (lor_shiftl_add _ _ 6) by arith.
  rewrite (lor_shiftl_add _ _ 12) by arith.
  rewrite !Z.shiftr_div_pow2 by lia.
  rewrite (lor_const_add 224 14 _ 4), !(lor_const_add 128 2 _ 6);
    try reflexivity; try lia; arith.
Qed.

Lemma utf8_four (b0 b1 b2 b3 : Z) :
  240 <= b0 <= 244 -> 128 <= b1 <= 191 -> 128 <= b2 <= 191 -> 128 <= b3 <= 191 ->
  (b0 = 240 -> 144 <= b1) -> (b0 = 244 -> b1 <= 143) ->
  forall c, c = Z.lor (Z.shiftl (Z.land b0 7) 18)
                 (Z.lor (Z.shiftl (Z.land b1 63) 12)
                    (Z.lor (Z.shiftl (Z.land b2 63) 6) (Z.land b3 63))) ->
  65536 <= c <= 1114111
  /\ Z.lor 240 (Z.shiftr c 18) = b0
  /\ Z.lor 128 (Z.land (Z.shiftr c 12) 63) = b1
  /\ Z.lor 128 (Z.land (Z.shiftr c 6) 63) = b2
  /\ Z.lor 128 (Z.land c 63) = b3.
Proof.
  intros H0 H1 H2 H3 Ha Hb c ->.
  change 63 with (Z.ones 6); change 7 with (Z.ones 3).
  rewrite !Z.land_ones by lia.
  rewrite (lor_shiftl_add _ _ 6) by arith.
  rewrite (lor_shiftl_add _ _ 12) by arith.
  rewrite (lor_shiftl_add _ _ 18) by arith.
  rewrite !Z.shiftr_div_pow2 by lia.
  rewrite (lor_const_add 240 30 _ 3), !(lor_const_add 128 2 _ 6);
    try reflexivity; try lia; arith.
Qed.

Lemma in_range_spec (lo hi c : Z) : Bool.reflect (lo <= c <= hi) (in_range lo hi c).
Proof.
  apply Bool.iff_reflect. unfold in_range.
  rewrite andb_true_iff, !Z.leb_le. reflexivity.
Qed.

Lemma in_range_true (lo hi c : Z) : lo <= c <= hi -> in_range lo hi c = true.
Proof. intros H. now destruct (in_range_spec lo hi c). Qed.

Lemma in_range_false (lo hi c : Z) : ~ lo <= c <= hi -> in_range lo hi c = false.
Proof. intros H. now destruct (in_range_spec lo hi c). Qed.

Lemma utf8_second_of_3_strict (b0 b1 : Z) :
  utf8_second_of_3 false b0 b1 = true ->
  128 <= b1 <= 191 /\ (b0 = 224 -> 160 <= b1) /\ (b0 = 237 -> b1 <= 159).
Proof.
  unfold utf8_second_of_3.
  destruct (Z.eqb_spec b0 224); [|destruct (Z.eqb_spec b0 237)];
    intros H;
    match type of H with
    | in_range ?lo ?hi _ = true => destruct (in_range_spec lo hi b1)
    end; try discriminate; lia.
Qed.

Lemma utf8_second_of_4_range (b0 b1 : Z) :
  utf8_second_of_4 b0 b1 = true ->
  128 <= b1 <= 191 /\ (b0 = 240 -> 144 <= b1) /\ (b0 = 244 -> b1 <= 143).
Proof.
  unfold utf8_second_of_4.
  destruct (Z.eqb_spec b0 240); [|destruct (Z.eqb_spec b0 244)];
    intros H;
    match type of H with
    | in_range ?lo ?hi _ = true => destruct (in_range_spec lo hi b1)
    end; try discriminate; lia.
Qed.

Lemma Ok_inj {A} (a b : A) : Ok a = Ok b -> a = b.
Proof. now intros [= ->]. Qed.

(** Encoding what the strict decoder returned gives the bytes back. *)
Lemma utf8_encode_decode_codes (n : nat) :
  forall (bs : list Z) (t : pystr),
    (List.length bs <= n)%nat ->
    utf8_decode_codes false bs = Ok t ->
    utf8_encode_codes t = Ok bs.
Proof.
  induction n as [|n IH]; intros bs t Hlen; destruct bs as [|b0 t0];
    cbn [utf8_decode_codes]; try (intros [= <-]; reflexivity);
    cbn [List.length] in Hlen; [lia|].
  destruct (in_range_spec 0 127 b0) as [R1|R1].
  { destruct (utf8_decode_codes false t0) as [rest|] eqn:E; [|discriminate].
    cbn [bind]. intros Ht; apply Ok_inj in Ht; subst t. cbn [utf8_encode_codes].
    rewrite (IH t0 rest) by (assumption || lia). cbn [bind].
    now rewrite in_range_true. }
  destruct (in_range_spec 194 223 b0) as [R2|R2].
  { destruct t0 as [|b1 t1]; [discriminate|].
    unfold is_continuation. destruct (in_range_spec 128 191 b1) as [C1|C1]; [|discriminate].
    destruct (utf8_decode_codes false t1) as [rest|] eqn:E; [|discriminate].
    cbn [bind]. intros Ht; apply Ok_inj in Ht; subst t. cbn [utf8_encode_codes].
    cbn [List.length] in Hlen.
    rewrite (IH t1 rest) by (assumption || lia). cbn [bind].
    pose proof (utf8_two b0 b1 R2 C1 _ eq_refl) as (Hc & E0 & E1).
    rewrite in_range_false, in_range_true by lia. now rewrite E0, E1. }
  destruct (in_range_spec 224 239 b0) as [R3|R3].
  { destruct t0 as [|b1 [|b2 t2]]; try discriminate.
    destruct (utf8_second_of_3 false b0 b1) eqn:S1; [|discriminate].
    unfold is_continuation. destruct (in_range_spec 128 191 b2) as [C2|C2]; [|discriminate].
    cbn [andb].
    destruct (utf8_decode_codes false t2) as [rest|] eqn:E; [|discriminate].
    cbn [bind]. intros Ht; apply Ok_inj in Ht; subst t. cbn [utf8_encode_codes].
    cbn [List.length] in Hlen.
    rewrite (IH t2 rest) by (assumption || lia). cbn [bind].
    destruct (utf8_second_of_3_strict _ _ S1) as (C1 & Ha & Hb).
    pose proof (utf8_three b0 b1 b2 R3 C1 C2 Ha Hb _ eq_refl) as (Hc & Hs & E0 & E1 & E2).
    unfold is_surrogate.
    rewrite (in_range_false 0 127), (in_range_false 128 2047),
      (in_range_false 55296 57343), (in_range_true 2048 65535) by lia.
    now rewrite E0, E1, E2. }
  destruct (in_range_spec 240 244 b0) as [R4|R4]; [|discriminate].
  destruct t0 as [|b1 [|b2 [|b3 t3]]]; try discriminate.
  destruct (utf8_second_of_4 b0 b1) eqn:S1; [|discriminate].
  unfold is_continuation.
  destruct (in_range_spec 128 191 b2) as [C2|C2]; [|discriminate].
  destruct (in_range_spec 128 191 b3) as [C3|C3]; [|discriminate].
  cbn [andb].
  destruct (utf8_decode_codes false t3) as [rest|] eqn:E; [|discriminate].
  cbn [bind]. intros Ht; apply Ok_inj in Ht; subst t. cbn [utf8_encode_codes].
  cbn [List.length] in Hlen.
  rewrite (IH t3 rest) by (assumption || lia). cbn [bind].
  destruct (utf8_second_of_4_range _ _ S1) as (C1 & Ha & Hb).
  pose proof (utf8_four b0 b1 b2 b3 R4 C1 C2 C3 Ha Hb _ eq_refl) as (Hc & E0 & E1 & E2 & E3).
  unfold is_surrogate.
  rewrite (in_range_false 0 127), (in_range_false 128 2047),
    (in_range_false 55296 57343), (in_range_false 2048 65535),
    (in_range_true 65536 1114111) by lia.
  now rewrite E0, E1, E2, E3.
Qed.

Lemma z2b_b2z (b : byte) : z2b (b2z b) = b.
Proof.
  unfold z2b, b2z. rewrite N2Z.id, Byte.of_to_N. reflexivity.
Qed.

Lemma map_z2b_b2z (raw : pybytes) : map z2b (map b2z raw) = raw.
Proof.
  induction raw as [|b raw IH]; cbn [map]; [reflexivity|].
  now rewrite z2b_b2z, IH.
Qed.

Lemma utf8_encode_decode (raw : pybytes) (text : pystr) :
  utf8_decode false raw = Ok text -> utf8_encode text = Ok raw.
Proof.
  unfold utf8_decode, utf8_encode. intros H.
  rewrite (utf8_encode_decode_codes _ _ _ (le_n _) H). cbn [bind].
  now rewrite map_z2b_b2z.
Qed.

(** The bytes [str.encode] writes for a character of each length, and the
    character the decoder reads from them. *)
Lemma utf8_two_bytes (c : Z) :
  128 <= c <= 2047 ->
  forall b0 b1, b0 = Z.lor 192 (Z.shiftr c 6) -> b1 = Z.lor 128 (Z.land c 63) ->
  194 <= b0 <= 223 /\ 128 <= b1 <= 191
  /\ Z.lor (Z.shiftl (Z.land b0 31) 6) (Z.land b1 63) = c.
Proof.
  intros Hc b0 b1 -> ->.
  change 63 with (Z.ones 6); change 31 with (Z.ones 5).
  rewrite !Z.shiftr_div_pow2 by lia.
  rewrite (Z.land_ones c) by lia.
  rewrite (lor_const_add 192 3 _ 6), (lor_const_add 128 2 _ 6);
    try reflexivity; try lia; try arith.
  rewrite !Z.land_ones by lia.
  rewrite lor_shiftl_add by arith. arith.
Qed.

Lemma utf8_three_bytes (c : Z) :
  2048 <= c <= 65535 -> ~ 55296 <= c <= 57343 ->
  forall b0 b1 b2,
    b0 = Z.lor 224 (Z.shiftr c 12) ->
    b1 = Z.lor 128 (Z.land (Z.shiftr c 6) 63) ->
    b2 = Z.lor 128 (Z.land c 63) ->
    224 <= b0 <= 239 /\ 128 <= b1 <= 191 /\ 128 <= b2 <= 191
    /\ (b0 = 224 -> 160 <= b1) /\ (b0 = 237 -> b1 <= 159)
    /\ Z.lor (Z.shiftl (Z.land b0 15) 12)
         (Z.lor (Z.shiftl (Z.land b1 63) 6) (Z.land b2 63)) = c.
Proof.
  intros Hc Hs b0 b1 b2 -> -> ->.
  change 63 with (Z.ones 6); change 15 with (Z.ones 4).
  rewrite !Z.shiftr_div_pow2 by lia.
  rewrite (Z.land_ones c), (Z.land_ones (c / 2 ^ 6)) by lia.
  rewrite (lor_const_add 224 14 _ 4), !(lor_const_add 128 2 _ 6);
    try reflexivity; try lia; try arith.
  rewrite !Z.land_ones by lia.
  rewrite (lor_shiftl_add _ _ 6) by arith.
  rewrite (lor_shiftl_add _ _ 12) by arith. arith.
Qed.

Lemma utf8_four_bytes (c : Z) :
  65536 <= c <= 1114111 ->
  forall b0 b1 b2 b3,
    b0 = Z.lor 240 (Z.shiftr c 18) ->
    b1 = Z.lor 128 (Z.land (Z.shiftr c 12) 63) ->
    b2 = Z.lor 128 (Z.land (Z.shiftr c 6) 63) ->
    b3 = Z.lor 128 (Z.land c 63) ->
    240 <= b0 <= 244 /\ 128 <= b1 <= 191 /\ 128 <= b2 <= 191 /\ 128 <= b3 <= 191
    /\ (b0 = 240 -> 144 <= b1) /\ (b0 = 244 -> b1 <= 143)
    /\ Z.lor (Z.shiftl (Z.land b0 7) 18)
         (Z.lor (Z.shiftl (Z.land b1 63) 12)
            (Z.lor (Z.shiftl (Z.land b2 63) 6) (Z.land b3 63))) = c.
Proof.
  intros Hc b0 b1 b2 b3 -> -> -> ->.
  change 63 with (Z.ones 6); change 7 with (Z.ones 3).
  rewrite !Z.shiftr_div_pow2 by lia.
  rewrite (Z.land_ones c), (Z.land_ones (c / 2 ^ 6)), (Z.land_ones (c / 2 ^ 12))
    by lia.
  rewrite (lor_const_add 240 30 _ 3), !(lor_const_add 128 2 _ 6);
    try reflexivity; try lia; try arith.
  rewrite !Z.land_ones by lia.
  rewrite (lor_shiftl_add _ _ 6) by arith.
  rewrite (lor_shiftl_add _ _ 12) by arith.
  rewrite (lor_shiftl_add _ _ 18) by arith. arith.
Qed.

Lemma utf8_second_of_3_true (b0 b1 : Z) :
  128 <= b1 <= 191 -> (b0 = 224 -> 160 <= b1) -> (b0 = 237 -> b1 <= 159) ->
  utf8_second_of_3 false b0 b1 = true.
Proof.
  intros H1 Ha Hb. unfold utf8_second_of_3.
  destruct (Z.eqb_spec b0 224); [|destruct (Z.eqb_spec b0 237)];
    apply in_range_true; lia.
Qed.

Lemma utf8_second_of_4_true (b0 b1 : Z) :
  128 <= b1 <= 191 -> (b0 = 240 -> 144 <= b1) -> (b0 = 244 -> b1 <= 143) ->
  utf8_second_of_4 b0 b1 = true.
Proof.
  intros H1 Ha Hb. unfold utf8_second_of_4.
  destruct (Z.eqb_spec b0 240); [|destruct (Z.eqb_spec b0 244)];
    apply in_range_true; lia.
Qed.

(** Decoding what [str.encode] wrote gives the text back, and what it wrote
    are bytes. *)
Lemma utf8_decode_encode_codes (t : pystr) :
  forall bs,
    utf8_encode_codes t = Ok bs ->
    utf8_decode_codes false bs = Ok t /\ Forall (fun b => 0 <= b <= 255) bs.
Proof.
  induction t as [|c t IH]; intros bs; cbn [utf8_encode_codes].
  { intros H; apply Ok_inj in H; subst bs. split; [reflexivity|constructor]. }
  destruct (utf8_encode_codes t) as [rest|e]; [|discriminate]. cbn [bind].
  destruct (IH rest eq_refl) as [Hd Hb].
  destruct (in_range_spec 0 127 c) as [R1|R1].
  { intros H; apply Ok_inj in H; subst bs. cbn [utf8_decode_codes].
    rewrite (in_range_true 0 127) by lia. rewrite Hd. split; [reflexivity|].
    constructor; [lia|assumption]. }
  destruct (in_range_spec 128 2047 c) as [R2|R2].
  { intros H; apply Ok_inj in H; subst bs.
    destruct (utf8_two_bytes c R2 _ _ eq_refl eq_refl) as (H0 & H1 & Hc).
    cbn [utf8_decode_codes]. unfold is_continuation.
    rewrite (in_range_false 0 127), (in_range_true 194 223),
      (in_range_true 128 191) by lia.
    rewrite Hd, Hc. split; [reflexivity|].
    repeat (constructor; [lia|]). assumption. }
  unfold is_surrogate. destruct (in_range_spec 55296 57343 c) as [Rs|Rs];
    [discriminate|].
  destruct (in_range_spec 2048 65535 c) as [R3|R3].
  { intros H; apply Ok_inj in H; subst bs.
    destruct (utf8_three_bytes c R3 Rs _ _ _ eq_refl eq_refl eq_refl)
      as (H0 & H1 & H2 & Ha & Hb' & Hc).
    cbn [utf8_decode_codes]. unfold is_continuation.
    rewrite (in_range_false 0 127), (in_range_false 194 223),
      (in_range_true 224 239), (utf8_second_of_3_true _ _ H1 Ha Hb'),
      (in_range_true 128 191) by lia.
    cbn [andb]. rewrite Hd, Hc. split; [reflexivity|].
    repeat (constructor; [lia|]). assumption. }
  destruct (in_range_spec 65536 1114111 c) as [R4|R4]; [|discriminate].
  intros H; apply Ok_inj in H; subst bs.
  destruct (utf8_four_bytes c R4 _ _ _ _ eq_refl eq_refl eq_refl eq_refl)
    as (H0 & H1 & H2 & H3 & Ha & Hb' & Hc).
  cbn [utf8_decode_codes]. unfold is_continuation.
  rewrite (in_range_false 0 127), (in_range_false 194 223),
    (in_range_false 224 239), (in_range_true 240 244),
    (utf8_second_of_4_true _ _ H1 Ha Hb'), !(in_range_true 128 191) by lia.
  cbn [andb]. rewrite Hd, Hc. split; [reflexivity|].
  repeat (constructor; [lia|]). assumption.
Qed.

Lemma utf8_decode_codes_ascii (sp : bool) (s : pystr) :
  Forall (fun c => 0 <= c <= 127) s -> utf8_decode_codes sp s = Ok s.
Proof.
  induction 1 as [|c s Hc _ IH]; cbn [utf8_decode_codes]; [reflexivity|].
  now rewrite in_range_true, IH.
Qed.

Lemma b2z_z2b (z : Z) : 0 <= z <= 255 -> b2z (z2b z) = z.
Proof.
  intros Hz. unfold z2b, b2z.
  destruct (Byte.of_N (Z.to_N z)) as [b|] eqn:E.
  - apply Byte.to_of_N in E. rewrite E. lia.
  - apply Byte.of_N_None_iff in E. lia.
Qed.

Lemma map_b2z_z2b (codes : list Z) :
  Forall (fun b => 0 <= b <= 255) codes -> map b2z (map z2b codes) = codes.
Proof.
  induction 1 as [|z codes Hz _ IH]; cbn [map]; [reflexivity|].
  now rewrite b2z_z2b, IH.
Qed.

Lemma utf8_decode_encode (text : pystr) (raw : pybytes) :
  utf8_encode text = Ok raw -> utf8_decode false raw = Ok text.
Proof.
  unfold utf8_decode, utf8_encode.
  destruct (utf8_encode_codes text) as [codes|e] eqn:E; [|discriminate].
  cbn [bind]. intros H; apply Ok_inj in H; subst raw.
  destruct (utf8_decode_encode_codes _ _ E) as [Hd Hb].
  now rewrite (map_b2z_z2b _ Hb).
Qed.

Lemma hexdigit_range (n : Z) : 48 <= hexdigit (Z.land n 15) <= 102.
Proof.
  change 15 with (Z.ones 4). rewrite Z.land_ones by lia.
  pose proof (Z.mod_pos_bound n (2 ^ 4) eq_refl) as H. change (2 ^ 4) with 16 in *.
  unfold hexdigit. destruct (Z.ltb_spec (n mod 16) 10); lia.
Qed.

(** * The text [json.dumps] writes holds no control character *)

Lemma no_control_app (a b : pystr) :
  no_control a -> no_control b -> no_control (a ++ b).
Proof. intros Ha Hb. apply Forall_app. now split. Qed.

Lemma no_control_cons (c : Z) (s : pystr) :
  in_range 0 31 c = false -> no_control s -> no_control (c :: s).
Proof. intros Hc Hs. now constructor. Qed.

Lemma no_control_flat_map (f : Z -> pystr) (s : pystr) :
  (forall c, no_control (f c)) -> no_control (flat_map f s).
Proof.
  intros Hf. induction s as [|c s IH]; cbn [flat_map]; [constructor|].
  now apply no_control_app.
Qed.

Lemma no_control_join (sep : pystr) (chunks : list pystr) :
  no_control sep -> Forall no_control chunks -> no_control (join sep chunks).
Proof.
  intros Hsep Hc. induction Hc as [|t chunks Ht Hc IH]; [constructor|].
  rewrite join_cons. apply no_control_app; [assumption|].
  destruct chunks; [constructor|]. now apply no_control_app.
Qed.

Lemma no_control_hex_fixed (width : nat) (n : Z) : no_control (hex_fixed width n).
Proof.
  revert n. induction width as [|w IH]; intros n; cbn [hex_fixed]; [constructor|].
  apply no_control_app; [apply IH|].
  apply no_control_cons; [|constructor].
  pose proof (hexdigit_range n). unfold in_range.
  apply andb_false_iff. right. apply Z.leb_gt. lia.
Qed.

Lemma no_control_escape_char (c : Z) : no_control (escape_char c).
Proof.
  unfold escape_char.
  repeat match goal with
         | |- context [if ?x =? ?y then _ else _] =>
             destruct (Z.eqb_spec x y); [repeat constructor|]
         end.
  destruct (in_range 0 31 c) eqn:E.
  - apply no_control_app; [repeat constructor|apply no_control_hex_fixed].
  - now apply no_control_cons; [|constructor].
Qed.

Lemma no_control_encode_basestring (s : pystr) : no_control (encode_basestring s).
Proof.
  unfold encode_basestring. apply no_control_cons; [reflexivity|].
  apply no_control_app; [|repeat constructor].
  apply no_control_flat_map, no_control_escape_char.
Qed.

Lemma no_control_chars_of_uint (d : Decimal.uint) : no_control (chars_of_uint d).
Proof. induction d; cbn [chars_of_uint]; now constructor. Qed.

Lemma no_control_int_repr (z : Z) : no_control (int_repr z).
Proof.
  unfold int_repr. destruct (Z.to_int z);
    [|apply no_control_cons; [reflexivity|]]; apply no_control_chars_of_uint.
Qed.

Section NoControl.
Context {RT : PyRuntime}.
Hypothesis float_repr_no_control :
  forall f, float_classify f = FFinite -> no_control (float_repr f).

Lemma no_control_floatstr (allow_nan : bool) (f : pyfloat) (t : pystr) :
  floatstr allow_nan f = Ok t -> no_control t.
Proof.
  unfold floatstr.
  destruct (float_classify f) eqn:Hk, allow_nan; intros [= <-];
    try (now apply float_repr_no_control); repeat constructor.
Qed.

Lemma map_result_Forall {A B} (f : A -> result B) (Q : B -> Prop) :
  forall (l : list A) (ys : list B),
    Forall (fun x => forall y, f x = Ok y -> Q y) l ->
    map_result f l = Ok ys -> Forall Q ys.
Proof.
  induction l as [|x l IH]; intros ys Hl; cbn [map_result].
  - intros [= <-]. constructor.
  - inversion Hl as [|? ? Hx Hl']; subst.
    destruct (f x) as [y|e] eqn:E; [|discriminate]. cbn [bind].
    fold (map_result f l).
    destruct (map_result f l) as [ys'|e] eqn:E'; [|discriminate]. cbn [bind].
    intros [= <-]. constructor; [now apply Hx|now apply IH].
Qed.

Lemma no_control_iterencode (isep ksep : pystr) (allow_nan : bool) :
  no_control isep -> no_control ksep ->
  forall (v : pyval) (t : pystr),
    iterencode isep ksep allow_nan v = Ok t -> no_control t.
Proof.
  intros Hi Hk. induction v as [| [|] | z | f | s | b | items IH | items IH]
    using pyval_ind; intros t; cbn [iterencode].
  - intros [= <-]. repeat constructor.
  - intros [= <-]. repeat constructor.
  - intros [= <-]. repeat constructor.
  - intros [= <-]. apply no_control_int_repr.
  - apply no_control_floatstr.
  - intros [= <-]. apply no_control_encode_basestring.
  - intros [= <-]. apply no_control_encode_basestring.
  - destruct (map_result _ items) as [chunks|e] eqn:E; [|discriminate].
    cbn [bind]. intros [= <-].
    apply (no_control_app [_]); [repeat constructor|].
    apply no_control_app; [|repeat constructor].
    apply no_control_join; [assumption|].
    refine (map_result_Forall _ _ _ _ _ E). exact IH.
  - destruct (map_result _ items) as [chunks|e] eqn:E; [|discriminate].
    cbn [bind]. intros [= <-].
    apply (no_control_app [_]); [repeat constructor|].
    apply no_control_app; [|repeat constructor].
    apply no_control_join; [assumption|].
    refine (map_result_Forall _ _ _ _ _ E).
    eapply Forall_impl; [|exact IH].
    intros [k v] [_ Hv] y. cbn [fst snd] in Hv.
    destruct (encode_key allow_nan k) as [kt|e]; [|discriminate]. cbn [bind].
    destruct (iterencode isep ksep allow_nan v) as [vt|e] eqn:Ev; [|discriminate].
    cbn [bind]. intros [= <-].
    apply (no_control_app (encode_basestring kt));
      [apply no_control_encode_basestring|].
    apply no_control_app; [assumption|]. now apply Hv.
Qed.

Lemma no_control_json_dumps (v : pyval) (t : pystr) :
  json_dumps v = Ok t -> no_control t.
Proof. apply no_control_iterencode; repeat constructor. Qed.

End NoControl.

(** * The bytes of the text [json.dumps] writes are read back *)

Lemma take_digits_spec (s d r : pystr) :
  take_digits s = (d, r) -> s = d ++ r /\ Forall (fun c => 48 <= c <= 57) d.
Proof.
  revert d r. induction s as [|c s IH]; intros d r; cbn [take_digits].
  - intros [= <- <-]. split; [reflexivity|constructor].
  - destruct (is_digit c) eqn:Hc.
    + destruct (take_digits s) as [d' r']. intros [= <- <-].
      destruct (IH d' r' eq_refl) as [-> Hd]. split; [reflexivity|].
      constructor; [unfold is_digit in Hc; lia|assumption].
    + intros [= <- <-]. split; [reflexivity|constructor].
Qed.

Lemma match_integer_spec (s integer r : pystr) :
  match_integer s = Some (integer, r) ->
  s = integer ++ r /\ Forall (fun c => 43 <= c <= 101) integer.
Proof.
  unfold match_integer.
  assert (H : forall sign l,
    Forall (fun c => 43 <= c <= 101) sign ->
    match l with
    | c :: s2 =>
        if c =? 48 then Some (sign ++ [48], s2)
        else if in_range 49 57 c then
          let '(d, r) := take_digits s2 in Some (sign ++ c :: d, r)
        else None
    | [] => None
    end = Some (integer, r) ->
    sign ++ l = integer ++ r /\ Forall (fun c => 43 <= c <= 101) integer).
  { intros sign [|c s2] Hsign; [discriminate|].
    destruct (Z.eqb_spec c 48) as [->|_].
    { intros [= <- <-]. rewrite <- List.app_assoc. split; [reflexivity|].
      apply Forall_app. split; [assumption|]. repeat constructor; lia. }
    destruct (in_range_spec 49 57 c) as [Hc|_]; [|discriminate].
    destruct (take_digits s2) as [d r'] eqn:E. intros [= <- <-].
    destruct (take_digits_spec _ _ _ E) as [-> Hd].
    rewrite <- List.app_assoc. split; [reflexivity|].
    apply Forall_app. split; [assumption|]. constructor; [lia|].
    eapply Forall_impl; [|exact Hd]. cbn beta; intros; lia. }
  destruct s as [|c s]; [discriminate|].
  destruct (Z.eqb_spec c 45) as [->|_]; intros Hm.
  - apply (H [45] s) in Hm; [assumption|repeat constructor; lia].
  - apply (H [] (c :: s)) in Hm; [assumption|constructor].
Qed.

Lemma match_frac_spec (s frac r : pystr) :
  match_frac s = (frac, r) ->
  s = frac ++ r /\ Forall (fun c => 43 <= c <= 101) frac.
Proof.
  unfold match_frac. destruct s as [|c s];
    [intros [= <- <-]; split; [reflexivity|constructor]|].
  destruct (Z.eqb_spec c 46) as [->|_];
    [|intros [= <- <-]; split; [reflexivity|constructor]].
  destruct (take_digits s) as [d r'] eqn:E.
  destruct (take_digits_spec _ _ _ E) as [-> Hd].
  destruct d as [|d0 d]; intros [= <- <-]; (split; [reflexivity|]);
    [constructor|].
  constructor; [lia|]. eapply Forall_impl; [|exact Hd]. cbn beta; intros; lia.
Qed.

Lemma match_exp_spec (s exp r : pystr) :
  match_exp s = (exp, r) ->
  s = exp ++ r /\ Forall (fun c => 43 <= c <= 101) exp.
Proof.
  unfold match_exp. destruct s as [|c s];
    [intros [= <- <-]; split; [reflexivity|constructor]|].
  destruct ((c =? 101) || (c =? 69)) eqn:Hc;
    [|intros [= <- <-]; split; [reflexivity|constructor]].
  assert (Hdigits : forall sign s1,
    Forall (fun c => 43 <= c <= 101) sign ->
    s = sign ++ s1 ->
    match take_digits s1 with
    | ([], _) => ([], c :: s)
    | (d, r) => (c :: sign ++ d, r)
    end = (exp, r) ->
    c :: s = exp ++ r /\ Forall (fun c => 43 <= c <= 101) exp).
  { intros sign s1 Hsign -> .
    destruct (take_digits s1) as [d r'] eqn:E.
    destruct (take_digits_spec _ _ _ E) as [-> Hd].
    destruct d as [|d0 d]; intros [= <- <-].
    - split; [reflexivity|constructor].
    - cbn [app]. rewrite <- List.app_assoc. split; [reflexivity|].
      constructor; [lia|]. apply Forall_app. split; [assumption|].
      eapply Forall_impl; [|exact Hd]. cbn beta; intros; lia. }
  destruct s as [|c1 s1].
  - apply (Hdigits [] []); [constructor|reflexivity].
  - destruct ((c1 =? 45) || (c1 =? 43)) eqn:Hs.
    + apply (Hdigits [c1] s1); [repeat constructor; lia|reflexivity].
    + apply (Hdigits [] (c1 :: s1)); [constructor|reflexivity].
Qed.

(** A text [NUMBER_RE] matches to its end is made of digits, signs, a dot
    and the letter of the exponent. *)
Lemma match_number_spec (s integer frac exp : pystr) :
  match_number s = Some ((integer, frac, exp), []) ->
  Forall (fun c => 43 <= c <= 101) s.
Proof.
  unfold match_number.
  destruct (match_integer s) as [[i s1]|] eqn:Ei; [|discriminate].
  destruct (match_frac s1) as [f s2] eqn:Ef.
  destruct (match_exp s2) as [e s3] eqn:Ee.
  intros [= <- <- <- ->].
  destruct (match_integer_spec _ _ _ Ei) as [-> Hi].
  destruct (match_frac_spec _ _ _ Ef) as [-> Hf].
  destruct (match_exp_spec _ _ _ Ee) as [-> He].
  rewrite List.app_nil_r. repeat (apply Forall_app; split); assumption.
Qed.

Section Canonical.
Context {RT : PyRuntime} `{!PyRuntimeLaws RT}.

Lemma float_repr_no_control (f : pyfloat) :
  float_classify f = FFinite -> no_control (float_repr f).
Proof.
  intros Hk. destruct (repr_roundtrip f Hk) as (integer & frac & exp & Hm & _).
  eapply Forall_impl; [|exact (match_number_spec _ _ _ _ Hm)].
  cbn beta. intros c Hc. apply in_range_false. lia.
Qed.

(** [json.loads] reads a JSON value within the limits back from the bytes
    of the text [json.dumps] writes for it. *)
Lemma json_loads_json_dumps (v : pyval) (t : pystr) (raw : pybytes) :
  is_json_value v = true ->
  within_limits recursion_room v = true ->
  json_dumps v = Ok t ->
  utf8_encode t = Ok raw ->
  json_loads raw = Ok v.
Proof.
  intros Hj Hl Ht Hraw.
  pose proof (utf8_decode_encode _ _ Hraw) as Hd.
  pose proof (json_loads_str_json_dumps v t Hj Hl Ht) as Hv.
  destruct (dumps_reads_back v recursion_room Hj Hl) as (t' & Ht' & Hstart & _).
  assert (t' = t) as -> by congruence.
  assert (Hhd : hd 0 t <> 65279).
  { destruct t as [|c t]; [discriminate|]. cbn in *. unfold is_digit in Hstart. lia. }
  assert (Hnz : Forall (fun c => c <> 0) t).
  { eapply Forall_impl; [|exact (no_control_json_dumps float_repr_no_control _ _ Ht)].
    cbn beta. intros c Hc ->. discriminate Hc. }
  unfold utf8_decode in Hd. unfold json_loads.
  rewrite (detect_encoding_utf8 _ _ Hd Hnz Hhd). cbn [decode_surrogatepass].
  rewrite (utf8_decode_codes_surrogatepass _ _ Hd), bind_Ok.
  unfold json_loads_str in Hv. destruct t as [|c t]; [assumption|].
  cbn [hd] in Hhd. destruct (Z.eqb_spec c 65279); [contradiction|assumption].
Qed.

End Canonical.

(** * Valid JSON beyond the limits

    A JSON integer of more than [MAX_STR_DIGITS] digits and arrays nested
    deeper than the scanner has room for are JSON texts, and [json.loads]
    raises on them. *)

Section Beyond.
Context {RT : PyRuntime}.

Lemma utf8_decode_ascii (sp : bool) (codes : list Z) :
  Forall (fun c => 1 <= c <= 127) codes ->
  utf8_decode sp (bytes_of_codes codes) = Ok codes.
Proof.
  intros H. unfold utf8_decode, bytes_of_codes.
  rewrite map_b2z_z2b by (eapply Forall_impl; [|exact H]; cbn beta; intros; lia).
  apply utf8_decode_codes_ascii.
  eapply Forall_impl; [|exact H]. cbn beta; intros; lia.
Qed.

(** On a body of ASCII characters other than NUL, [json.loads] is
    [JSONDecoder.decode] of these characters. *)
Lemma json_loads_ascii (codes : list Z) :
  Forall (fun c => 1 <= c <= 127) codes ->
  json_loads (bytes_of_codes codes) = decode codes.
Proof.
  intros H. pose proof (utf8_decode_ascii false codes H) as Hd.
  pose proof (utf8_decode_ascii true codes H) as Hp.
  unfold utf8_decode in Hd, Hp. unfold json_loads.
  rewrite (detect_encoding_utf8 _ _ Hd).
  - cbn [decode_surrogatepass]. now rewrite Hp.
  - eapply Forall_impl; [|exact H]. cbn beta; intros; lia.
  - destruct H as [|c s Hc _]; cbn [hd]; lia.
Qed.

Lemma rfc_int_digits (integer : pystr) :
  rfc_int integer -> Forall (fun c => 48 <= c <= 57) integer.
Proof.
  intros [|d ds Hd Hds]; [repeat constructor; lia|].
  constructor; [unfold in_range in Hd; lia|].
  apply Forall_forall. intros c Hc. rewrite forallb_forall in Hds.
  specialize (Hds c Hc). unfold is_digit in Hds. lia.
Qed.

Lemma rfc_value_int (integer : pystr) : rfc_int integer -> rfc_value integer.
Proof.
  intros Hi. apply value_number.
  rewrite <- (List.app_nil_r integer).
  exact (@number_intro [] integer [] [] (or_introl eq_refl) Hi frac_none exp_none).
Qed.

Lemma rfc_json_text_value (v : pystr) : rfc_value v -> rfc_json_text v.
Proof.
  intros Hv. exists [], v, []. rewrite List.app_nil_r. repeat split.
  assumption.
Qed.

(** [JSONDecoder.decode] on an integer of too many digits. *)
Lemma decode_long_integer (integer : pystr) :
  rfc_int integer ->
  (MAX_STR_DIGITS < List.length integer)%nat ->
  decode integer = Raise ValueError.
Proof.
  intros Hi Hlen.
  pose proof (match_number_groups [] integer [] [] (or_introl eq_refl)
                Hi frac_none exp_none) as Hm.
  cbn [app] in Hm. rewrite List.app_nil_r in Hm.
  destruct (match_number_head _ _ _ Hm) as (c & s' & E & Hc).
  assert (Hs : value_start integer = true).
  { rewrite E. cbn. unfold is_digit. lia. }
  unfold decode. rewrite (skip_whitespace_value_start _ Hs).
  rewrite (scan_once_number _ _ _ _ _ _ Hm).
  unfold number_value. cbn [app]. unfold py_int.
  pose proof (int_digits_rfc [] integer (or_introl eq_refl) Hi) as Hd.
  cbn [app] in Hd. rewrite Hd.
  destruct (Nat.ltb_spec MAX_STR_DIGITS (List.length integer)); [reflexivity|lia].
Qed.

(** The ladder on a body that is such an integer. *)
Lemma long_integer_body (request : Request) (lg : Logger) (integer : pystr) :
  rfc_int integer ->
  (MAX_STR_DIGITS < List.length integer)%nat ->
  body request = bytes_of_codes integer ->
  valid_json (body request)
  /\ json_loads (body request) = Raise ValueError
  /\ decode_body request lg = (Ok (PStr integer, lit "text"), lg).
Proof.
  intros Hi Hlen Hb.
  assert (Hc : Forall (fun c => 1 <= c <= 127) integer).
  { eapply Forall_impl; [|exact (rfc_int_digits _ Hi)]. cbn beta; intros; lia. }
  assert (Hj : json_loads (body request) = Raise ValueError).
  { rewrite Hb, (json_loads_ascii _ Hc). now apply decode_long_integer. }
  assert (Hu : utf8_decode false (body request) = Ok integer).
  { rewrite Hb. now apply utf8_decode_ascii. }
  split; [|split; [assumption|]].
  - exists integer. split; [assumption|].
    now apply rfc_json_text_value, rfc_value_int.
  - now rewrite decode_body_unfold, Hj, Hu.
Qed.

(** The scanner on more opening brackets than it has room for. *)
Lemma scan_once_too_deep (n : nat) :
  forall rest, scan_once n (repeat 91 (S n) ++ rest) = Raise RecursionError.
Proof.
  induction n as [|n IH]; intros rest; [reflexivity|].
  change (repeat 91 (S (S n)) ++ rest) with (91 :: (repeat 91 (S n) ++ rest)).
  cbn [scan_once]. change (91 =? QUOTE) with false. change (91 =? 123) with false.
  change (91 =? 91) with true. cbv iota. unfold JSONArray.
  change (repeat 91 (S n) ++ rest) with (91 :: (repeat 91 n ++ rest)) at 1 2.
  cbn [skip_whitespace]. change (91 =? 32) with false. change (91 =? 9) with false.
  change (91 =? 10) with false. change (91 =? 13) with false. cbn [orb].
  change (91 =? 93) with false. cbv iota. cbn [JSONArray_loop].
  rewrite (skip_whitespace_value_start (repeat 91 (S n) ++ rest)) by reflexivity.
  now rewrite IH.
Qed.

Lemma rfc_value_nested (n : nat) :
  rfc_value (repeat 91 (S n) ++ repeat 93 (S n)).
Proof.
  induction n as [|n IH]; [exact (@value_array_empty [] eq_refl)|].
  replace (repeat 91 (S (S n)) ++ repeat 93 (S (S n)))
    with (91 :: ([] ++ (repeat 91 (S n) ++ repeat 93 (S n)) ++ []) ++ [93]).
  - apply value_array. now apply elements_one.
  - rewrite List.app_nil_r. cbn [app]. rewrite <- List.app_assoc.
    rewrite <- (repeat_cons (S n) 93). reflexivity.
Qed.

Lemma nested_ascii (n : nat) :
  Forall (fun c => 1 <= c <= 127) (repeat 91 n ++ repeat 93 n).
Proof.
  apply Forall_app. split; apply Forall_forall; intros c Hc;
    apply repeat_spec in Hc; lia.
Qed.

(** The ladder on a body of arrays nested one deeper than the scanner has
    room for. *)
Lemma deep_body (request : Request) (lg : Logger) :
  body request
  = bytes_of_codes (repeat 91 (S recursion_room) ++ repeat 93 (S recursion_room)) ->
  valid_json (body request)
  /\ json_loads (body request) = Raise RecursionError
  /\ decode_body request lg
     = (Ok (PStr (repeat 91 (S recursion_room) ++ repeat 93 (S recursion_room)),
            lit "text"), lg).
Proof.
  intros Hb. pose proof (nested_ascii (S recursion_room)) as Hc.
  assert (Hj : json_loads (body request) = Raise RecursionError).
  { rewrite Hb, (json_loads_ascii _ Hc). unfold decode.
    rewrite skip_whitespace_value_start by reflexivity.
    now rewrite scan_once_too_deep. }
  assert (Hu : utf8_decode false (body request)
               = Ok (repeat 91 (S recursion_room) ++ repeat 93 (S recursion_room))).
  { rewrite Hb. now apply utf8_decode_ascii. }
  split; [|split; [assumption|]].
  - eexists. split; [exact Hu|].
    apply rfc_json_text_value, rfc_value_nested.
  - now rewrite decode_body_unfold, Hj, Hu.
Qed.

End Beyond.

(** * The decoded body and its serialization *)

Section Decoded.
Context {RT : PyRuntime}.

(** C9. Whatever the ladder produces (a value parsed by [json.loads], a
    decoded string, or the raw bytes), [json.dumps] with [default=str]
    returns a text for it, so the serialization is that text and the
    fallback [str(body)] is not taken. *)
Theorem serialize_fallback_unreachable (request : Request) (lg : Logger) :
  (exists body body_type text,
      decode_body request lg = (Ok (body, body_type), lg)
      /\ json_dumps body = Ok text
      /\ serialize_body body lg = (Ok text, lg))
  /\ (forall raw value, json_loads raw = Ok value ->
        exists text, json_dumps value = Ok text)
  /\ (forall s, exists text, json_dumps (PStr s) = Ok text)
  /\ (forall b, exists text, json_dumps (PBytes b) = Ok text).
Proof.
  assert (Hj : forall raw value, json_loads raw = Ok value ->
                 exists text, json_dumps value = Ok text).
  { intros raw value H. eapply json_dumps_is_json, json_loads_is_json, H. }
  split; [|split; [exact Hj|split; intros; eexists; reflexivity]].
  rewrite decode_body_unfold.
  destruct (json_loads (body request)) as [value|e] eqn:E.
  - destruct (Hj _ _ E) as (text & Ht). exists value, (lit "json"), text.
    rewrite serialize_body_unfold, Ht. auto.
  - destruct (utf8_decode false (body request)) as [s|e'].
    + do 3 eexists. rewrite serialize_body_unfold. cbn [json_dumps iterencode].
      repeat split.
    + do 3 eexists. rewrite serialize_body_unfold. cbn [json_dumps iterencode].
      repeat split.
Qed.

(** The first stage of the ladder, on any body [json.loads] accepts: valid
    JSON within the limits, and also the texts [json.loads] reads beyond
    JSON. *)
Lemma decode_body_json_loads `{!PyRuntimeLaws RT}
  (request : Request) (lg : Logger) (value : pyval) :
  json_loads (body request) = Ok value ->
  decode_body request lg = (Ok (value, lit "json"), lg)
  /\ is_json_value value = true
  /\ within_limits recursion_room value = true
  /\ exists text,
       json_dumps value = Ok text
       /\ json_loads_str text = Ok value
       /\ forall raw, utf8_encode text = Ok raw -> json_loads raw = Ok value.
Proof.
  intros Hv.
  pose proof (json_loads_is_json _ _ Hv) as Hj.
  pose proof (json_loads_within _ _ Hv) as Hl.
  split; [now rewrite decode_body_unfold, Hv|].
  split; [assumption|]. split; [assumption|].
  destruct (json_dumps_is_json _ Hj) as (text & Ht).
  exists text. split; [assumption|]. split.
  - now apply json_loads_str_json_dumps.
  - intros raw. now apply json_loads_json_dumps.
Qed.


(** C3 (amended). When [json.loads] raises on the body and the body is
    valid UTF-8, the ladder stops at its second stage: the tag is "text" and
    the value is the decoded string. Such a body is not valid JSON within
    the limits of the interpreter. The empty body is such a body, decoded
    to the empty string. *)
Theorem decode_body_text (request : Request) (lg : Logger) (e : exn) (text : pystr) :
  json_loads (body request) = Raise e ->
  utf8_decode false (body request) = Ok text ->
  decode_body request lg = (Ok (PStr text, lit "text"), lg)
  /\ ~ valid_json_within recursion_room (body request)
  /\ (exists e0, json_loads [] = Raise e0) /\ utf8_decode false [] = Ok [].
Proof.
  intros Hj Hu. rewrite decode_body_unfold, Hj, Hu.
  split; [reflexivity|]. split.
  - intros Hv. destruct (json_loads_valid_json _ Hv) as (v & Hv'). congruence.
  - split; [exists JSONDecodeError|reflexivity].
    unfold json_loads, decode. cbn [map detect_encoding decode_surrogatepass].
    destruct recursion_room; reflexivity.
Qed.

(** C4 (amended). When [json.loads] raises on the body and the body is not
    valid UTF-8, the ladder ends at its last stage: the tag is "bytes" and
    the value is the raw body. No stage lets an exception out: on every
    request the ladder returns a value. *)
Theorem decode_body_bytes (request : Request) (lg : Logger) (e e' : exn) :
  json_loads (body request) = Raise e ->
  utf8_decode false (body request) = Raise e' ->
  decode_body request lg = (Ok (PBytes (body request), lit "bytes"), lg)
  /\ ~ valid_utf8 (body request)
  /\ (forall request' lg', exists body body_type,
         decode_body request' lg' = (Ok (body, body_type), lg')).
Proof.
  intros Hj Hu. rewrite decode_body_unfold, Hj, Hu.
  split; [reflexivity|]. split.
  - intros (t & Ht). congruence.
  - intros; apply decode_body_total.
Qed.


End Decoded.

(** * The record of a request *)

Section Record.
Context {RT : PyRuntime}.

Lemma key_is_PStr (k s : pystr) : key_is k (PStr s) = pystr_eqb s k.
Proof. reflexivity. Qed.

Lemma dict_get_setitem (d : list (pyval * pyval)) (k' k : pystr) (v : pyval) :
  dict_get (dict_setitem d k' v) k
  = if pystr_eqb k' k then Some v else dict_get d k.
Proof.
  induction d as [|[kd vd] d IH]; cbn [dict_setitem dict_get].
  - rewrite key_is_PStr. reflexivity.
  - destruct (key_is k' kd) eqn:E; cbn [dict_get].
    + destruct kd; try discriminate E. cbn [key_is] in *.
      apply pystr_eqb_eq in E. subst s.
      destruct (pystr_eqb k' k); reflexivity.
    + rewrite IH. destruct (key_is k kd) eqn:E'; [|reflexivity].
      destruct kd; try discriminate E'. cbn [key_is] in *.
      apply pystr_eqb_eq in E'. subst s.
      destruct (pystr_eqb k' k) eqn:E2; [|reflexivity].
      apply pystr_eqb_eq in E2. subst k'. rewrite pystr_eqb_refl in E. discriminate E.
Qed.

Lemma dict_get_fold (pairs : list (pystr * pystr)) :
  forall (acc : list (pyval * pyval)) (k : pystr),
    dict_get
      (fold_left (fun d kv => dict_setitem d (fst kv) (snd kv))
         (map (fun '(k, v) => (k, PStr v)) pairs) acc) k
    = match last_header k pairs with
      | Some v => Some (PStr v)
      | None => dict_get acc k
      end.
Proof.
  induction pairs as [|[k' v'] pairs IH]; intros acc k; cbn [map fold_left last_header].
  - reflexivity.
  - rewrite IH. cbn [fst snd]. destruct (last_header k pairs); [reflexivity|].
    rewrite dict_get_setitem. destruct (pystr_eqb k' k); reflexivity.
Qed.

Lemma headers_keys_distinct (pairs : list (pystr * pystr)) :
  keys_distinct
    (map fst (dict_of_pairs (map (fun '(k, v) => (k, PStr v)) pairs))) = true.
Proof.
  assert (H : is_json_value
                (PDict (dict_of_pairs (map (fun '(k, v) => (k, PStr v)) pairs))) = true).
  { apply dict_of_pairs_is_json. rewrite forallb_forall.
    intros [k v] Hin. apply in_map_iff in Hin. destruct Hin as ([k0 v0] & [= <- <-] & _).
    reflexivity. }
  cbn [is_json_value] in H. apply andb_true_iff in H. apply H.
Qed.

(** C6. A record the handler writes is at level [INFO], carries the message
    of the call, and its extra fields are, in this order, [source] (the
    string "bettervoice"), [client_ip] (the host of the peer, or [None]),
    [headers], [body_type] (the tag of the ladder) and [body] (the
    serialized body). The field [headers] is the mapping of the request
    headers: a dictionary whose keys are pairwise distinct, in which the
    name of a header of the request is mapped to the value of the last
    header of that name, and in which no other name is a key. *)
Theorem emitted_record_fields (request : Request) (lg : Logger) (record : LogRecord) :
  In record (new_records lg (snd (receive_webhook request lg))) ->
  record_levelno record = INFO
  /\ record_msg record = lit "Received webhook event"
  /\ map fst (record_extra record) =
     [lit "source"; lit "client_ip"; lit "headers"; lit "body_type"; lit "body"]
  /\ extra_get (lit "source") (record_extra record) = Some (PStr (lit "bettervoice"))
  /\ extra_get (lit "client_ip") (record_extra record) =
     Some (match client request with
           | Some address => PStr (host address)
           | None => PNone
           end)
  /\ (exists headers,
        extra_get (lit "headers") (record_extra record) = Some (PDict headers)
        /\ keys_distinct (map fst headers) = true
        /\ forall name,
             dict_get headers name
             = option_map PStr (last_header name (headers_items request)))
  /\ exists body body_type serialized_body,
       decode_body request lg = (Ok (body, body_type), lg)
       /\ serialize_body body lg = (Ok serialized_body, lg)
       /\ extra_get (lit "body_type") (record_extra record) = Some (PStr body_type)
       /\ extra_get (lit "body") (record_extra record) = Some (PStr serialized_body).
Proof.
  destruct (receive_webhook_spec request lg) as (b & t & text & lg' & Hd & Hs & Hr & He).
  rewrite Hr; cbn [snd]. rewrite (new_records_app _ _ _ He).
  destruct (isEnabledFor lg INFO); [|intros []].
  intros [<-|[]].
  do 5 (split; [reflexivity|]). split.
  - exists (dict_of_pairs (map (fun '(k, v) => (k, PStr v)) (headers_items request))).
    split; [reflexivity|]. split; [apply headers_keys_distinct|].
    intros name. unfold dict_of_pairs. rewrite dict_get_fold.
    destruct (last_header name (headers_items request)); reflexivity.
  - exists b, t, text. repeat split; auto.
Qed.

End Record.

(** * The small runtime meets the laws *)

Lemma small_runtime_laws : PyRuntimeLaws small_runtime.
Proof.
  constructor.
  - intros [| | |z]; cbn; congruence.
  - intros [| | |z]; cbn; congruence.
  - intros [| | |z]; cbn; congruence.
  - intros [| | |z] Hk; try discriminate Hk.
    change (@float_repr small_runtime (SFinite z)) with (int_repr z ++ lit ".0").
    change (@float_of_literal small_runtime) with small_of_literal.
    assert (Hi : match_integer (int_repr z ++ lit ".0")
                 = Some (int_repr z, lit ".0")).
    { apply (match_integer_app (int_repr z) (lit ".0") (int_repr z) []);
        [reflexivity|apply match_integer_int_repr]. }
    exists (int_repr z), (lit ".0"), [].
    split; [|split; [discriminate|]].
    + unfold match_number. rewrite Hi. reflexivity.
    + unfold small_of_literal. rewrite List.app_nil_r, Hi.
      now rewrite int_value_int_repr.
Qed.

(** * The handler on sample requests *)

Example module_logger_INFO :
  module_logger (RT:=small_runtime) (lit "INFO") = Ok (logger_at INFO).
Proof. reflexivity. Qed.

Example module_logger_WARNING :
  module_logger (RT:=small_runtime) (lit "WARNING") = Ok (logger_at WARNING).
Proof. reflexivity. Qed.

Example module_logger_unknown :
  module_logger (RT:=small_runtime) (lit "VERBOSE") = Raise ValueError.
Proof. reflexivity. Qed.

(** A JSON object is tagged "json" and logged as [json.dumps] writes it. *)
Example scenario_json :
  decode_body request_json (logger_at INFO)
  = (Ok (value_json, lit "json"), logger_at INFO)
  /\ serialize_body value_json (logger_at INFO)
     = (Ok ([123; 34] ++ lit "event" ++ [34] ++ lit ": " ++ [34]
            ++ lit "call.completed" ++ [34] ++ lit ", " ++ [34] ++ lit "id"
            ++ [34] ++ lit ": 42}"), logger_at INFO).
Proof. split; reflexivity. Qed.

(** A text is tagged "text" and logged as a JSON string. *)
Example scenario_text :
  decode_body request_text (logger_at INFO)
  = (Ok (PStr (lit "hello world"), lit "text"), logger_at INFO)
  /\ serialize_body (RT:=small_runtime) (PStr (lit "hello world")) (logger_at INFO)
     = (Ok ([34] ++ lit "hello world" ++ [34]), logger_at INFO).
Proof. split; reflexivity. Qed.

(** Bytes that are not UTF-8 are tagged "bytes" and logged as the JSON
    string of their [repr]. *)
Example scenario_binary :
  decode_body request_binary (logger_at INFO)
  = (Ok (PBytes [xff; xfe; x00; x01], lit "bytes"), logger_at INFO)
  /\ serialize_body (RT:=small_runtime) (PBytes [xff; xfe; x00; x01]) (logger_at INFO)
     = (Ok ([34] ++ lit "b'\\xff\\xfe\\x00\\x01'" ++ [34]), logger_at INFO).
Proof. split; reflexivity. Qed.

(** The empty body is tagged "text" and logged as the empty JSON string. *)
Example scenario_empty :
  decode_body request_empty (logger_at INFO)
  = (Ok (PStr [], lit "text"), logger_at INFO)
  /\ serialize_body (RT:=small_runtime) (PStr []) (logger_at INFO)
     = (Ok [34; 34], logger_at INFO).
Proof. split; reflexivity. Qed.

(** The literals [NaN] and [Infinity], which are not JSON, are accepted by
    [json.loads], and so is a document in UTF-16. *)
Example json_loads_NaN :
  json_loads (RT:=small_runtime) (bytes_of_codes (lit "NaN")) = Ok (@PFloat small_runtime SNaN).
Proof. reflexivity. Qed.

Example json_loads_utf16 :
  json_loads (RT:=small_runtime) [xff; xfe; x31; x00] = Ok (PInt 1)
  /\ utf8_decode false [xff; xfe; x31; x00] = Raise UnicodeDecodeError.
Proof. split; reflexivity. Qed.

(** On a dictionary with a bytes key [json.dumps] raises, and the
    serialization falls back to [str]. *)
Example serialize_body_fallback :
  json_dumps value_bytes_key = Raise TypeError
  /\ serialize_body value_bytes_key (logger_at INFO)
     = (Ok (lit "{b'k': 1}"), logger_at INFO).
Proof. split; reflexivity. Qed.

(** * Witnesses and counterexamples *)

Lemma request_json_within :
  valid_json_within (@recursion_room small_runtime) (body request_json).
Proof.
  assert (Hid : rfc_members_within 993 ([34] ++ lit "id" ++ [34; 58] ++ lit "42")).
  { refine (@members_within_one 993 [] (lit "id") [] [] (lit "42") [] _ _ _ _ _ _);
      try reflexivity.
    - now apply rfc_chars_unescaped.
    - apply within_number.
      refine (@number_within_intro [] (lit "42") [] [] _ _ _ _ _);
        [now left| |constructor|constructor|].
      + now refine (@int_nonzero 52 [50] _ _).
      + intros _. apply Nat.leb_le. reflexivity. }
  assert (Hmembers :
            rfc_members_within 993
              ([34] ++ lit "event" ++ [34; 58; 34] ++ lit "call.completed"
               ++ [34; 44; 34] ++ lit "id" ++ [34; 58] ++ lit "42")).
  { refine (@members_within_cons 993 [] (lit "event") [] []
              ([34] ++ lit "call.completed" ++ [34]) []
              ([34] ++ lit "id" ++ [34; 58] ++ lit "42") _ _ _ _ _ _ Hid);
      try reflexivity.
    - now apply rfc_chars_unescaped.
    - refine (@within_string 993 (lit "call.completed") _).
      now apply rfc_chars_unescaped. }
  exists ([123; 34] ++ lit "event" ++ [34; 58; 34] ++ lit "call.completed"
          ++ [34; 44; 34] ++ lit "id" ++ [34; 58] ++ lit "42}").
  split; [reflexivity|].
  exists [], ([123; 34] ++ lit "event" ++ [34; 58; 34] ++ lit "call.completed"
              ++ [34; 44; 34] ++ lit "id" ++ [34; 58] ++ lit "42}"), [].
  split; [reflexivity|]. split; [|split; reflexivity].
  exact (within_object Hmembers).
Qed.

Lemma request_json_valid : valid_json (body request_json).
Proof. exact (valid_json_within_valid_json _ _ request_json_within). Qed.



(** It fails as well on arrays nested deeper than the scanner has room
    for: [json.loads] raises [RecursionError]. *)
Lemma deep_nesting_is_tagged_text :
  valid_json (body request_deep)
  /\ json_loads (RT:=small_runtime) (body request_deep) = Raise RecursionError
  /\ decode_body request_deep (logger_at INFO)
     = (Ok (PStr (repeat 91 995 ++ repeat 93 995), lit "text"), logger_at INFO).
Proof.
  exact (@deep_body small_runtime request_deep (logger_at INFO) eq_refl).
Qed.

Lemma decode_body_text_witness :
  json_loads (RT:=small_runtime) (body request_text) = Raise JSONDecodeError
  /\ utf8_decode false (body request_text) = Ok (lit "hello world")
  /\ (decode_body request_text (logger_at INFO)
      = (Ok (PStr (lit "hello world"), lit "text"), logger_at INFO)
      /\ ~ valid_json_within (@recursion_room small_runtime) (body request_text)
      /\ (exists e0, json_loads (RT:=small_runtime) [] = Raise e0)
      /\ utf8_decode false [] = Ok []).
Proof.
  split; [reflexivity|].
  split; [reflexivity|].
  apply (@decode_body_text small_runtime request_text (logger_at INFO)
           JSONDecodeError (lit "hello world"));
    reflexivity.
Defined.

Lemma decode_body_bytes_witness :
  json_loads (RT:=small_runtime) (body request_binary) = Raise JSONDecodeError
  /\ utf8_decode false (body request_binary) = Raise UnicodeDecodeError
  /\ (decode_body request_binary (logger_at INFO)
      = (Ok (PBytes (body request_binary), lit "bytes"), logger_at INFO)
      /\ ~ valid_utf8 (body request_binary)
      /\ (forall request' lg', exists body body_type,
            decode_body (RT:=small_runtime) request' lg'
            = (Ok (body, body_type), lg'))).
Proof.
  split; [reflexivity|].
  split; [reflexivity|].
  apply (@decode_body_bytes small_runtime request_binary (logger_at INFO)
           JSONDecodeError UnicodeDecodeError);
    reflexivity.
Defined.

(** C3, as stated, fails on the body [NaN]: it is valid UTF-8 and is not
    valid JSON, and the ladder tags it "json", with a float for value. *)
Lemma NaN_is_tagged_json :
  valid_utf8 (body request_nan)
  /\ ~ valid_json (body request_nan)
  /\ decode_body request_nan (logger_at INFO)
     = (Ok (@PFloat small_runtime SNaN, lit "json"), logger_at INFO)
  /\ ~ (exists text,
          decode_body request_nan (logger_at INFO)
          = (Ok (PStr text, lit "text"), logger_at INFO)).
Proof.
  split; [exists (lit "NaN"); reflexivity|].
  split; [|split; [reflexivity|]].
  - intros (t & Ht & w & v & w' & Hw & Hv & _ & E).
    assert (t = [78; 97; 78]) as -> by (vm_compute in Ht; congruence).
    destruct (rfc_value_head v Hv) as (c & x & -> & Hc).
    destruct w as [|c' w].
    + cbn in E. inversion E. lia.
    + unfold rfc_ws in Hw. cbn in Hw, E. inversion E; subst c'. discriminate Hw.
  - intros (text & H).
    change (decode_body request_nan (logger_at INFO))
      with (@Ok (pyval * pystr) (@PFloat small_runtime SNaN, lit "json"),
            logger_at INFO) in H.
    discriminate H.
Qed.

(** C4, as stated, fails on a quoted surrogate written in three bytes: the
    body is not valid UTF-8, hence not valid JSON, and the ladder tags it
    "json", as [json.loads] decodes with the handler [surrogatepass]. *)
Lemma surrogate_is_tagged_json :
  ~ valid_utf8 (body request_surrogate)
  /\ ~ valid_json (body request_surrogate)
  /\ decode_body request_surrogate (logger_at INFO)
     = (Ok (@PStr small_runtime [55296], lit "json"), logger_at INFO)
  /\ decode_body (RT:=small_runtime) request_surrogate (logger_at INFO)
     <> (Ok (PBytes (body request_surrogate), lit "bytes"), logger_at INFO).
Proof.
  assert (Hu : ~ valid_utf8 (body request_surrogate)).
  { intros (t & Ht). vm_compute in Ht. discriminate Ht. }
  split; [exact Hu|].
  split; [intros H; now apply Hu, valid_json_valid_utf8|].
  split; [reflexivity|].
  intros H.
  change (decode_body request_surrogate (logger_at INFO))
    with (@Ok (pyval * pystr) (@PStr small_runtime [55296], lit "json"),
          logger_at INFO) in H.
  discriminate H.
Qed.

(** C5, as stated, fails when the process runs with [LOG_LEVEL=WARNING]:
    the handler completes and writes no record. *)
Lemma no_record_at_WARNING :
  module_logger (RT:=small_runtime) (lit "WARNING") = Ok (logger_at WARNING)
  /\ fst (receive_webhook request_text (logger_at WARNING)) = Ok ACK_RESPONSE
  /\ logger_emitted (snd (receive_webhook request_text (logger_at WARNING))) = []
  /\ ~ (exists record,
          logger_emitted (snd (receive_webhook request_text (logger_at WARNING)))
          = logger_emitted (logger_at WARNING) ++ [record]).
Proof.
  split; [reflexivity|]. split; [reflexivity|].
  split; [reflexivity|].
  intros [record H].
  change (logger_emitted (snd (receive_webhook request_text (logger_at WARNING))))
    with (@nil (@LogRecord small_runtime)) in H.
  discriminate H.
Qed.

Lemma emitted_record_fields_witness :
  let record :=
    webhook_record (logger_at INFO) request_repeated_header (lit "text")
      ([34] ++ lit "hello world" ++ [34]) in
  In record
    (new_records (logger_at INFO)
       (snd (receive_webhook request_repeated_header (logger_at INFO))))
  /\ record_levelno record = INFO
  /\ map fst (record_extra record) =
     [lit "source"; lit "client_ip"; lit "headers"; lit "body_type"; lit "body"]
  /\ extra_get (lit "client_ip") (record_extra record)
     = Some (PStr (lit "203.0.113.7"))
  /\ exists headers,
       extra_get (lit "headers") (record_extra record) = Some (PDict headers)
       /\ dict_get headers (lit "x-tag") = Some (PStr (lit "second"))
       /\ dict_get headers (lit "accept") = Some (PStr (lit "*/*"))
       /\ dict_get headers (lit "host") = None.
Proof.
  intros record.
  assert (Hin : In record
            (new_records (logger_at INFO)
               (snd (receive_webhook request_repeated_header (logger_at INFO))))).
  { left. reflexivity. }
  split; [exact Hin|].
  pose proof (@emitted_record_fields small_runtime request_repeated_header
                (logger_at INFO) record Hin)
    as (H1 & _ & H3 & _ & H5 & (headers & Hh & _ & Hget) & _).
  split; [exact H1|]. split; [exact H3|]. split; [exact H5|].
  exists headers. split; [exact Hh|].
  rewrite !Hget. repeat split.
Defined.

Lemma absent_client_is_none_witness :
  client request_json_bare = None
  /\ exists response lg',
       receive_webhook request_json_bare (logger_at INFO) = (Ok response, lg')
       /\ status_code response = 200
       /\ response_body response = ACK_BYTES
       /\ (isEnabledFor (logger_at INFO) INFO = true ->
           List.length (new_records (logger_at INFO) lg') = 1%nat)
       /\ forall record, In record (new_records (logger_at INFO) lg') ->
            extra_get (lit "client_ip") (record_extra record) = Some PNone.
Proof.
  split; [reflexivity|].
  apply (@absent_client_is_none small_runtime request_json_bare (logger_at INFO)).
  reflexivity.
Defined.


(** * Further properties of the module and of the handler *)

(** ** The dictionary of the headers *)

Section Headers.
Context {RT : PyRuntime}.

(** X1. The [headers] field of a record the handler writes is a dictionary
    with one item for each header name of the request: its keys are
    pairwise distinct, and a name is mapped to the value of the last header
    of that name (a name the request does not have is not a key). *)
Theorem headers_last_value_wins (request : Request) (lg : Logger) (record : LogRecord) :
  In record (new_records lg (snd (receive_webhook request lg))) ->
  exists headers,
    extra_get (lit "headers") (record_extra record) = Some (PDict headers)
    /\ keys_distinct (map fst headers) = true
    /\ forall name,
         dict_get headers name
         = option_map PStr (last_header name (headers_items request)).
Proof.
  destruct (receive_webhook_spec request lg) as (b & t & text & lg' & Hd & Hs & Hr & He).
  rewrite Hr; cbn [snd]. rewrite (new_records_app _ _ _ He).
  destruct (isEnabledFor lg INFO); [|intros []].
  intros [<-|[]].
  exists (dict_of_pairs (map (fun '(k, v) => (k, PStr v)) (headers_items request))).
  split; [reflexivity|]. split; [apply headers_keys_distinct|].
  intros name. unfold dict_of_pairs. rewrite dict_get_fold.
  destruct (last_header name (headers_items request)); reflexivity.
Qed.

End Headers.

(** ** The logger from one request to the next *)

Section Frame.
Context {RT : PyRuntime}.

(** A run of the handler, for all loggers at once: the tag and the
    serialized body depend on the request alone. *)
Lemma receive_webhook_run (request : Request) :
  exists body_type serialized_body,
    forall lg : Logger,
      receive_webhook request lg
      = (Ok ACK_RESPONSE,
         if isEnabledFor lg INFO then
           {| logger_name := logger_name lg; logger_level := logger_level lg;
              root_level := root_level lg;
              logger_emitted :=
                logger_emitted lg
                ++ [webhook_record lg request body_type serialized_body] |}
         else lg).
Proof.
  assert (H : exists b t text, forall lg : Logger,
               decode_body request lg = (Ok (b, t), lg)
               /\ serialize_body b lg = (Ok text, lg)).
  { assert (Hs : forall b : pyval, exists text, forall lg : Logger,
                   serialize_body b lg = (Ok text, lg)).
    { intros b. destruct (json_dumps b) as [text|e] eqn:E.
      - exists text. intros lg. now rewrite serialize_body_unfold, E.
      - exists (py_str b). intros lg. now rewrite serialize_body_unfold, E. }
    destruct (json_loads (body request)) as [v|e] eqn:E;
      [|destruct (utf8_decode false (body request)) as [s|e'] eqn:E'].
    - destruct (Hs v) as (text & Ht). exists v, (lit "json"), text.
      intros lg. now rewrite decode_body_unfold, E.
    - destruct (Hs (PStr s)) as (text & Ht). exists (PStr s), (lit "text"), text.
      intros lg. now rewrite decode_body_unfold, E, E'.
    - destruct (Hs (PBytes (body request))) as (text & Ht).
      exists (PBytes (body request)), (lit "bytes"), text.
      intros lg. now rewrite decode_body_unfold, E, E'. }
  destruct H as (b & t & text & H). exists t, text. intros lg.
  destruct (H lg) as [Hd Hs].
  rewrite receive_webhook_unfold, Hd, Hs. unfold Logger_info.
  destruct (isEnabledFor lg INFO); rewrite JSONResponse_ACK; reflexivity.
Qed.

(** X2. The handler leaves the configuration of the logger as it finds it
    (name, level, level of the root logger), keeps every record written
    before in its place, and adds at most one record. *)
Theorem receive_webhook_keeps_logger (request : Request) (lg : Logger) :
  logger_name (snd (receive_webhook request lg)) = logger_name lg
  /\ logger_level (snd (receive_webhook request lg)) = logger_level lg
  /\ root_level (snd (receive_webhook request lg)) = root_level lg
  /\ isEnabledFor (snd (receive_webhook request lg)) INFO = isEnabledFor lg INFO
  /\ logger_emitted (snd (receive_webhook request lg))
     = logger_emitted lg ++ new_records lg (snd (receive_webhook request lg))
  /\ (List.length (new_records lg (snd (receive_webhook request lg))) <= 1)%nat.
Proof.
  destruct (receive_webhook_run request) as (t & text & H). rewrite (H lg). cbn [snd].
  destruct (isEnabledFor lg INFO) eqn:E.
  - cbn [logger_name logger_level root_level logger_emitted].
    erewrite new_records_app by (cbn [logger_emitted]; reflexivity).
    repeat split; auto.
  - rewrite (new_records_app lg lg [] (eq_sym (app_nil_r _))), app_nil_r.
    repeat split; auto.
Qed.

(** X3. Two requests handled one after the other leave the records of the
    first followed by the records of the second, each as if its request had
    been handled alone: what the handler writes for a request does not
    depend on the requests handled before. *)
Theorem receive_webhook_twice (r1 r2 : Request) (lg : Logger) :
  new_records lg (snd (receive_webhook r2 (snd (receive_webhook r1 lg))))
  = new_records lg (snd (receive_webhook r1 lg))
    ++ new_records lg (snd (receive_webhook r2 lg)).
Proof.
  destruct (receive_webhook_run r1) as (t1 & x1 & H1).
  destruct (receive_webhook_run r2) as (t2 & x2 & H2).
  rewrite (H1 lg), (H2 lg). cbn [snd]. rewrite H2. cbn [snd].
  destruct (isEnabledFor lg INFO) eqn:E.
  - unfold isEnabledFor, getEffectiveLevel in *.
    cbn [logger_name logger_level root_level logger_emitted]. rewrite E.
    unfold new_records. cbn [logger_emitted].
    rewrite <- app_assoc.
    rewrite !skipn_app, !skipn_all, !Nat.sub_diag. reflexivity.
  - rewrite E. unfold new_records. rewrite skipn_all. reflexivity.
Qed.

End Frame.

(** ** The stages of the ladder *)

Section Ladder.
Context {RT : PyRuntime}.

(** X4. The tag tells what the body was. Under "json" the value is the one
    [json.loads] returns on the body; under "text" [json.loads] raised, the
    body is valid UTF-8 and the value is its decoding, and the body is not
    valid JSON within the limits of the interpreter; under "bytes"
    [json.loads] raised, the body is not valid UTF-8 and the value is the
    body itself. *)
Theorem body_type_tells_the_stage
  (request : Request) (lg lg' : Logger) (value : pyval) (body_type : pystr) :
  decode_body request lg = (Ok (value, body_type), lg') ->
  (body_type = lit "json" /\ json_loads (body request) = Ok value)
  \/ (body_type = lit "text"
      /\ (exists e, json_loads (body request) = Raise e)
      /\ (exists text, value = PStr text
                       /\ utf8_decode false (body request) = Ok text)
      /\ ~ valid_json_within recursion_room (body request))
  \/ (body_type = lit "bytes"
      /\ (exists e, json_loads (body request) = Raise e)
      /\ value = PBytes (body request)
      /\ ~ valid_utf8 (body request)).
Proof.
  rewrite decode_body_unfold.
  destruct (json_loads (body request)) as [v|e] eqn:E;
    [|destruct (utf8_decode false (body request)) as [s|e'] eqn:E'];
    intros [= <- <- <-].
  - left. auto.
  - right; left. repeat split; eauto.
    intros Hv. destruct (json_loads_valid_json _ Hv) as (v & Hv'). congruence.
  - right; right. repeat split; eauto.
    intros (t & Ht). congruence.
Qed.

Lemma json_loads_utf8_sig (raw : pybytes) :
  detect_encoding (map b2z raw) = UTF_8 ->
  json_loads ([xef; xbb; xbf] ++ raw) = json_loads raw.
Proof.
  intros H. unfold json_loads. rewrite H.
  change (map b2z ([xef; xbb; xbf] ++ raw)) with (239 :: 187 :: 191 :: map b2z raw).
  reflexivity.
Qed.

(** X5. A UTF-8 byte order mark before a JSON text is skipped: on the body
    made of the three bytes EF BB BF and of a valid JSON body, [json.loads]
    does what it does on the body without the mark, and the ladder with it.
    When [json.loads] returns a value on the body without the mark, the
    body with the mark is tagged "json" with that value; a valid JSON body
    within the limits of the interpreter is such a body. *)
Theorem utf8_bom_is_skipped (request : Request) (lg : Logger) (raw : pybytes) :
  valid_json raw ->
  body request = [xef; xbb; xbf] ++ raw ->
  json_loads (body request) = json_loads raw
  /\ (forall value,
        json_loads raw = Ok value ->
        decode_body request lg = (Ok (value, lit "json"), lg))
  /\ (valid_json_within recursion_room raw ->
      exists value,
        json_loads raw = Ok value
        /\ decode_body request lg = (Ok (value, lit "json"), lg)).
Proof.
  intros Hvalid Hb.
  assert (Hj : json_loads (body request) = json_loads raw).
  { rewrite Hb. apply json_loads_utf8_sig.
    destruct Hvalid as (t & Hd & Ht).
    destruct (rfc_json_text_head t Ht) as [Hnz Hhd].
    exact (detect_encoding_utf8 _ _ Hd Hnz Hhd). }
  assert (Hd : forall value, json_loads raw = Ok value ->
                 decode_body request lg = (Ok (value, lit "json"), lg)).
  { intros value Hv. now rewrite decode_body_unfold, Hj, Hv. }
  split; [exact Hj|]. split; [exact Hd|].
  intros Hw. destruct (json_loads_valid_json _ Hw) as (value & Hv).
  exists value. auto.
Qed.



Lemma utf8_decode_codes_ws (sp : bool) (w : pystr) :
  rfc_ws w -> utf8_decode_codes sp w = Ok w.
Proof.
  unfold rfc_ws. induction w as [|c w IH]; cbn [forallb utf8_decode_codes];
    [reflexivity|].
  intros H. apply andb_true_iff in H. destruct H as [Hc Hw].
  rewrite in_range_true, (IH Hw); [reflexivity|].
  unfold is_ws in Hc. lia.
Qed.

(** X6. A body of white space only (spaces, tabs, line feeds, carriage
    returns, or nothing at all) is not a JSON text: [json.loads] raises on
    it and the ladder tags it "text", with the body itself as the text. *)
Theorem blank_body_is_text (request : Request) (lg : Logger) :
  rfc_ws (map b2z (body request)) ->
  (exists e, json_loads (body request) = Raise e)
  /\ decode_body request lg
     = (Ok (PStr (map b2z (body request)), lit "text"), lg).
Proof.
  intros Hw.
  assert (Hj : json_loads (body request) = Raise JSONDecodeError).
  { unfold json_loads.
    rewrite (detect_encoding_utf8 _ _ (utf8_decode_codes_ws false _ Hw)).
    - cbn [decode_surrogatepass]. rewrite (utf8_decode_codes_ws true _ Hw), bind_Ok.
      unfold decode. rewrite (skip_whitespace_ws_only _ Hw).
      destruct recursion_room; reflexivity.
    - now apply nul_free_ws.
    - destruct (map b2z (body request)) as [|c w]; cbn [hd]; [lia|].
      unfold rfc_ws in Hw. cbn [forallb] in Hw. apply andb_true_iff in Hw.
      destruct Hw as [Hc _]. unfold is_ws in Hc. lia. }
  split; [eauto|].
  rewrite decode_body_unfold, Hj. unfold utf8_decode.
  now rewrite (utf8_decode_codes_ws false _ Hw).
Qed.

(** X7. A body tagged "text" is the UTF-8 encoding of the text logged for
    it: encoding the decoded text gives the bytes of the body back. *)
Theorem text_body_encodes_back
  (request : Request) (lg lg' : Logger) (text : pystr) :
  decode_body request lg = (Ok (PStr text, lit "text"), lg') ->
  utf8_encode text = Ok (body request).
Proof.
  rewrite decode_body_unfold.
  destruct (json_loads (body request)) as [v|e].
  - intros H. assert (E : lit "json" = lit "text") by congruence. discriminate E.
  - destruct (utf8_decode false (body request)) as [s|e'] eqn:E.
    + intros H. assert (s = text) as -> by congruence.
      now apply utf8_encode_decode.
    + intros H. assert (E' : lit "bytes" = lit "text") by congruence. discriminate E'.
Qed.

End Ladder.

(** ** The serialized body is one line *)

Section SingleLine.
Context {RT : PyRuntime}.
Hypothesis float_repr_no_control : forall f, no_control (float_repr f).

(** What the ladder returns is serialized by [json.dumps]. *)
Lemma decoded_body_dumps (request : Request) (lg lg' : Logger)
  (value : pyval) (body_type : pystr) :
  decode_body request lg = (Ok (value, body_type), lg') ->
  exists text, json_dumps value = Ok text.
Proof.
  rewrite decode_body_unfold.
  destruct (json_loads (body request)) as [v|e] eqn:E;
    [|destruct (utf8_decode false (body request)) as [s|e'] eqn:E'];
    intros [= <- <- <-].
  - eapply json_dumps_is_json, json_loads_is_json, E.
  - eexists; reflexivity.
  - eexists; reflexivity.
Qed.


End SingleLine.

(** ** The serialized body of a text and of raw bytes *)

Lemma b2z_range (b : byte) : 0 <= b2z b <= 255.
Proof.
  unfold b2z. pose proof (Byte.to_N_bounded b). lia.
Qed.

Lemma b2z_inj (a b : byte) : b2z a = b2z b -> a = b.
Proof. intros H. rewrite <- (z2b_b2z a), <- (z2b_b2z b). now rewrite H. Qed.

Lemma map_b2z_inj (a b : pybytes) : map b2z a = map b2z b -> a = b.
Proof. intros H. rewrite <- (map_z2b_b2z a), <- (map_z2b_b2z b). now rewrite H. Qed.

Lemma hexdigit_low (n : Z) :
  0 <= n <= 15 ->
  (n < 10 /\ hexdigit n = 48 + n) \/ (10 <= n /\ hexdigit n = 87 + n).
Proof. intros H. unfold hexdigit. destruct (Z.ltb_spec n 10); [left|right]; lia. Qed.

Lemma hex_fixed_2 (c : Z) :
  hex_fixed 2 c = [hexdigit (Z.land (Z.shiftr c 4) 15); hexdigit (Z.land c 15)].
Proof. reflexivity. Qed.

Lemma hex_fixed_2_inj (a b : Z) :
  0 <= a <= 255 -> 0 <= b <= 255 -> hex_fixed 2 a = hex_fixed 2 b -> a = b.
Proof.
  intros Ha Hb. rewrite !hex_fixed_2.
  change 15 with (Z.ones 4). rewrite !Z.land_ones, !Z.shiftr_div_pow2 by lia.
  change (2 ^ 4) with 16.
  intros H. apply (f_equal (fun l => (nth 0 l 0, nth 1 l 0))) in H. cbn [nth] in H.
  assert (H1 := f_equal fst H). assert (H2 := f_equal snd H). cbn [fst snd] in H1, H2.
  clear H.
  destruct (hexdigit_low ((a / 16) mod 16)) as [[? Ea1]|[? Ea1]];
    [Z.div_mod_to_equations; lia| |];
  destruct (hexdigit_low ((b / 16) mod 16)) as [[? Eb1]|[? Eb1]];
    try (Z.div_mod_to_equations; lia);
  destruct (hexdigit_low (a mod 16)) as [[? Ea2]|[? Ea2]];
    try (Z.div_mod_to_equations; lia);
  destruct (hexdigit_low (b mod 16)) as [[? Eb2]|[? Eb2]];
    try (Z.div_mod_to_equations; lia);
  rewrite Ea1, Eb1 in H1; rewrite Ea2, Eb2 in H2;
    Z.div_mod_to_equations; lia.
Qed.

Lemma hex_fixed_2_printable (c : Z) : printable_ascii (hex_fixed 2 c).
Proof.
  rewrite hex_fixed_2.
  pose proof (hexdigit_range (Z.shiftr c 4)). pose proof (hexdigit_range c).
  repeat constructor; lia.
Qed.

(** The forms of what [repr] writes for one byte. *)
Lemma bytes_repr_char_cases (q c : Z) :
  q = 34 \/ q = 39 -> 0 <= c <= 255 ->
  (bytes_repr_char q c = [92; c] /\ (c = q \/ c = 92))
  \/ (exists e, bytes_repr_char q c = [92; e]
                /\ ((c = 9 /\ e = 116) \/ (c = 10 /\ e = 110) \/ (c = 13 /\ e = 114)))
  \/ (bytes_repr_char q c = 92 :: 120 :: hex_fixed 2 c)
  \/ (bytes_repr_char q c = [c] /\ 32 <= c <= 126 /\ c <> 92 /\ c <> q).
Proof.
  intros Hq Hc. unfold bytes_repr_char, BACKSLASH_CHAR.
  destruct (Z.eqb_spec c q); cbn [orb]; [left; auto|].
  destruct (Z.eqb_spec c 92); cbn [orb]; [left; subst; auto|].
  destruct (Z.eqb_spec c 9); [right; left; exists 116; subst; auto|].
  destruct (Z.eqb_spec c 10); [right; left; exists 110; subst; auto|].
  destruct (Z.eqb_spec c 13); [right; left; exists 114; subst; auto 6|].
  destruct (Z.ltb_spec c 32); cbn [orb]; [right; right; left; reflexivity|].
  destruct (Z.leb_spec 127 c); [right; right; left; reflexivity|].
  right; right; right. repeat split; lia.
Qed.

Lemma bytes_repr_char_printable (q c : Z) :
  q = 34 \/ q = 39 -> 0 <= c <= 255 -> printable_ascii (bytes_repr_char q c).
Proof.
  intros Hq Hc.
  destruct (bytes_repr_char_cases q c Hq Hc)
    as [[-> H]|[(e & -> & H)|[->|(-> & H)]]].
  - repeat constructor; lia.
  - repeat constructor; lia.
  - do 2 (constructor; [lia|]). apply hex_fixed_2_printable.
  - repeat constructor; lia.
Qed.

(** What [repr] writes for a byte is not the beginning of what it writes
    for another byte. *)
Lemma bytes_repr_char_prefix (q a b : Z) (x y : pystr) :
  q = 34 \/ q = 39 -> 0 <= a <= 255 -> 0 <= b <= 255 ->
  bytes_repr_char q a ++ x = bytes_repr_char q b ++ y ->
  a = b /\ x = y.
Proof.
  intros Hq Ha Hb H.
  assert (Hab : a = b).
  { destruct (bytes_repr_char_cases q a Hq Ha)
      as [[Ea Ha']|[(ea & Ea & Ha')|[Ea|(Ea & Ha')]]];
    destruct (bytes_repr_char_cases q b Hq Hb)
      as [[Eb Hb']|[(eb & Eb & Hb')|[Eb|(Eb & Hb')]]];
    rewrite Ea, Eb in H; rewrite ?hex_fixed_2 in H; cbn [app] in H;
    try (apply (f_equal (fun l => (nth 0 l 0, nth 1 l 0))) in H; cbn [nth] in H;
         assert (H1 := f_equal fst H); assert (H2 := f_equal snd H);
         cbn [fst snd] in H1, H2; lia).
    apply (hex_fixed_2_inj a b Ha Hb). rewrite !hex_fixed_2.
    apply (f_equal (fun l => [nth 2 l 0; nth 3 l 0])) in H. exact H. }
  subst b. split; [reflexivity|]. now apply app_inv_head in H.
Qed.

Lemma bytes_repr_chars_inj (q : Z) :
  q = 34 \/ q = 39 ->
  forall a b : list Z,
    Forall (fun c => 0 <= c <= 255) a -> Forall (fun c => 0 <= c <= 255) b ->
    flat_map (bytes_repr_char q) a = flat_map (bytes_repr_char q) b ->
    a = b.
Proof.
  intros Hq. induction a as [|x a IH]; intros [|y b] Ha Hb; cbn [flat_map]; intros H.
  - reflexivity.
  - inversion Hb as [|? ? Hy _]; subst.
    destruct (bytes_repr_char_cases q y Hq Hy)
      as [[E _]|[(e & E & _)|[E|(E & _)]]]; rewrite E in H; discriminate H.
  - inversion Ha as [|? ? Hx _]; subst.
    destruct (bytes_repr_char_cases q x Hq Hx)
      as [[E _]|[(e & E & _)|[E|(E & _)]]]; rewrite E in H; discriminate H.
  - inversion Ha as [|? ? Hx Ha']; inversion Hb as [|? ? Hy Hb']; subst.
    destruct (bytes_repr_char_prefix q x y _ _ Hq Hx Hy H) as [-> H'].
    f_equal. now apply IH.
Qed.

Lemma repr_quote_cases (codes : list Z) : repr_quote codes = 34 \/ repr_quote codes = 39.
Proof.
  unfold repr_quote, QUOTE, APOSTROPHE.
  destruct (existsb _ codes && negb (existsb _ codes)); auto.
Qed.

Lemma map_b2z_range (raw : pybytes) : Forall (fun c => 0 <= c <= 255) (map b2z raw).
Proof. apply Forall_map, Forall_forall. intros b _. apply b2z_range. Qed.

(** [repr] is one to one on bytes. *)
Lemma bytes_repr_inj (a b : pybytes) : bytes_repr a = bytes_repr b -> a = b.
Proof.
  unfold bytes_repr. intros H.
  injection H as Hq H. rewrite <- Hq in H.
  apply app_inv_tail in H.
  apply map_b2z_inj.
  apply (bytes_repr_chars_inj _ (repr_quote_cases (map b2z a)));
    auto using map_b2z_range.
Qed.

Lemma printable_ascii_app (a b : pystr) :
  printable_ascii a -> printable_ascii b -> printable_ascii (a ++ b).
Proof. intros Ha Hb. apply Forall_app. now split. Qed.

Lemma bytes_repr_printable (raw : pybytes) : printable_ascii (bytes_repr raw).
Proof.
  unfold bytes_repr.
  pose proof (repr_quote_cases (map b2z raw)) as Hq.
  pose proof (map_b2z_range raw) as Hr.
  set (q := repr_quote (map b2z raw)) in *. clearbody q.
  constructor; [lia|]. constructor; [lia|].
  apply printable_ascii_app; [|repeat constructor; lia].
  induction Hr as [|c l Hc Hl IH]; cbn [flat_map]; [constructor|].
  apply printable_ascii_app; [|assumption].
  now apply bytes_repr_char_printable.
Qed.

Lemma escape_char_printable (c : Z) : 32 <= c <= 126 -> printable_ascii (escape_char c).
Proof.
  intros Hc. unfold escape_char.
  repeat match goal with
         | |- context [if ?x =? ?y then _ else _] =>
             destruct (Z.eqb_spec x y); [repeat constructor; lia|]
         end.
  rewrite in_range_false by lia. repeat constructor; lia.
Qed.

Lemma encode_basestring_printable (s : pystr) :
  printable_ascii s -> printable_ascii (encode_basestring s).
Proof.
  intros Hs. unfold encode_basestring, QUOTE.
  constructor; [lia|]. apply printable_ascii_app; [|repeat constructor; lia].
  induction Hs as [|c l Hc Hl IH]; cbn [flat_map]; [constructor|].
  apply printable_ascii_app; [|assumption]. now apply escape_char_printable.
Qed.

Section Fields.
Context {RT : PyRuntime}.

Lemma json_loads_str_encode_basestring (s : pystr) :
  json_loads_str (encode_basestring s) = Ok (PStr s).
Proof.
  destruct (reads_back_Str 0 s) as [Hstart Hv].
  specialize (Hv [] recursion_room eq_refl (Nat.le_0_l _)).
  rewrite List.app_nil_r in Hv.
  unfold json_loads_str, decode.
  rewrite (skip_whitespace_value_start _ Hstart), Hv.
  reflexivity.
Qed.

Lemma encode_basestring_inj (a b : pystr) :
  encode_basestring a = encode_basestring b -> a = b.
Proof.
  intros H. pose proof (json_loads_str_encode_basestring a) as Ha.
  rewrite H, json_loads_str_encode_basestring in Ha. now injection Ha.
Qed.

(** X9. The [body] field of a text reads back: for a body decoded as text,
    the serialization is the JSON string of the text, and [json.loads] of
    that field is the text. *)
Theorem text_field_reads_back (text : pystr) (lg : Logger) :
  exists field,
    serialize_body (PStr text) lg = (Ok field, lg)
    /\ json_loads_str field = Ok (PStr text).
Proof.
  exists (encode_basestring text). split; [reflexivity|].
  apply json_loads_str_encode_basestring.
Qed.

Lemma flat_map_escape_char_plain (text : pystr) :
  Forall (fun c => 32 <= c /\ c <> 34 /\ c <> 92) text ->
  flat_map escape_char text = text.
Proof.
  induction 1 as [|c text (Hc & Hq & Hb) _ IH]; cbn [flat_map]; [reflexivity|].
  rewrite IH. unfold escape_char.
  repeat match goal with
         | |- context [if ?x =? ?y then _ else _] =>
             destruct (Z.eqb_spec x y); [lia|]
         end.
  now rewrite in_range_false by lia.
Qed.

(** X10. A text is logged as it is: when the text has no control character,
    no double quote and no backslash, its serialization is the text between
    two double quotes. The characters above U+007F are not escaped (the
    call passes [ensure_ascii=False]). *)
Theorem plain_text_is_logged_verbatim (text : pystr) (lg : Logger) :
  Forall (fun c => 32 <= c /\ c <> 34 /\ c <> 92) text ->
  serialize_body (PStr text) lg = (Ok (QUOTE :: text ++ [QUOTE]), lg).
Proof.
  intros H. rewrite serialize_body_unfold. cbn [json_dumps iterencode].
  unfold encode_basestring. now rewrite flat_map_escape_char_plain.
Qed.

(** X11. The [body] field of raw bytes is the JSON string of their [repr]:
    it is made of printable ASCII characters only, and [json.loads] of
    that field is the [repr], the text [b'...'] with escapes. *)
Theorem bytes_field_is_ascii_repr (raw : pybytes) (lg : Logger) :
  exists field,
    serialize_body (PBytes raw) lg = (Ok field, lg)
    /\ printable_ascii field
    /\ json_loads_str field = Ok (PStr (bytes_repr raw)).
Proof.
  exists (encode_basestring (bytes_repr raw)). split; [reflexivity|]. split.
  - apply encode_basestring_printable, bytes_repr_printable.
  - apply json_loads_str_encode_basestring.
Qed.

(** X12. A body that is not tagged "json" can be told from its record: two
    requests whose bodies get the same tag, "text" or "bytes", and the same
    serialization have the same body. *)
Theorem logged_body_determines_body
  (r1 r2 : Request) (lg1 lg2 : Logger) (b1 b2 : pyval) (body_type : pystr) :
  decode_body r1 lg1 = (Ok (b1, body_type), lg1) ->
  decode_body r2 lg2 = (Ok (b2, body_type), lg2) ->
  body_type <> lit "json" ->
  fst (serialize_body b1 lg1) = fst (serialize_body b2 lg2) ->
  body r1 = body r2.
Proof.
  rewrite !decode_body_unfold. intros H1 H2 Hj.
  destruct (json_loads (body r1)) as [v1|e1];
    [elim Hj; congruence|].
  destruct (json_loads (body r2)) as [v2|e2];
    [elim Hj; congruence|].
  destruct (utf8_decode false (body r1)) as [t1|e1'] eqn:E1;
    destruct (utf8_decode false (body r2)) as [t2|e2'] eqn:E2.
  - assert (b1 = PStr t1) as -> by congruence.
    assert (b2 = PStr t2) as -> by congruence.
    cbn [serialize_body mtry lift ret json_dumps iterencode fst].
    intros H. apply Ok_inj, encode_basestring_inj in H. subst t2.
    apply utf8_encode_decode in E1, E2. congruence.
  - exfalso. assert (H : lit "text" = lit "bytes") by congruence.
    discriminate H.
  - exfalso. assert (H : lit "text" = lit "bytes") by congruence.
    discriminate H.
  - assert (b1 = PBytes (body r1)) as -> by congruence.
    assert (b2 = PBytes (body r2)) as -> by congruence.
    cbn [serialize_body mtry lift ret json_dumps iterencode fst py_str py_repr].
    intros H. now apply Ok_inj, encode_basestring_inj, bytes_repr_inj in H.
Qed.

End Fields.

(** ** An integer body *)

Section Integers.
Context {RT : PyRuntime}.

Lemma chars_of_uint_digits (d : Decimal.uint) :
  Forall (fun c => 48 <= c <= 57) (chars_of_uint d).
Proof. induction d; cbn [chars_of_uint]; constructor; (lia || assumption). Qed.

Lemma int_repr_chars (z : Z) : Forall (fun c => 45 <= c <= 57) (int_repr z).
Proof.
  unfold int_repr. destruct (Z.to_int z); [|constructor; [lia|]];
    (eapply Forall_impl; [|apply chars_of_uint_digits]); cbn beta; intros; lia.
Qed.

Lemma json_loads_int_repr (raw : pybytes) (z : Z) :
  (List.length (int_repr (Z.abs z)) <= MAX_STR_DIGITS)%nat ->
  map b2z raw = int_repr z -> json_loads raw = Ok (PInt z).
Proof.
  intros Hz Hraw. pose proof (int_repr_chars z) as Hc.
  assert (Hd : forall sp, utf8_decode_codes sp (int_repr z) = Ok (int_repr z)).
  { intros sp. apply utf8_decode_codes_ascii.
    eapply Forall_impl; [|exact Hc]. cbn beta; intros; lia. }
  destruct (reads_back_Int 0 z Hz) as [Hstart Hscan].
  unfold json_loads. rewrite Hraw.
  rewrite (detect_encoding_utf8 _ _ (Hd false)).
  - cbn [decode_surrogatepass]. rewrite Hd, bind_Ok. unfold decode.
    rewrite (skip_whitespace_value_start _ Hstart).
    specialize (Hscan [] recursion_room eq_refl (Nat.le_0_l _)).
    rewrite List.app_nil_r in Hscan. rewrite Hscan. reflexivity.
  - eapply Forall_impl; [|exact Hc]. cbn beta; intros; lia.
  - destruct Hc as [|c s Hc _]; cbn [hd]; lia.
Qed.

(** X13. An integer keeps all its digits. A body that is the decimal text
    of an integer is tagged "json", its value is that integer, and the
    serialized body is the same text again. The integer has at most 4300
    digits, the most [int] converts. *)
Theorem integer_body_is_exact (request : Request) (lg : Logger) (z : Z) :
  (List.length (int_repr (Z.abs z)) <= 4300)%nat ->
  map b2z (body request) = int_repr z ->
  decode_body request lg = (Ok (PInt z, lit "json"), lg)
  /\ serialize_body (PInt z) lg = (Ok (int_repr z), lg).
Proof.
  intros Hz H. split; [|reflexivity].
  now rewrite decode_body_unfold, (json_loads_int_repr _ _ Hz H).
Qed.

End Integers.

(** ** The logger the module sets up, and the line its handler writes *)

Section Module.
Context {RT : PyRuntime}.
Variable toupper_full : Z -> pystr.

Lemma records_when_enabled (request : Request) (lg : Logger) :
  isEnabledFor lg INFO = true ->
  List.length (new_records lg (snd (receive_webhook request lg))) = 1%nat.
Proof.
  intros E.
  destruct (receive_webhook_spec request lg) as (b & t & text & lg' & _ & _ & Hr & He).
  rewrite Hr; cbn [snd]. rewrite (new_records_app _ _ _ He), E. reflexivity.
Qed.

Lemma records_when_disabled (request : Request) (lg : Logger) :
  isEnabledFor lg INFO = false ->
  new_records lg (snd (receive_webhook request lg)) = [].
Proof.
  intros E.
  destruct (receive_webhook_spec request lg) as (b & t & text & lg' & _ & _ & Hr & He).
  rewrite Hr; cbn [snd]. rewrite (new_records_app _ _ _ He), E. reflexivity.
Qed.

(** X14. When the environment has no [LOG_LEVEL], the module sets its
    logger, named after the application, to [INFO], and the handler then
    writes one record for every request. *)
Theorem module_setup_default (environ : list (pystr * pystr)) :
  environ_get environ (lit "LOG_LEVEL") = None ->
  exists lg,
    module_setup toupper_full environ = Ok lg
    /\ logger_name lg = APP_NAME
    /\ logger_level lg = INFO
    /\ logger_emitted lg = []
    /\ forall request,
         List.length (new_records lg (snd (receive_webhook request lg))) = 1%nat.
Proof.
  intros H. unfold module_setup, LOG_LEVEL, os_getenv. rewrite H.
  eexists. split; [reflexivity|]. repeat split.
  intros request. now apply records_when_enabled.
Qed.

(** X15. The level names the module accepts, and what each leaves of the
    records. With [LOG_LEVEL], in upper case, equal to [DEBUG] or [INFO] the
    handler writes one record for every request; with [WARN], [WARNING],
    [ERROR], [CRITICAL], [FATAL] or [NOTSET] (which hands the decision to
    the root logger, at [WARNING]) the setup succeeds and the handler writes
    no record at all; with any other value [setLevel] raises [ValueError]
    and the module is not imported. *)
Theorem module_setup_levels (environ : list (pystr * pystr)) :
  (In (LOG_LEVEL toupper_full environ) [lit "DEBUG"; lit "INFO"]
   /\ exists lg,
        module_setup toupper_full environ = Ok lg
        /\ forall request,
             List.length (new_records lg (snd (receive_webhook request lg))) = 1%nat)
  \/ (In (LOG_LEVEL toupper_full environ)
        [lit "WARN"; lit "WARNING"; lit "ERROR"; lit "CRITICAL"; lit "FATAL";
         lit "NOTSET"]
      /\ exists lg,
           module_setup toupper_full environ = Ok lg
           /\ forall request,
                new_records lg (snd (receive_webhook request lg)) = [])
  \/ (~ In (LOG_LEVEL toupper_full environ)
          [lit "DEBUG"; lit "INFO"; lit "WARN"; lit "WARNING"; lit "ERROR";
           lit "CRITICAL"; lit "FATAL"; lit "NOTSET"]
      /\ module_setup toupper_full environ = Raise ValueError).
Proof.
  unfold module_setup, module_logger, setLevel, nameToLevel.
  set (level := LOG_LEVEL toupper_full environ). clearbody level.
  repeat match goal with
         | |- context [if pystr_eqb level ?name then _ else _] =>
             let E := fresh "E" in
             destruct (pystr_eqb level name) eqn:E;
             [apply pystr_eqb_eq in E; subst level|]
         end.
  1-5, 8: right; left; split; [cbn [In]; auto 10|];
    eexists; split; [reflexivity|]; intros request;
    now apply records_when_disabled.
  1-2: left; split; [cbn [In]; auto|];
    eexists; split; [reflexivity|]; intros request;
    now apply records_when_enabled.
  right; right. split; [|reflexivity].
  cbn [In]. intros H.
  repeat match goal with
         | E : pystr_eqb level ?name = false |- _ =>
             assert (level <> name)
               by (intros ->; rewrite pystr_eqb_refl in E; discriminate E);
             clear E
         end.
  intuition congruence.
Qed.

End Module.

Section Lines.
Context {RT : PyRuntime}.
Variable toupper_full : Z -> pystr.
Variable formatTime : LogRecord -> pystr -> pystr.

Lemma webhook_record_line (request : Request) (lg : Logger) (record : LogRecord) :
  logger_name lg = APP_NAME ->
  In record (new_records lg (snd (receive_webhook request lg))) ->
  record_levelno record = INFO
  /\ Formatter_format formatTime LOG_FORMAT LOG_DATEFMT record
     = Formatted (formatTime record LOG_DATEFMT
                  ++ lit " INFO bettervoice-webhook Received webhook event").
Proof.
  intros Hname.
  destruct (receive_webhook_spec request lg) as (b & t & text & lg' & Hd & Hs & Hr & He).
  rewrite Hr; cbn [snd]. rewrite (new_records_app _ _ _ He).
  destruct (isEnabledFor lg INFO); [|intros []].
  intros [<-|[]]. split; [reflexivity|].
  unfold Formatter_format.
  change (str_contains (lit "%(asctime)") LOG_FORMAT) with true. cbv iota.
  set (asctime := formatTime _ LOG_DATEFMT). clearbody asctime.
  unfold webhook_record, LogRecord_dict.
  cbn [record_msg record_name record_levelno record_extra]. rewrite Hname.
  reflexivity.
Qed.

(** X16. The line of the handler the module installs. For a record the
    webhook handler writes with the logger of the module, the formatter
    gives the time, the level name [INFO], the name of the logger and the
    message, and nothing else: none of the extra fields of the record
    ([source], [client_ip], [headers], [body_type], [body]) is part of the
    line, which is the same for every request but for the time. *)
Theorem formatted_line_leaves_the_fields_out
  (request : Request) (lg : Logger) (record : LogRecord) :
  logger_name lg = APP_NAME ->
  In record (new_records lg (snd (receive_webhook request lg))) ->
  Formatter_format formatTime LOG_FORMAT LOG_DATEFMT record
  = Formatted (formatTime record LOG_DATEFMT
               ++ lit " INFO bettervoice-webhook Received webhook event").
Proof.
  intros Hname Hin. now apply (webhook_record_line request lg).
Qed.

Lemma logging_setup_inv (environ : list (pystr * pystr)) (logger logger' : LoggerConfig) :
  logging_setup toupper_full environ logger = Ok logger' ->
  nameToLevel (LOG_LEVEL toupper_full environ) = Some (config_level logger')
  /\ config_handlers logger'
     = match config_handlers logger with
       | [] =>
           [ {| handler_level := NOTSET; handler_fmt := LOG_FORMAT;
                handler_datefmt := LOG_DATEFMT |} ]
       | handlers => handlers
       end.
Proof.
  unfold logging_setup.
  destruct (nameToLevel (LOG_LEVEL toupper_full environ)); [|discriminate].
  intros H. apply Ok_inj in H. subst logger'. split; reflexivity.
Qed.

(** X17. The module can be imported twice without writing twice. The first
    setup of the logger gives it one handler, the stream handler with the
    format of the module; a second setup on the same logger (the module
    imported again, under any accepted [LOG_LEVEL]) sets the level again
    and adds no handler, as the logger has one. A record of the webhook
    handler is then written as one line. *)
Theorem logging_setup_twice
  (environ1 environ2 : list (pystr * pystr)) (logger1 logger2 : LoggerConfig)
  (request : Request) (lg : Logger) (record : LogRecord) :
  logging_setup toupper_full environ1 new_logger = Ok logger1 ->
  logging_setup toupper_full environ2 logger1 = Ok logger2 ->
  logger_name lg = APP_NAME ->
  In record (new_records lg (snd (receive_webhook request lg))) ->
  config_handlers logger1
  = [ {| handler_level := NOTSET; handler_fmt := LOG_FORMAT;
         handler_datefmt := LOG_DATEFMT |} ]
  /\ config_handlers logger2 = config_handlers logger1
  /\ nameToLevel (LOG_LEVEL toupper_full environ2) = Some (config_level logger2)
  /\ Logger_lines formatTime logger2 record
     = [ Formatted (formatTime record LOG_DATEFMT
                    ++ lit " INFO bettervoice-webhook Received webhook event") ].
Proof.
  intros H1 H2 Hname Hin.
  destruct (logging_setup_inv _ _ _ H1) as [_ Hh1].
  destruct (logging_setup_inv _ _ _ H2) as [Hl2 Hh2].
  cbn [new_logger config_handlers] in Hh1. rewrite Hh1 in Hh2.
  destruct (webhook_record_line request lg record Hname Hin) as [Hlevel Hline].
  repeat split; try assumption; [congruence|].
  unfold Logger_lines. rewrite Hh2. cbn [filter handler_level].
  rewrite Hlevel. change (NOTSET <=? INFO) with true.
  cbn [map handler_fmt handler_datefmt]. now rewrite Hline.
Qed.

End Lines.

(** ** Witnesses of the further properties *)

Lemma small_repr_no_control (f : small_float) : no_control (small_repr f).
Proof.
  destruct f as [| | |z]; cbn [small_repr]; try (repeat constructor).
  apply no_control_app; [apply no_control_int_repr|repeat constructor].
Qed.

Lemma headers_last_value_wins_witness :
  let record :=
    webhook_record (logger_at INFO) request_repeated_header (lit "text")
      ([34] ++ lit "hello world" ++ [34]) in
  In record
    (new_records (logger_at INFO)
       (snd (receive_webhook request_repeated_header (logger_at INFO))))
  /\ exists headers,
       extra_get (lit "headers") (record_extra record) = Some (PDict headers)
       /\ keys_distinct (map fst headers) = true
       /\ forall name,
            dict_get headers name
            = option_map PStr
                (last_header name (headers_items request_repeated_header)).
Proof.
  intros record.
  assert (Hin : In record
            (new_records (logger_at INFO)
               (snd (receive_webhook request_repeated_header (logger_at INFO))))).
  { left. reflexivity. }
  split; [exact Hin|].
  exact (@headers_last_value_wins small_runtime request_repeated_header
           (logger_at INFO) record Hin).
Defined.

Lemma body_type_tells_the_stage_witness :
  decode_body request_text (logger_at INFO)
  = (Ok (PStr (lit "hello world"), lit "text"), logger_at INFO)
  /\ ((lit "text" = lit "json"
       /\ json_loads (body request_text) = Ok (@PStr small_runtime (lit "hello world")))
      \/ (lit "text" = lit "text"
          /\ (exists e, json_loads (RT:=small_runtime) (body request_text) = Raise e)
          /\ (exists text, @PStr small_runtime (lit "hello world") = PStr text
                           /\ utf8_decode false (body request_text) = Ok text)
          /\ ~ valid_json_within (@recursion_room small_runtime)
                (body request_text))
      \/ (lit "text" = lit "bytes"
          /\ (exists e, json_loads (RT:=small_runtime) (body request_text) = Raise e)
          /\ @PStr small_runtime (lit "hello world") = PBytes (body request_text)
          /\ ~ valid_utf8 (body request_text))).
Proof.
  split; [reflexivity|].
  apply (@body_type_tells_the_stage small_runtime request_text
           (logger_at INFO) (logger_at INFO)).
  reflexivity.
Defined.

Lemma utf8_bom_is_skipped_witness :
  valid_json (body request_json)
  /\ body request_json_bom = [xef; xbb; xbf] ++ body request_json
  /\ json_loads (RT:=small_runtime) (body request_json_bom)
     = json_loads (body request_json)
  /\ decode_body request_json_bom (logger_at INFO)
     = (Ok (value_json, lit "json"), logger_at INFO).
Proof.
  split; [exact request_json_valid|]. split; [reflexivity|].
  destruct (@utf8_bom_is_skipped small_runtime request_json_bom (logger_at INFO)
              (body request_json) request_json_valid eq_refl) as (H1 & H2 & _).
  split; [exact H1|]. apply H2. reflexivity.
Defined.

Lemma blank_body_is_text_witness :
  rfc_ws (map b2z (body request_blank))
  /\ (exists e, json_loads (RT:=small_runtime) (body request_blank) = Raise e)
  /\ decode_body request_blank (logger_at INFO)
     = (Ok (PStr (map b2z (body request_blank)), lit "text"), logger_at INFO).
Proof.
  split; [reflexivity|].
  apply (@blank_body_is_text small_runtime request_blank (logger_at INFO)).
  reflexivity.
Defined.

Lemma text_body_encodes_back_witness :
  decode_body request_text (logger_at INFO)
  = (Ok (PStr (lit "hello world"), lit "text"), logger_at INFO)
  /\ utf8_encode (lit "hello world") = Ok (body request_text).
Proof.
  split; [reflexivity|].
  apply (@text_body_encodes_back small_runtime request_text
           (logger_at INFO) (logger_at INFO)).
  reflexivity.
Defined.


Lemma hello_world_is_plain :
  Forall (fun c => 32 <= c /\ c <> 34 /\ c <> 92) (lit "hello world").
Proof.
  apply Forall_forall. intros c Hc. vm_compute in Hc.
  repeat (destruct Hc as [<-|Hc]; [repeat split; lia|]). destruct Hc.
Qed.

Lemma plain_text_is_logged_verbatim_witness :
  Forall (fun c => 32 <= c /\ c <> 34 /\ c <> 92) (lit "hello world")
  /\ serialize_body (RT:=small_runtime) (PStr (lit "hello world")) (logger_at INFO)
     = (Ok (QUOTE :: lit "hello world" ++ [QUOTE]), logger_at INFO).
Proof.
  split; [exact hello_world_is_plain|].
  exact (@plain_text_is_logged_verbatim small_runtime (lit "hello world")
           (logger_at INFO) hello_world_is_plain).
Defined.

Lemma logged_body_determines_body_witness :
  decode_body request_text (logger_at INFO)
  = (Ok (PStr (lit "hello world"), lit "text"), logger_at INFO)
  /\ decode_body request_repeated_header (logger_at WARNING)
     = (Ok (PStr (lit "hello world"), lit "text"), logger_at WARNING)
  /\ lit "text" <> lit "json"
  /\ fst (serialize_body (RT:=small_runtime) (PStr (lit "hello world")) (logger_at INFO))
     = fst (serialize_body (RT:=small_runtime) (PStr (lit "hello world"))
              (logger_at WARNING))
  /\ body request_text = body request_repeated_header.
Proof.
  assert (Htag : lit "text" <> lit "json") by (intros H; discriminate H).
  split; [reflexivity|]. split; [reflexivity|]. split; [exact Htag|].
  split; [reflexivity|].
  exact (@logged_body_determines_body small_runtime request_text
           request_repeated_header (logger_at INFO) (logger_at WARNING)
           (PStr (lit "hello world")) (PStr (lit "hello world")) (lit "text")
           eq_refl eq_refl Htag eq_refl).
Defined.

Lemma module_setup_default_witness :
  environ_get environ_plain (lit "LOG_LEVEL") = None
  /\ exists lg,
       module_setup (RT:=small_runtime) keep_case environ_plain = Ok lg
       /\ logger_name lg = APP_NAME
       /\ logger_level lg = INFO
       /\ logger_emitted lg = []
       /\ forall request,
            List.length (new_records lg (snd (receive_webhook request lg))) = 1%nat.
Proof.
  split; [reflexivity|].
  apply (@module_setup_default small_runtime keep_case environ_plain).
  reflexivity.
Defined.

Lemma formatted_line_leaves_the_fields_out_witness :
  let record :=
    webhook_record (logger_at INFO) request_json (lit "json")
      ([123; 34] ++ lit "event" ++ [34] ++ lit ": " ++ [34]
       ++ lit "call.completed" ++ [34] ++ lit ", " ++ [34] ++ lit "id"
       ++ [34] ++ lit ": 42}") in
  logger_name (logger_at INFO) = APP_NAME
  /\ In record
       (new_records (logger_at INFO)
          (snd (receive_webhook request_json (logger_at INFO))))
  /\ Formatter_format stopped_clock LOG_FORMAT LOG_DATEFMT record
     = Formatted (stopped_clock record LOG_DATEFMT
                  ++ lit " INFO bettervoice-webhook Received webhook event").
Proof.
  intros record.
  assert (Hin : In record
            (new_records (logger_at INFO)
               (snd (receive_webhook request_json (logger_at INFO))))).
  { left. reflexivity. }
  split; [reflexivity|]. split; [exact Hin|].
  exact (@formatted_line_leaves_the_fields_out small_runtime stopped_clock
           request_json (logger_at INFO) record eq_refl Hin).
Defined.

Lemma integer_body_is_exact_witness :
  (List.length (int_repr (Z.abs 18446744073709551617)) <= 4300)%nat
  /\ map b2z (body request_integer) = int_repr 18446744073709551617
  /\ decode_body request_integer (logger_at INFO)
     = (Ok (PInt 18446744073709551617, lit "json"), logger_at INFO)
  /\ serialize_body (RT:=small_runtime) (PInt 18446744073709551617) (logger_at INFO)
     = (Ok (int_repr 18446744073709551617), logger_at INFO).
Proof.
  assert (Hlen : (List.length (int_repr (Z.abs 18446744073709551617)) <= 4300)%nat).
  { apply Nat.leb_le. reflexivity. }
  split; [exact Hlen|]. split; [reflexivity|].
  exact (@integer_body_is_exact small_runtime request_integer (logger_at INFO)
           18446744073709551617 Hlen eq_refl).
Defined.

Lemma logging_setup_twice_witness :
  let handler :=
    {| handler_level := NOTSET; handler_fmt := LOG_FORMAT;
       handler_datefmt := LOG_DATEFMT |} in
  let logger1 := {| config_level := INFO; config_handlers := [handler] |} in
  let logger2 := {| config_level := DEBUG; config_handlers := [handler] |} in
  let record :=
    webhook_record (logger_at DEBUG) request_text (lit "text")
      ([34] ++ lit "hello world" ++ [34]) in
  logging_setup keep_case environ_plain new_logger = Ok logger1
  /\ logging_setup keep_case environ_debug logger1 = Ok logger2
  /\ logger_name (logger_at DEBUG) = APP_NAME
  /\ In record
       (new_records (logger_at DEBUG)
          (snd (receive_webhook request_text (logger_at DEBUG))))
  /\ config_handlers logger1 = [handler]
  /\ config_handlers logger2 = config_handlers logger1
  /\ nameToLevel (LOG_LEVEL keep_case environ_debug) = Some (config_level logger2)
  /\ Logger_lines stopped_clock logger2 record
     = [ Formatted (stopped_clock record LOG_DATEFMT
                    ++ lit " INFO bettervoice-webhook Received webhook event") ].
Proof.
  intros handler logger1 logger2 record.
  assert (Hin : In record
            (new_records (logger_at DEBUG)
               (snd (receive_webhook request_text (logger_at DEBUG))))).
  { left. reflexivity. }
  split; [reflexivity|]. split; [reflexivity|]. split; [reflexivity|].
  split; [exact Hin|].
  exact (@logging_setup_twice small_runtime keep_case stopped_clock
           environ_plain environ_debug logger1 logger2 request_text
           (logger_at DEBUG) record eq_refl eq_refl eq_refl Hin).
Defined.
